(** * Nshare file server: sandboxed mutations, undo slot and change detection

    A shallow embedding of [server.js].  JavaScript strings are modelled as
    Rocq strings, i.e. sequences of 8-bit code units; paths follow the POSIX
    flavour of Node's [path] module (the server's comments target Linux and
    NFS mounts).  The filesystem the handlers act on is a tree of named
    nodes addressed by absolute paths; handlers are functions from the
    server state to a response and a new state. *)

From Stdlib Require Import Ascii ZArith Lia DecimalString DecimalNat.
From Stdlib Require String.
From stdpp Require Import gmap strings list fin_maps sorting.

Set Warnings "-register-all".

(** ** JavaScript string primitives used by the server *)

Module Js.

(** [s.startsWith(pre)] *)
Definition startsWith (s pre : string) : bool := String.prefix pre s.

Definition to_list (s : string) : list ascii := String.list_ascii_of_string s.
Definition of_list (l : list ascii) : string := String.string_of_list_ascii l.

(** [s.includes(t)] *)
Fixpoint includes (s t : string) : bool :=
  String.prefix t s ||
  match s with
  | EmptyString => false
  | String _ s' => includes s' t
  end.

(** The lower-case form of a code unit below 256: the letters [A-Z] and
    the capital letters of Latin-1 (192 to 222, the multiplication sign
    215 apart) move up by 32; nothing else changes. *)
Definition lower_char (c : ascii) : ascii :=
  let n := nat_of_ascii c in
  if ((65 <=? n)%nat && (n <=? 90)%nat)
     || ((192 <=? n)%nat && (n <=? 222)%nat && negb (n =? 215)%nat)
  then ascii_of_nat (n + 32) else c.

(** [s.toLowerCase()] *)
Fixpoint toLowerCase (s : string) : string :=
  match s with
  | EmptyString => EmptyString
  | String c s' => String (lower_char c) (toLowerCase s')
  end.

(** White space as [String.prototype.trim] sees it in the 8-bit range. *)
Definition is_white (c : ascii) : bool :=
  let n := nat_of_ascii c in
  ((9 <=? n)%nat && (n <=? 13)%nat) || (n =? 32)%nat || (n =? 160)%nat.

Fixpoint trimStart (s : string) : string :=
  match s with
  | EmptyString => EmptyString
  | String c s' => if is_white c then trimStart s' else s
  end.

Definition trimEnd (s : string) : string :=
  String.rev (trimStart (String.rev s)).

(** [s.trim()] *)
Definition trim (s : string) : string := trimEnd (trimStart s).

(** [`${n}`] for a non-negative integer counter *)
Definition of_nat (n : nat) : string :=
  NilEmpty.string_of_uint (Nat.to_uint n).

End Js.

(** ** Node's [path] module, POSIX flavour *)

Module Path.

Definition slash : ascii := "/"%char.

(** The pieces of [s] between separators; [n] separators give [n + 1]
    pieces, some of which may be empty. *)
Fixpoint split (s : string) : list string :=
  match s with
  | EmptyString => [EmptyString]
  | String c s' =>
      if Ascii.eqb c slash then EmptyString :: split s'
      else match split s' with
           | h :: t => String c h :: t
           | [] => [String c EmptyString]
           end
  end.

(** [l.join('/')] *)
Fixpoint join_segs (l : list string) : string :=
  match l with
  | [] => EmptyString
  | [x] => x
  | x :: l' => x +:+ "/" +:+ join_segs l'
  end.

(** One step of [normalizeString]: the segment that ends at the current
    separator is dropped when empty or [.], pops the result on [..]
    (or is kept as [..] above the start of a relative path), and is
    appended otherwise.  The result is kept with its last segment first. *)
Definition push_segment (allowAboveRoot : bool) (res : list string)
    (seg : string) : list string :=
  if decide (seg = EmptyString) then res
  else if decide (seg = ".") then res
  else if decide (seg = "..") then
    match res with
    | top :: rest =>
        if decide (top = "..") then
          (if allowAboveRoot then ".." :: res else res)
        else rest
    | [] => if allowAboveRoot then [".."] else []
    end
  else seg :: res.

Definition normalize_segs (allowAboveRoot : bool) (path : string) : list string :=
  rev (fold_left (push_segment allowAboveRoot) (split path) []).

Definition normalizeString (allowAboveRoot : bool) (path : string) : string :=
  join_segs (normalize_segs allowAboveRoot path).

Definition isAbsolute (path : string) : bool := Js.startsWith path "/".

Fixpoint endsWithSlash (path : string) : bool :=
  match path with
  | EmptyString => false
  | String c EmptyString => Ascii.eqb c slash
  | String _ s' => endsWithSlash s'
  end.

(** [path.normalize(path)] *)
Definition normalize (path : string) : string :=
  if decide (path = EmptyString) then "."
  else
    let abs := isAbsolute path in
    let trailing := endsWithSlash path in
    let p := normalizeString (negb abs) path in
    if decide (p = EmptyString) then
      (if abs then "/" else if trailing then "./" else ".")
    else
      let p := if trailing then p +:+ "/" else p in
      if abs then "/" +:+ p else p.

(** [path.join(a, b)] *)
Definition join (a b : string) : string :=
  let joined :=
    if decide (a = EmptyString) then b
    else if decide (b = EmptyString) then a
    else a +:+ "/" +:+ b in
  if decide (joined = EmptyString) then "." else normalize joined.

(** [path.resolve(path)] in a process whose working directory is [cwd] *)
Definition resolve (cwd path : string) : string :=
  let own := if decide (path = EmptyString) then EmptyString else path +:+ "/" in
  let resolvedPath := if isAbsolute path then own else cwd +:+ "/" +:+ own in
  let resolvedAbsolute := isAbsolute path || isAbsolute cwd in
  let p := normalizeString (negb resolvedAbsolute) resolvedPath in
  if resolvedAbsolute then "/" +:+ p
  else if decide (p = EmptyString) then "." else p.

(** The scan of [path.dirname]: from the last character down to index 1,
    trailing separators are skipped and the first separator met after a
    non-separator ends the directory part.  [rtl] holds the characters of
    indices [1 ..] in reverse; the result is the index of that separator. *)
Fixpoint dirname_end (matchedSlash : bool) (rtl : list ascii) : option nat :=
  match rtl with
  | [] => None
  | c :: rest =>
      if Ascii.eqb c slash then
        (if matchedSlash then dirname_end true rest else Some (S (length rest)))
      else dirname_end false rest
  end.

(** [path.dirname(path)] *)
Definition dirname (path : string) : string :=
  match Js.to_list path with
  | [] => "."
  | c0 :: tl =>
      let hasRoot := Ascii.eqb c0 slash in
      match dirname_end true (rev tl) with
      | None => if hasRoot then "/" else "."
      | Some e =>
          if hasRoot && (e =? 1)%nat then "//"
          else Js.of_list (take e (c0 :: tl))
      end
  end.

(** The last path component: trailing separators are skipped, and the
    component runs back to the separator before it. *)
Definition lastSegment (path : string) : string :=
  default EmptyString
    (head (filter (λ s, s ≠ EmptyString) (rev (split path)))).

(** Index of the last [.] of a component, if any. *)
Fixpoint lastDot (seg : list ascii) : option nat :=
  match seg with
  | [] => None
  | c :: rest =>
      match lastDot rest with
      | Some i => Some (S i)
      | None => if Ascii.eqb c "."%char then Some 0%nat else None
      end
  end.

(** [path.extname(path)]: from the last [.] of the last component to its
    end; empty when there is no [.], when the only [.] opens the
    component, or when the component is [..]. *)
Definition extname (path : string) : string :=
  let seg := lastSegment path in
  match lastDot (Js.to_list seg) with
  | None => EmptyString
  | Some 0%nat => EmptyString
  | Some i =>
      if decide (seg = "..") then EmptyString
      else Js.of_list (drop i (Js.to_list seg))
  end.

(** [path.basename(path, suffix)] for a suffix no longer than the last
    component (the server passes [extname] of the same path): the last
    component, without [suffix] when it ends with it and is not equal to it. *)
Definition basename (path suffix : string) : string :=
  let seg := Js.to_list (lastSegment path) in
  let suf := Js.to_list suffix in
  let n := (length seg - length suf)%nat in
  if decide (suf ≠ [] ∧ (length suf < length seg)%nat ∧ drop n seg = suf)
  then Js.of_list (take n seg)
  else Js.of_list seg.

(** Does [s] contain a separator? *)
Fixpoint has_slash (s : string) : bool :=
  match s with
  | EmptyString => false
  | String c s' => Ascii.eqb c slash || has_slash s'
  end.

(** The names a directory entry can have: not empty, not [.] or [..],
    and free of separators. *)
Definition is_name (s : string) : bool :=
  negb (bool_decide (s = EmptyString)) && negb (bool_decide (s = "."))
  && negb (bool_decide (s = "..")) && negb (has_slash s).

(** [path.relative(from, to)] for two absolute paths: climb out of what
    is left of [from] after the common leading segments, then descend. *)
Fixpoint strip_common (a b : list string) : list string * list string :=
  match a, b with
  | x :: a', y :: b' => if decide (x = y) then strip_common a' b' else (a, b)
  | _, _ => (a, b)
  end.

Definition relative (from to : string) : string :=
  let '(up, down) := strip_common (normalize_segs false from)
                                  (normalize_segs false to) in
  join_segs (replicate (length up) ".." ++ down).

End Path.

(** ** Path sandbox *)

Section Sandbox.

(** The working directory of the server process. *)
Variable cwd : string.

(** [safeJoin(dir, filename)] *)
Definition safeJoin (dir filename : string) : string :=
  Path.resolve cwd (Path.join dir filename).

(** [isSafePath(filePath, baseDir)] *)
Definition isSafePath (filePath baseDir : string) : bool :=
  let resolvedPath := Path.resolve cwd filePath in
  let resolvedBase := Path.resolve cwd baseDir in
  Js.startsWith resolvedPath resolvedBase.

End Sandbox.

(** ** The filesystem seen by the server

    A tree of named nodes under the root directory [/].  Operations take
    the path string the server passes to [fs], locate it the way the
    operating system does, and either return a value or throw an error that
    carries the code and the message Node attaches to it. *)

Module Fs.

Inductive node : Type :=
  | File (content : string)
  | Dir (children : gmap string node).

Inductive errno : Type :=
  | ENOENT | ENOTDIR | EISDIR | ENOTEMPTY | EEXIST | EINVAL | EBUSY | EXDEV
  | EPERM | EACCES.

Definition errno_name (c : errno) : string :=
  match c with
  | ENOENT => "ENOENT" | ENOTDIR => "ENOTDIR" | EISDIR => "EISDIR"
  | ENOTEMPTY => "ENOTEMPTY" | EEXIST => "EEXIST" | EINVAL => "EINVAL"
  | EBUSY => "EBUSY" | EXDEV => "EXDEV" | EPERM => "EPERM" | EACCES => "EACCES"
  end.

Definition errno_text (c : errno) : string :=
  match c with
  | ENOENT => "no such file or directory"
  | ENOTDIR => "not a directory"
  | EISDIR => "illegal operation on a directory"
  | ENOTEMPTY => "directory not empty"
  | EEXIST => "file already exists"
  | EINVAL => "invalid argument"
  | EBUSY => "resource busy or locked"
  | EXDEV => "cross-device link not permitted"
  | EPERM => "operation not permitted"
  | EACCES => "permission denied"
  end.

(** A thrown [fs] error: [e.code] and the parts of [e.message]. *)
Record error : Type := mkError {
  code : errno;
  syscall : string;
  path : string;
  dest : option string
}.

(** [e.message], e.g. [ENOENT: no such file or directory, rename 'a' -> 'b'] *)
Definition message (e : error) : string :=
  errno_name (code e) +:+ ": " +:+ errno_text (code e) +:+ ", " +:+
  syscall e +:+ " '" +:+ path e +:+ "'" +:+
  match dest e with
  | Some d => " -> '" +:+ d +:+ "'"
  | None => EmptyString
  end.

Inductive result (A : Type) : Type :=
  | Ok (a : A)
  | Throw (e : error).
Arguments Ok {A} a.
Arguments Throw {A} e.

Definition is_dir (n : node) : bool :=
  match n with Dir _ => true | File _ => false end.

(** *** Tree primitives, on located paths (lists of names from the root) *)

Fixpoint find (n : node) (p : list string) : option node :=
  match p with
  | [] => Some n
  | s :: p' =>
      match n with
      | File _ => None
      | Dir m => match m !! s with Some c => find c p' | None => None end
      end
  end.

(** Why a search fails: a file in the way, or a missing name. *)
Fixpoint fail_code (n : node) (p : list string) : errno :=
  match p with
  | [] => ENOENT
  | s :: p' =>
      match n with
      | File _ => ENOTDIR
      | Dir m => match m !! s with Some c => fail_code c p' | None => ENOENT end
      end
  end.

(** Detach the entry at [p]; nothing changes when there is none. *)
Fixpoint remove_at (n : node) (p : list string) : node :=
  match p with
  | [] => n
  | s :: p' =>
      match n with
      | File _ => n
      | Dir m =>
          match p' with
          | [] => Dir (delete s m)
          | _ :: _ =>
              match m !! s with
              | Some c => Dir (<[s := remove_at c p']> m)
              | None => n
              end
          end
      end
  end.

(** Attach [x] at [p], replacing what is there; fails when the parent
    of [p] is not an existing directory. *)
Fixpoint insert_at (n : node) (p : list string) (x : node) : option node :=
  match p with
  | [] => None
  | s :: p' =>
      match n with
      | File _ => None
      | Dir m =>
          match p' with
          | [] => Some (Dir (<[s := x]> m))
          | _ :: _ =>
              match m !! s with
              | Some c =>
                  match insert_at c p' x with
                  | Some c' => Some (Dir (<[s := c']> m))
                  | None => None
                  end
              | None => None
              end
          end
      end
  end.

(** [mkdir -p]: create every missing directory along [p]. *)
Fixpoint mkdirp (n : node) (p : list string) : node + errno :=
  match p with
  | [] => match n with Dir _ => inl n | File _ => inr EEXIST end
  | s :: p' =>
      match n with
      | File _ => inr ENOTDIR
      | Dir m =>
          match mkdirp (default (Dir ∅) (m !! s)) p' with
          | inl c => inl (Dir (<[s := c]> m))
          | inr e => inr e
          end
      end
  end.

(** Every entry of every directory has a name an entry can have. *)
Fixpoint wf (n : node) : bool :=
  match n with
  | File _ => true
  | Dir m => map_fold (λ k c acc, Path.is_name k && wf c && acc) true m
  end.

(** The number of directories in a tree. *)
Fixpoint count_dirs (n : node) : nat :=
  match n with
  | File _ => 0
  | Dir m => S (map_fold (λ _ c acc, count_dirs c + acc) 0 m)
  end.

Definition is_empty_dir (n : node) : bool :=
  match n with Dir m => bool_decide (m = ∅) | File _ => false end.

Section Ops.

(** Working directory of the process, and the storage device each
    location lives on. *)
Variable cwd : string.
Variable dev : list string → nat.

(** Where the operating system finds [p]. *)
Definition locate (p : string) : list string :=
  Path.normalize_segs false
    (if Path.isAbsolute p then p else cwd +:+ "/" +:+ p).

Definition stat (t : node) (p : string) : result node :=
  match find t (locate p) with
  | Some n => Ok n
  | None => Throw (mkError (fail_code t (locate p)) "stat" p None)
  end.

(** [fs.existsSync(p)]; [fs.promises.access(p, F_OK)] succeeds exactly
    when it holds. *)
Definition existsSync (t : node) (p : string) : bool :=
  bool_decide (is_Some (find t (locate p))).

Definition unlinkSync (t : node) (p : string) : result node :=
  match find t (locate p) with
  | Some (File _) => Ok (remove_at t (locate p))
  | Some (Dir _) => Throw (mkError EISDIR "unlink" p None)
  | None => Throw (mkError (fail_code t (locate p)) "unlink" p None)
  end.

(** [fs.rmSync(p, { recursive: true, force: true })] *)
Definition rmSync (t : node) (p : string) : result node :=
  match locate p with
  | [] => Throw (mkError EBUSY "rm" p None)
  | l => Ok (remove_at t l)
  end.

Definition renameSync (t : node) (src dst : string) : result node :=
  let a := locate src in
  let b := locate dst in
  let throw c := Throw (mkError c "rename" src (Some dst)) in
  match find t a with
  | None => throw (fail_code t a)
  | Some x =>
      if decide (a = b) then Ok t
      else if decide (a = []) then throw EBUSY
      else if decide (dev a ≠ dev b) then throw EXDEV
      else if bool_decide (a `prefix_of` b) then throw EINVAL
      else
        match find t b with
        | Some y =>
            if negb (is_dir x) && is_dir y then throw EISDIR
            else if is_dir x && negb (is_dir y) then throw ENOTDIR
            else if is_dir x && negb (is_empty_dir y) then throw ENOTEMPTY
            else
              match insert_at (remove_at t a) b x with
              | Some t' => Ok t'
              | None => throw (fail_code (remove_at t a) (removelast b))
              end
        | None =>
            match insert_at (remove_at t a) b x with
            | Some t' => Ok t'
            | None => throw (fail_code t b)
            end
        end
  end.

(** [fs.promises.mkdir(p, { recursive: true })] *)
Definition mkdir (t : node) (p : string) : result node :=
  match mkdirp t (locate p) with
  | inl t' => Ok t'
  | inr c => Throw (mkError c "mkdir" p None)
  end.

Definition readFileSync (t : node) (p : string) : result string :=
  match find t (locate p) with
  | Some (File c) => Ok c
  | Some (Dir _) => Throw (mkError EISDIR "read" p None)
  | None => Throw (mkError (fail_code t (locate p)) "open" p None)
  end.

Definition writeFileSync (t : node) (p data : string) : result node :=
  match find t (locate p) with
  | Some (Dir _) => Throw (mkError EISDIR "open" p None)
  | _ =>
      match insert_at t (locate p) (File data) with
      | Some t' => Ok t'
      | None => Throw (mkError (fail_code t (locate p)) "open" p None)
      end
  end.

(** [fs.readdirSync(p, { withFileTypes: true })]: each name with its
    [isDirectory()] flag, in the order the directory yields them. *)
Definition readdirSync (t : node) (p : string) : result (list (string * bool)) :=
  match find t (locate p) with
  | Some (Dir m) => Ok (prod_map id is_dir <$> map_to_list m)
  | Some (File _) => Throw (mkError ENOTDIR "scandir" p None)
  | None => Throw (mkError (fail_code t (locate p)) "scandir" p None)
  end.

End Ops.

End Fs.

(** ** Input validation *)

Section Validation.

Definition invalid_char (c : ascii) : bool :=
  let n := nat_of_ascii c in
  (n <=? 31)%nat ||
  bool_decide (n ∈ [60; 62; 58; 34; 124; 63; 42]%nat).

Fixpoint has_invalid_char (s : string) : bool :=
  match s with
  | EmptyString => false
  | String c s' => invalid_char c || has_invalid_char s'
  end.

Definition reserved_names : list string :=
  ["con"; "prn"; "aux"; "nul"] ++
  ((λ d, "com" +:+ Js.of_nat d) <$> seq 1 9) ++
  ((λ d, "lpt" +:+ Js.of_nat d) <$> seq 1 9).

(** [isValidFileName(filename)]: non-empty, none of [< > : | ? *], the
    double quote or a control character, not a reserved device name in
    any letter case, at most 255 characters. *)
Definition isValidFileName (filename : string) : bool :=
  if decide (filename = EmptyString) then false
  else
    negb (has_invalid_char filename) &&
    negb (bool_decide (Js.toLowerCase filename ∈ reserved_names)) &&
    (String.length filename <=? 255)%nat.

(** [isValidPath(pathStr)] *)
Definition isValidPath (pathStr : string) : bool :=
  if decide (pathStr = EmptyString) then true
  else (String.length pathStr <=? 1000)%nat &&
       negb (Js.includes pathStr (String zero EmptyString)).

(** [isHidden(filename, stats)]; [hidden_attribute] stands for the
    Windows-only test [process.platform === 'win32' && stats.attributes & 0x2]. *)
Definition isHidden (filename : string) (hidden_attribute : bool) : bool :=
  if Js.startsWith filename "." then true
  else if hidden_attribute then true
  else false.

End Validation.

(** ** [sanitizeError] *)

Module Sanitize.

Definition colon : ascii := ":"%char.

Definition is_letter (c : ascii) : bool :=
  let n := nat_of_ascii c in
  ((65 <=? n)%nat && (n <=? 90)%nat) || ((97 <=? n)%nat && (n <=? 122)%nat).

Definition is_slash (c : ascii) : bool :=
  Ascii.eqb c "/"%char || Ascii.eqb c "\"%char.

(** Does [[A-Za-z]:[\\/][^:]+] match at the start of [s]? *)
Definition drive_path_here (s : string) : bool :=
  match s with
  | String c1 (String c2 (String c3 (String c4 _))) =>
      is_letter c1 && Ascii.eqb c2 colon && is_slash c3 && negb (Ascii.eqb c4 colon)
  | _ => false
  end.

(** Does [/[^:]+] match at the start of [s]? *)
Definition abs_path_here (s : string) : bool :=
  match s with
  | String c1 (String c2 _) =>
      Ascii.eqb c1 "/"%char && negb (Ascii.eqb c2 colon)
  | _ => false
  end.

(** [s.replace(re, '[file path]')] for a global pattern that, once it
    matches [head] characters, runs on greedily to the next colon: the
    scan drops [skip] forced characters, then every character up to a
    colon, and resumes matching at that colon. *)
Fixpoint replace_paths (here : string → bool) (head : nat)
    (skip : nat) (eating : bool) (s : string) : string :=
  match s with
  | EmptyString => EmptyString
  | String c s' =>
      match skip with
      | S k => replace_paths here head k eating s'
      | O =>
          if eating && negb (Ascii.eqb c colon)
          then replace_paths here head 0 true s'
          else if here s
          then "[file path]" +:+ replace_paths here head head true s'
          else String c (replace_paths here head 0 false s')
      end
  end.

Definition line_end (c : ascii) : bool :=
  Ascii.eqb c "010"%char || Ascii.eqb c "013"%char.

Fixpoint after_line (s : string) : string :=
  match s with
  | EmptyString => EmptyString
  | String c s' => if line_end c then s else after_line s'
  end.

(** [s.replace(/CODE.*/, phrase)]: the first occurrence of [code] and
    the rest of its line. *)
Fixpoint replace_code (code phrase : string) (s : string) : string :=
  if String.prefix code s then phrase +:+ after_line s
  else match s with
       | EmptyString => EmptyString
       | String c s' => String c (replace_code code phrase s')
       end.

(** [sanitizeError(error)] for a string argument *)
Definition sanitizeError (error : string) : string :=
  replace_code "EPERM" "Operation not permitted"
    (replace_code "EACCES" "Permission denied"
      (replace_code "ENOENT" "File or directory not found"
        (replace_paths abs_path_here 1 0 false
          (replace_paths drive_path_here 3 0 false error)))).

(** Every slash of [s] is the last character of [s] or has a colon right
    after it. *)
Fixpoint slashes_guarded (s : string) : bool :=
  match s with
  | EmptyString => true
  | String c s' =>
      (if Ascii.eqb c "/"%char
       then match s' with
            | EmptyString => true
            | String d _ => Ascii.eqb d colon
            end
       else true)
      && slashes_guarded s'
  end.

End Sanitize.

(** ** The dotfile rule of [res.download]

    The download route hands the resolved path to [res.download] with no
    options, and Express hands it to [send].  [send] splits the
    normalized path at the separators and looks for a dotfile among the
    parts: a part longer than one character that starts with a dot.
    With no [dotfiles] option such a request is ignored, which Express
    answers with 404.  Before version 1 of [send] (Express 4) the request
    is ignored only when the last part starts with a dot; from version 1
    on, whenever any part is a dotfile. *)

Module Send.

Definition isDotFile (part : string) : bool :=
  (1 <? String.length part)%nat && Js.startsWith part ".".

(** [containsDotFile(parts)] *)
Definition containsDotFile (parts : list string) : bool := existsb isDotFile parts.

(** Is the request for [path] ignored?  [legacy] selects the rule of the
    versions before 1. *)
Definition ignores (legacy : bool) (path : string) : bool :=
  let parts := Path.split (Path.normalize path) in
  containsDotFile parts
  && (if legacy then Js.startsWith (List.last parts EmptyString) "." else true).

End Send.

(** ** Server state and responses *)

(** The record kept in [lastOperation]; its [timestamp] field is never
    read by the server and is left out. *)
Inductive operation : Type :=
  | OpUpload (files : list string)
  | OpCreateFolder (path : string)
  | OpDelete (original_path : string)
  | OpRename (old_path new_path : string).

Record state : Type := mkState {
  tree : Fs.node;
  lastOperation : option operation
}.

(** One entry of a directory listing. *)
Record item : Type := mkItem {
  item_name : string;
  item_is_dir : bool;
  item_size : nat;
  item_modified : Z;
  item_path : string
}.

Inductive body : Type :=
  | Success
  | Uploaded (uploaded : list string)
  | Content (content : string)
  | Files (files : list item)
  | Error (error : string)
  | Download (fullPath : string)
  | Redirect
  (** the page of Express's default error handler *)
  | ErrorPage.

Record response : Type := mkResponse {
  status : nat;
  payload : body
}.

(** What a request leaves behind: the response, the new state, and the
    [file_updated] events sent to the [file_browser] room, oldest first. *)
Record outcome : Type := mkOutcome {
  res : response;
  post : state;
  emitted : list string
}.

Definition reply (code : nat) (b : body) (s : state) : outcome :=
  mkOutcome (mkResponse code b) s [].

Definition reject (code : nat) (msg : string) (s : state) : outcome :=
  reply code (Error msg) s.

(** [getFileSize]: bytes of a file, recursive sum for a directory. *)
Fixpoint getFileSize (n : Fs.node) : nat :=
  match n with
  | Fs.File c => String.length c
  | Fs.Dir m => map_fold (λ _ c acc, getFileSize c + acc)%nat 0%nat m
  end.

(** [items.sort(cmp)], as a stable insertion sort. *)
Section Sort.
Context {A : Type} (cmp : A → A → Z).

Fixpoint insert_sorted (x : A) (l : list A) : list A :=
  match l with
  | [] => [x]
  | y :: l' => if (cmp x y <=? 0)%Z then x :: l else y :: insert_sorted x l'
  end.

Definition sort (l : list A) : list A := foldr insert_sorted [] l.
End Sort.

(** ** Request handlers *)

Section Server.

(** Process environment and configuration. *)
Variable cwd : string.
Variable dev : list string → nat.
(** [config.upload_directory] *)
Variable upload_directory : string.
Variable enable_api_restrictions : bool.
(** [mime.lookup], a collaborator of the preview route. *)
Variable mime_lookup : string → option string.
(** [stats.mtimeMs] of the entry at a path. *)
Variable mtimeMs : string → Z.
(** [a.localeCompare(b)] *)
Variable localeCompare : string → string → Z.
(** Which generation of [send] serves the downloads. *)
Variable legacy_dotfiles : bool.

Definition BASE_DIR : string :=
  Path.resolve cwd
    (if decide (upload_directory = EmptyString) then "./uploads" else upload_directory).

Abbreviation safeJoin := (safeJoin cwd).
Abbreviation isSafePath := (isSafePath cwd).
Abbreviation existsSync := (Fs.existsSync cwd).
Abbreviation stat := (Fs.stat cwd).
Abbreviation unlinkSync := (Fs.unlinkSync cwd).
Abbreviation rmSync := (Fs.rmSync cwd).
Abbreviation renameSync := (Fs.renameSync cwd dev).
Abbreviation mkdir := (Fs.mkdir cwd).
Abbreviation readFileSync := (Fs.readFileSync cwd).
Abbreviation writeFileSync := (Fs.writeFileSync cwd).
Abbreviation readdirSync := (Fs.readdirSync cwd).

Definition set_tree (s : state) (t : Fs.node) : state :=
  mkState t (lastOperation s).

Definition adminDenied (s : state) : outcome :=
  reject 403 "Admin access required" s.

(** [apiProtection]: does the request go on to the route? *)
Definition apiProtection (origin : option string) (host : string) : bool :=
  if negb enable_api_restrictions then true
  else
    match origin with
    | None => true
    | Some o =>
        if decide (o = EmptyString) then true
        else bool_decide (o = "http://" +:+ host)
             || bool_decide (o = "https://" +:+ host)
    end.

Definition apiDenied (s : state) : outcome :=
  reject 403 "External API access not allowed. Please use the web interface." s.

(** *** Upload *)

(** An uploaded file as multer hands it over: where the temporary copy
    is, and the name the client gave. *)
Record upfile : Type := mkUpfile {
  tmp_path : string;
  originalname : string
}.

(** [cleanupTempFiles()] *)
Definition cleanupTempFiles (files : list upfile) (t : Fs.node) : Fs.node :=
  fold_left
    (λ t f, match unlinkSync t (tmp_path f) with Fs.Ok t' => t' | Fs.Throw _ => t end)
    files t.

(** The candidate tried at round [counter] of the duplicate loop. *)
Definition numbered (originalName : string) (counter : nat) : string :=
  let ext := Path.extname originalName in
  let name := Path.basename originalName ext in
  name +:+ "_" +:+ Js.of_nat counter +:+ ext.

(** Is the candidate of round [k] already in the directory? *)
Definition taken (t : Fs.node) (uploadDir originalName : string) (k : nat) : bool :=
  existsSync t (Path.join uploadDir (numbered originalName k)).

(** The [while (fs.existsSync(filePath))] loop; [fuel] bounds its rounds. *)
Fixpoint pickName (fuel : nat) (t : Fs.node) (uploadDir originalName : string)
    (counter : nat) (filename filePath : string) {struct fuel}
    : option (string * string) :=
  if existsSync t filePath then
    match fuel with
    | O => None
    | S fuel' =>
        let filename := numbered originalName counter in
        let filePath := Path.join uploadDir filename in
        pickName fuel' t uploadDir originalName (S counter) filename filePath
    end
  else Some (filename, filePath).

(** Move the temporary copy into place, copying when a rename cannot:
    the tree afterwards, and the error if one was thrown on the way. *)
Definition moveIntoPlace (t : Fs.node) (src filePath : string)
    : Fs.node * option Fs.error :=
  match renameSync t src filePath with
  | Fs.Ok t' => (t', None)
  | Fs.Throw e =>
      match Fs.code e with
      | Fs.EXDEV | Fs.EPERM =>
          match readFileSync t src with
          | Fs.Throw e' => (t, Some e')
          | Fs.Ok data =>
              match writeFileSync t filePath data with
              | Fs.Throw e' => (t, Some e')
              | Fs.Ok t1 =>
                  match unlinkSync t1 src with
                  | Fs.Ok t2 => (t2, None)
                  | Fs.Throw e' => (t1, Some e')
                  end
              end
          end
      | _ => (t, Some e)
      end
  end.

(** The body of the [for (const file of files)] loop: the tree
    afterwards, and the stored name or the error. *)
Definition storeFile (fuel : nat) (t : Fs.node) (uploadDir : string) (file : upfile)
    : option (Fs.node * (string + Fs.error)) :=
  let filename := originalname file in
  let filePath := Path.join uploadDir filename in
  match pickName fuel t uploadDir filename 1 filename filePath with
  | None => None
  | Some (filename, filePath) =>
      match moveIntoPlace t (tmp_path file) filePath with
      | (t', None) => Some (t', inl filename)
      | (t', Some e) => Some (t', inr e)
      end
  end.

(** The loop over the batch: the tree and the stored names at its end,
    or the tree, the file and the error at the first failure. *)
Fixpoint storeFiles (fuel : nat) (t : Fs.node) (uploadDir : string)
    (todo : list upfile) (uploadedFiles : list string)
    : option (Fs.node * list string + Fs.node * upfile * Fs.error) :=
  match todo with
  | [] => Some (inl (t, uploadedFiles))
  | file :: rest =>
      match storeFile fuel t uploadDir file with
      | None => None
      | Some (t', inr e) => Some (inr (t', file, e))
      | Some (t', inl filename) =>
          storeFiles fuel t' uploadDir rest (uploadedFiles ++ [filename])
      end
  end.

(** [app.post('/upload')]; [None] when the duplicate loop outlives [fuel]. *)
Definition post_upload (fuel : nat) (s : state) (currentPath : string)
    (files : list upfile) : option outcome :=
  let uploadDir := safeJoin BASE_DIR currentPath in
  if negb (isSafePath uploadDir BASE_DIR) then
    Some (reject 400 "Invalid path" (set_tree s (cleanupTempFiles files (tree s))))
  else if negb (existsSync (tree s) uploadDir) then
    Some (reject 400 "Directory does not exist"
            (set_tree s (cleanupTempFiles files (tree s))))
  else
    match storeFiles fuel (tree s) uploadDir files [] with
    | None => None
    | Some (inr (t, file, e)) =>
        Some (reject 500
                ("Failed to save " +:+ originalname file +:+ ": " +:+ Fs.message e)
                (set_tree s (cleanupTempFiles files t)))
    | Some (inl (t, uploadedFiles)) =>
        Some (mkOutcome (mkResponse 200 (Uploaded uploadedFiles))
                (mkState t (Some (OpUpload (Path.join uploadDir <$> uploadedFiles))))
                [currentPath])
    end.

(** *** Download and preview *)

(** [app.get('/download')] *)
Definition get_download (s : state) (origin : option string) (host : string)
    (filePath : string) : outcome :=
  if negb (apiProtection origin host) then apiDenied s
  else
    let fullPath := safeJoin BASE_DIR filePath in
    if negb (isSafePath fullPath BASE_DIR) then reject 400 "Invalid path" s
    else if negb (existsSync (tree s) fullPath) then reject 404 "File not found" s
    else
      match stat (tree s) fullPath with
      | Fs.Ok (Fs.File _) =>
          if Send.ignores legacy_dotfiles fullPath then reply 404 ErrorPage s
          else reply 200 (Download fullPath) s
      | _ => reject 400 "Path is not a file" s
      end.

(** [app.get('/preview')] *)
Definition get_preview (s : state) (origin : option string) (host : string)
    (filePath : string) : outcome :=
  if negb (apiProtection origin host) then apiDenied s
  else
    let fullPath := safeJoin BASE_DIR filePath in
    if negb (isSafePath fullPath BASE_DIR) then reject 400 "Invalid path" s
    else
      match stat (tree s) fullPath with
      | Fs.Ok (Fs.File _) =>
          let binary :=
            match mime_lookup fullPath with
            | Some mimeType =>
                negb (bool_decide (mimeType = EmptyString))
                && negb (Js.startsWith mimeType "text/")
            | None => false
            end in
          if binary then reject 400 "File is not a text file" s
          else
            match readFileSync (tree s) fullPath with
            | Fs.Ok data => reply 200 (Content (String.substring 0 (10 * 1000) data)) s
            | Fs.Throw e => reject 500 ("Failed to read file: " +:+ Fs.message e) s
            end
      | _ => reject 404 "File not found" s
      end.

(** *** Create folder, delete, rename *)

(** [app.post('/create_folder')]; [name] arrives untrimmed. *)
Definition post_create_folder (s : state) (admin : bool) (currentPath name : string)
    : outcome :=
  if negb admin then adminDenied s
  else
    let folderName := Js.trim name in
    if decide (folderName = EmptyString) then reject 400 "Folder name required" s
    else if negb (isValidFileName folderName) || negb (isValidPath currentPath) then
      reject 400 "Invalid folder name or path" s
    else
      let parentDir := safeJoin BASE_DIR currentPath in
      if negb (isSafePath parentDir BASE_DIR) then reject 400 "Invalid path" s
      else
        let newFolderPath := Path.join parentDir folderName in
        if existsSync (tree s) newFolderPath then reject 400 "Folder already exists" s
        else
          match mkdir (tree s) newFolderPath with
          | Fs.Ok t =>
              mkOutcome (mkResponse 200 Success)
                (mkState t (Some (OpCreateFolder newFolderPath)))
                [currentPath]
          | Fs.Throw e =>
              reject 500
                (Sanitize.sanitizeError ("Failed to create folder: " +:+ Fs.message e)) s
          end.

(** The [catch] of the delete route. *)
Definition delete_failed (e : Fs.error) (s : state) : outcome :=
  match Fs.code e with
  | Fs.ENOENT => reject 404 "Item not found" s
  | _ => reject 500 (Sanitize.sanitizeError ("Failed to delete: " +:+ Fs.message e)) s
  end.

(** [app.post('/delete')] *)
Definition post_delete (s : state) (admin : bool) (itemPath : string) : outcome :=
  if negb admin then adminDenied s
  else if negb (isValidPath itemPath) then reject 400 "Invalid path" s
  else
    let fullPath := safeJoin BASE_DIR itemPath in
    if negb (isSafePath fullPath BASE_DIR) then reject 400 "Invalid path" s
    else
      match stat (tree s) fullPath with
      | Fs.Throw e => delete_failed e s
      | Fs.Ok stats =>
          let s1 := mkState (tree s) (Some (OpDelete fullPath)) in
          let removed :=
            if Fs.is_dir stats then rmSync (tree s) fullPath
            else unlinkSync (tree s) fullPath in
          match removed with
          | Fs.Throw e => delete_failed e s1
          | Fs.Ok t =>
              mkOutcome (mkResponse 200 Success) (set_tree s1 t)
                [Path.dirname itemPath]
          end
      end.

(** [app.post('/rename')]; [name] arrives untrimmed. *)
Definition post_rename (s : state) (admin : bool) (oldPath name : string) : outcome :=
  if negb admin then adminDenied s
  else
    let newName := Js.trim name in
    if decide (newName = EmptyString) then reject 400 "New name required" s
    else if negb (isValidFileName newName) || negb (isValidPath oldPath) then
      reject 400 "Invalid file name or path" s
    else
      let fullOldPath := safeJoin BASE_DIR oldPath in
      if negb (isSafePath fullOldPath BASE_DIR) then reject 400 "Invalid path" s
      else if negb (existsSync (tree s) fullOldPath) then reject 404 "Item not found" s
      else
        let parentDir := Path.dirname fullOldPath in
        let newFullPath := Path.join parentDir newName in
        if existsSync (tree s) newFullPath then reject 400 "Name already exists" s
        else
          match renameSync (tree s) fullOldPath newFullPath with
          | Fs.Ok t =>
              mkOutcome (mkResponse 200 Success)
                (mkState t (Some (OpRename fullOldPath newFullPath)))
                [Path.dirname oldPath]
          | Fs.Throw e =>
              reject 500 (Sanitize.sanitizeError ("Failed to rename: " +:+ Fs.message e)) s
          end.

(** *** Undo *)

(** The loop that deletes the files of an upload record: the tree when
    it ends, and the error that ended it early if one did. *)
Fixpoint undoUpload (t : Fs.node) (files : list string) : Fs.node * option Fs.error :=
  match files with
  | [] => (t, None)
  | filePath :: rest =>
      if existsSync t filePath then
        match unlinkSync t filePath with
        | Fs.Ok t' => undoUpload t' rest
        | Fs.Throw e => (t, Some e)
        end
      else undoUpload t rest
  end.

(** The reversal of one record, inside the [try] of the undo route. *)
Definition revert_operation (t : Fs.node) (op : operation) : Fs.node * option Fs.error :=
  match op with
  | OpUpload files => undoUpload t files
  | OpCreateFolder path =>
      if existsSync t path then
        match rmSync t path with
        | Fs.Ok t' => (t', None)
        | Fs.Throw e => (t, Some e)
        end
      else (t, None)
  | OpRename old_path new_path =>
      if existsSync t new_path then
        match renameSync t new_path old_path with
        | Fs.Ok t' => (t', None)
        | Fs.Throw e => (t, Some e)
        end
      else (t, None)
  | OpDelete _ => (t, None)
  end.

(** [app.post('/undo')] *)
Definition post_undo (s : state) (admin : bool) : outcome :=
  if negb admin then adminDenied s
  else
    match lastOperation s with
    | None => reject 400 "No operation to undo" s
    | Some op =>
        match revert_operation (tree s) op with
        | (t, None) =>
            mkOutcome (mkResponse 200 Success) (mkState t None) [EmptyString]
        | (t, Some e) =>
            reject 500 ("Failed to undo: " +:+ Fs.message e) (set_tree s t)
        end
    end.

(** *** Directory listings *)

Fixpoint slashes (s : string) : string :=
  match s with
  | EmptyString => EmptyString
  | String c s' =>
      String (if Ascii.eqb c "\"%char then "/"%char else c) (slashes s')
  end.

(** Does the loop over [readdir] keep this entry? *)
Definition listed (searchQuery entry : string) : bool :=
  negb (negb (bool_decide (searchQuery = EmptyString))
        && negb (Js.includes (Js.toLowerCase entry) (Js.toLowerCase searchQuery)))
  && negb (isHidden entry false).

(** The loop over [readdir]: skip what the search or the hidden-file
    policy excludes, describe the rest. *)
Fixpoint collect (t : Fs.node) (fullPath currentPath searchQuery : string)
    (files : list string) : Fs.result (list item) :=
  match files with
  | [] => Fs.Ok []
  | entry :: rest =>
      if negb (bool_decide (searchQuery = EmptyString))
         && negb (Js.includes (Js.toLowerCase entry) (Js.toLowerCase searchQuery))
      then collect t fullPath currentPath searchQuery rest
      else
        let itemPath := Path.join fullPath entry in
        match stat t itemPath with
        | Fs.Throw e => Fs.Throw e
        | Fs.Ok stats =>
            if isHidden entry false
            then collect t fullPath currentPath searchQuery rest
            else
              match collect t fullPath currentPath searchQuery rest with
              | Fs.Throw e => Fs.Throw e
              | Fs.Ok items =>
                  Fs.Ok (mkItem entry (Fs.is_dir stats) (getFileSize stats)
                           (mtimeMs itemPath / 1000)
                           (slashes (Path.join currentPath entry)) :: items)
              end
        end
  end.

(** The items of the directory at [fullPath]; none when it is a file. *)
Definition list_items (t : Fs.node) (fullPath currentPath searchQuery : string)
    : Fs.result (list item) :=
  match stat t fullPath with
  | Fs.Throw e => Fs.Throw e
  | Fs.Ok (Fs.File _) => Fs.Ok []
  | Fs.Ok (Fs.Dir _) =>
      match readdirSync t fullPath with
      | Fs.Throw e => Fs.Throw e
      | Fs.Ok files => collect t fullPath currentPath searchQuery (fst <$> files)
      end
  end.

(** The comparator of the index page: directories first, then by key. *)
Definition compare_items (sortBy : string) (reverse : bool) (a b : item) : Z :=
  if negb (Bool.eqb (item_is_dir a) (item_is_dir b)) then (if item_is_dir a then -1 else 1)%Z
  else
    let comparison :=
      if decide (sortBy = "size") then (Z.of_nat (item_size a) - Z.of_nat (item_size b))%Z
      else if decide (sortBy = "modified") then (item_modified a - item_modified b)%Z
      else localeCompare (Js.toLowerCase (item_name a)) (Js.toLowerCase (item_name b)) in
    if reverse then (- comparison)%Z else comparison.

(** [app.get('/')]; an absent [sort] reads as [name]. *)
Definition get_index (s : state) (currentPath searchQuery sortBy order : string)
    : outcome :=
  if negb (isValidPath currentPath) || negb (isValidPath searchQuery) then
    reply 302 Redirect s
  else
    let fullPath := safeJoin BASE_DIR currentPath in
    if negb (isSafePath fullPath BASE_DIR) then reply 302 Redirect s
    else if negb (existsSync (tree s) fullPath) then reply 302 Redirect s
    else
      match list_items (tree s) fullPath currentPath searchQuery with
      | Fs.Throw _ => reply 302 Redirect s
      | Fs.Ok items =>
          let sortBy := if decide (sortBy = EmptyString) then "name" else sortBy in
          let reverse := bool_decide (order = "desc") in
          reply 200 (Files (sort (compare_items sortBy reverse) items)) s
      end.

(** The comparator of the JSON listing: directories first, newest first. *)
Definition compare_recent (a b : item) : Z :=
  if negb (Bool.eqb (item_is_dir a) (item_is_dir b)) then (if item_is_dir a then -1 else 1)%Z
  else (item_modified b - item_modified a)%Z.

(** [app.get('/api/files')]; [limit] is the parsed query field, [0]
    when absent. *)
Definition get_api_files (s : state) (currentPath : string) (limit : Z) : outcome :=
  if negb (isValidPath currentPath) then reject 400 "Invalid path" s
  else
    let fullPath := safeJoin BASE_DIR currentPath in
    if negb (isSafePath fullPath BASE_DIR) then reject 400 "Invalid path" s
    else if negb (existsSync (tree s) fullPath) then reject 404 "Path not found" s
    else
      match list_items (tree s) fullPath currentPath EmptyString with
      | Fs.Throw _ => reject 403 "Permission denied" s
      | Fs.Ok items =>
          let items := sort compare_recent items in
          let items := if (0 <? limit)%Z then take (Z.to_nat limit) items else items in
          reply 200 (Files items) s
      end.

(** *** Polling sweep *)

(** How a sweep ends: with the new map of modification times, or at
    the error caught by its [try]. *)
Inductive sweep : Type :=
  | Swept (newMtimes : gmap string Z) (events : list string)
  | Aborted (events : list string).

(** The [while (dirs.length)] loop of [pollForChanges]; the head of
    [dirs] is the directory [dirs.pop()] returns.  [events] are the
    paths emitted so far. *)
Fixpoint walk (fuel : nat) (t : Fs.node) (lastMtimes : gmap string Z)
    (dirs : list string) (newMtimes : gmap string Z) (events : list string)
    : option sweep :=
  match dirs with
  | [] => Some (Swept newMtimes events)
  | dir :: dirs =>
      match fuel with
      | O => None
      | S fuel' =>
          match readdirSync t dir with
          | Fs.Throw _ => Some (Aborted events)
          | Fs.Ok entries =>
              let mtime := mtimeMs dir in
              let rel := slashes (Path.relative BASE_DIR dir) in
              let newMtimes := <[dir := mtime]> newMtimes in
              let events :=
                match lastMtimes !! dir with
                | Some old =>
                    if decide (old ≠ mtime)
                    then events ++ [if decide (rel = ".") then EmptyString else rel]
                    else events
                | None => events
                end in
              let subdirs := (λ e, Path.join dir e.1) <$> filter (λ e, e.2 = true) entries in
              walk fuel' t lastMtimes (rev subdirs ++ dirs) newMtimes events
          end
      end
  end.

(** [pollForChanges()]: the new value of [lastMtimes] and the events
    emitted; [None] when the walk outlives [fuel]. *)
Definition pollForChanges (fuel : nat) (t : Fs.node) (lastMtimes : gmap string Z)
    : option (gmap string Z * list string) :=
  match walk fuel t lastMtimes [BASE_DIR] ∅ [] with
  | None => None
  | Some (Swept newMtimes events) => Some (newMtimes, events)
  | Some (Aborted events) => Some (lastMtimes, events)
  end.

Definition sweep_events (r : sweep) : list string :=
  match r with
  | Swept _ events => events
  | Aborted events => events
  end.

(** What the sweep emits when it visits [dir]: the path of [dir] below
    the root when a time was recorded for it and differs from its time
    now, nothing otherwise. *)
Definition reported (lastMtimes : gmap string Z) (dir : string) : option string :=
  match lastMtimes !! dir with
  | Some old =>
      if decide (old ≠ mtimeMs dir)
      then let rel := slashes (Path.relative BASE_DIR dir) in
           Some (if decide (rel = ".") then EmptyString else rel)
      else None
  | None => None
  end.

(** Every time recorded in the map is the time the directory has now. *)
Definition agrees (recorded : gmap string Z) : Prop :=
  ∀ dir old, recorded !! dir = Some old → old = mtimeMs dir.

(** A directory the walk can enter: an absolute path to a well-formed
    directory of the tree. *)
Definition walkable (t : Fs.node) (dir : string) : Prop :=
  Path.isAbsolute dir = true ∧
  ∃ m, Fs.find t (Fs.locate cwd dir) = Some (Fs.Dir m) ∧ Fs.wf (Fs.Dir m) = true.

(** The directories still to visit at and below [dir]. *)
Definition dir_weight (t : Fs.node) (dir : string) : nat :=
  match Fs.find t (Fs.locate cwd dir) with
  | Some n => Fs.count_dirs n
  | None => 0
  end.

End Server.

(** ** The stored name, in the words of the specification *)

(** The name under which a file called [original] is stored in a
    directory that holds the names [used]: [original] itself when it is
    not in use, otherwise [original] with the lowest integer suffix,
    counted from 1 and put before the extension, that is not in use. *)
Definition lowest_unused_name (used : gset string) (original name : string) : Prop :=
  if decide (original ∈ used) then
    ∃ k, 1 ≤ k ∧ name = numbered original k ∧ (name ∉ used) ∧
         ∀ j, 1 ≤ j < k → numbered original j ∈ used
  else name = original.

(** The names of a batch, each chosen against the directory and the
    names stored before it. *)
Fixpoint spec_stored_names (used : gset string) (originals names : list string) : Prop :=
  match originals, names with
  | [], [] => True
  | original :: originals, name :: names =>
      lowest_unused_name used original name ∧
      spec_stored_names ({[name]} ∪ used) originals names
  | _, _ => False
  end.

(** ** Breadcrumbs of the index page *)

(** The loop that builds [breadcrumbs]: each part of the current path
    with the path joined so far. *)
Definition breadcrumbs (currentPath : string) : list (string * string) :=
  if decide (currentPath = EmptyString) then []
  else
    (fold_left
       (λ (st : string * list (string * string)) (part : string),
          let pathSoFar := slashes (Path.join st.1 part) in
          (pathSoFar, st.2 ++ [(part, pathSoFar)]))
       (filter (λ p, p ≠ EmptyString) (Path.split currentPath))
       (EmptyString, [])).2.

(** ** The CORS middleware

    [config.cors_origins] is the string [same-origin], the string [*],
    another string, an array of strings, or something else. *)

Inductive cors_origins : Type :=
  | CorsString (s : string)
  | CorsArray (l : list string)
  | CorsOther.

(** How the middleware ends: with 403, with the 200 of a preflight, or
    by handing the request on; the last two carry the value of
    [Access-Control-Allow-Origin] when that header is set. *)
Inductive cors_verdict : Type :=
  | CorsReject
  | CorsPreflight (allow_origin : option string)
  | CorsNext (allow_origin : option string).

Definition corsMiddleware (cfg : cors_origins) (origin : option string)
    (host method : string) : cors_verdict :=
  let cross :=
    match origin with
    | None => false
    | Some o =>
        negb (bool_decide (o = EmptyString))
        && negb (bool_decide (o = "http://" +:+ host))
        && negb (bool_decide (o = "https://" +:+ host))
    end in
  let finish allow :=
    if decide (method = "OPTIONS") then CorsPreflight allow else CorsNext allow in
  match cfg with
  | CorsString s =>
      if decide (s = "same-origin") then
        if cross then CorsReject else finish None
      else if decide (s = "*") then finish (Some "*")
      else finish (Some s)
  | CorsArray l =>
      match origin with
      | Some o => if bool_decide (o ∈ l) then finish (Some o) else finish None
      | None => finish None
      end
  | CorsOther => finish None
  end.

(** ** Stale temporary uploads *)

Section TempUploads.

Variable cwd : string.
(** [config.temp_upload_directory] *)
Variable temp_upload_directory : string.
Variable mtimeMs : string → Z.

Definition TEMP_DIR : string := Path.resolve cwd temp_upload_directory.

Definition maxAge : Z := 60 * 60 * 1000.

(** The body of the loop of [cleanTempUploads]. *)
Definition cleanTempFile (now : Z) (t : Fs.node) (file : string) : Fs.node :=
  let filePath := Path.join TEMP_DIR file in
  match Fs.stat cwd t filePath with
  | Fs.Ok (Fs.File _) =>
      if (maxAge <? now - mtimeMs filePath)%Z then
        match Fs.unlinkSync cwd t filePath with
        | Fs.Ok t' => t'
        | Fs.Throw _ => t
        end
      else t
  | _ => t
  end.

(** [cleanTempUploads()] at the time [now] *)
Definition cleanTempUploads (now : Z) (t : Fs.node) : Fs.node :=
  match Fs.readdirSync cwd t TEMP_DIR with
  | Fs.Throw _ => t
  | Fs.Ok files => fold_left (cleanTempFile now) files.*1 t
  end.

End TempUploads.

(** ** Broadcasts to observers over time

    The event loop with a logical clock in milliseconds.  The watcher
    callback re-arms one timer; routes and the polling sweep emit at once. *)

Module Loop.

Record world : Type := mkWorld {
  now : nat;
  (** [fsWatchDebounce]: when the pending timer fires, and the
      [filename] its callback captured *)
  fsWatchDebounce : option (nat * option string);
  (** every [file_updated] delivered to the room so far, with its time *)
  delivered : list (nat * string)
}.

Inductive input : Type :=
  (** [d] milliseconds pass *)
  | Elapse (d : nat)
  (** the [fs.watch] callback runs with this [filename] *)
  | WatchCallback (filename : option string)
  (** a route or the sweep runs and emits these paths *)
  | Emits (paths : list string).

(** The path the timer callback broadcasts. *)
Definition watch_path (filename : option string) : string :=
  let dir :=
    match filename with
    | Some f => if decide (f = EmptyString) then EmptyString
                else slashes (Path.dirname f)
    | None => EmptyString
    end in
  if decide (dir = ".") then EmptyString else dir.

Definition step (w : world) (i : input) : world :=
  match i with
  | Elapse d =>
      let later := (now w + d)%nat in
      match fsWatchDebounce w with
      | Some (due, filename) =>
          if (due <=? later)%nat
          then mkWorld later None (delivered w ++ [(due, watch_path filename)])
          else mkWorld later (Some (due, filename)) (delivered w)
      | None => mkWorld later None (delivered w)
      end
  | WatchCallback filename =>
      mkWorld (now w) (Some ((now w + 500)%nat, filename)) (delivered w)
  | Emits paths =>
      mkWorld (now w) (fsWatchDebounce w) (delivered w ++ ((λ p, (now w, p)) <$> paths))
  end.

Definition run (w : world) (inputs : list input) : world :=
  fold_left step inputs w.

Definition start : world := mkWorld 0 None [].

(** A burst of watcher callbacks after a first one: each comes with the
    time that passed since the callback before it. *)
Definition burst (rest : list (nat * option string)) : list input :=
  rest ≫= λ gf, [Elapse gf.1; WatchCallback gf.2].

Definition burst_span (rest : list (nat * option string)) : nat :=
  sum_list (fst <$> rest).

Definition burst_last (f0 : option string) (rest : list (nat * option string))
    : option string :=
  default f0 (snd <$> last rest).

End Loop.

(** ** A small installation used to run the routes

    The server runs in [/] and serves [/srv/uploads]; multer drops
    temporary copies in [/tmp]; everything is on one device. *)

Module Scenario.
Import Fs.

Definition cwd : string := "/".
Definition upload_directory : string := "/srv/uploads".
Definition dev : list string → nat := λ _, 0%nat.

Definition entries : gmap string node :=
  {[ "a.txt" := File "alpha";
     "x.txt" := File "first";
     "d" := Dir {[ "e.txt" := File "echo" ]};
     ".secret" := File "hidden" ]}.

Definition uploads : node := Dir entries.

Definition disk : node :=
  Dir {[ "srv" := Dir {[ "uploads" := uploads ]};
         "tmp" := Dir {[ "1-x.txt" := File "one"; "2-x.txt" := File "two" ]} ]}.

Definition fresh : state := mkState disk None.

Definition mime_lookup : string → option string := λ _, None.
Definition mtimeMs : string → Z := λ p, Z.of_nat (String.length p).
Definition lastMtimes : gmap string Z := {[ "/srv/uploads" := 7%Z; "/srv/gone" := 3%Z ]}.
Definition localeCompare : string → string → Z :=
  λ a b, if String.eqb a b then 0%Z else if String.leb a b then (-1)%Z else 1%Z.

(** The state after a file [d] was renamed to [a.txt] and a directory
    [d] was then created out of band: the slot holds a rename whose old
    path is now a directory. *)
Definition stuck : state :=
  mkState disk (Some (OpRename "/srv/uploads/d" "/srv/uploads/a.txt")).

(** An installation whose files differ in size, in the opposite order
    of their names. *)
Definition sized : state :=
  mkState
    (Dir {[ "srv" :=
              Dir {[ "uploads" :=
                       Dir {[ "big.bin" := File "12345678";
                              "mid.log" := File "1234";
                              "small.txt" := File "12" ]} ]} ]})
    None.

End Scenario.

(** Paths and filesystem calls stay folded when a route is simplified. *)
Arguments Path.join : simpl never.
Arguments Path.resolve : simpl never.
Arguments Path.normalize : simpl never.
Arguments Path.dirname : simpl never.
Arguments Js.trim : simpl never.
Arguments safeJoin : simpl never.
Arguments isSafePath : simpl never.
Arguments isValidFileName : simpl never.
Arguments isValidPath : simpl never.
Arguments BASE_DIR : simpl never.
Arguments Sanitize.sanitizeError : simpl never.
Arguments Fs.message : simpl never.
Arguments Fs.locate : simpl never.
Arguments Fs.existsSync : simpl never.
Arguments Fs.stat : simpl never.
Arguments Fs.unlinkSync : simpl never.
Arguments Fs.rmSync : simpl never.
Arguments Fs.renameSync : simpl never.
Arguments Fs.mkdir : simpl never.
Arguments Fs.readFileSync : simpl never.
Arguments Fs.writeFileSync : simpl never.
Arguments Fs.readdirSync : simpl never.
Arguments TEMP_DIR : simpl never.

(** * The embedding on concrete inputs *)

Example split_pieces_of_a_path :
  Path.split "/srv//up/" = [""; "srv"; ""; "up"; ""].
Proof. reflexivity. Qed.

Example join_resolves_dots :
  (Path.join "/srv/uploads" <$> ["a/../b/./c.txt"; ""; "../../../.."; "x/"])
  = ["/srv/uploads/b/c.txt"; "/srv/uploads"; "/"; "/srv/uploads/x/"].
Proof. vm_compute. reflexivity. Qed.

Example join_of_relative_paths :
  Path.join "a" "../../b/" = "../b/" ∧ Path.join "" "" = ".".
Proof. vm_compute. split; reflexivity. Qed.

Example resolve_uses_the_working_directory :
  (Path.resolve "/home/n" <$> ["up/../x/"; "/srv/./uploads/"; ""; "./uploads"])
  = ["/home/n/x"; "/srv/uploads"; "/home/n"; "/home/n/uploads"].
Proof. vm_compute. reflexivity. Qed.

Example dirname_of_paths :
  (Path.dirname <$> ["/a/b"; "/a"; "/"; "a"; ""; "a//b"; "a/b/"; "//a"; "docs/a.txt"])
  = ["/a"; "/"; "/"; "."; "."; "a/"; "a"; "//"; "docs"].
Proof. vm_compute. reflexivity. Qed.

Example extname_of_names :
  (Path.extname <$> ["x.txt"; ".bashrc"; "a.b.c"; ".."; "..."; "x."; "d.x/y"; "a.tar.gz/"])
  = [".txt"; ""; ".c"; ""; "."; "."; ""; ".gz"].
Proof. vm_compute. reflexivity. Qed.

Example basename_without_extension :
  ((λ p, Path.basename p (Path.extname p))
     <$> ["x.txt"; ".bashrc"; "a.b.c"; ".."; "d/x."; "q/r.md/"])
  = ["x"; ".bashrc"; "a.b"; ".."; "x"; "r"].
Proof. vm_compute. reflexivity. Qed.

Example numbered_candidates :
  (numbered "x.txt" <$> [1; 2; 10]) = ["x_1.txt"; "x_2.txt"; "x_10.txt"] ∧
  numbered ".bashrc" 1 = ".bashrc_1" ∧ numbered "a.tar.gz" 3 = "a.tar_3.gz".
Proof. vm_compute. repeat split; reflexivity. Qed.

Example relative_to_the_root :
  (Path.relative "/srv/up" <$> ["/srv/up"; "/srv/up/a/b"; "/srv/x"])
  = [""; "a/b"; "../x"].
Proof. vm_compute. reflexivity. Qed.

Example trim_strips_both_ends : Js.trim "  a b  " = "a b".
Proof. vm_compute. reflexivity. Qed.

Example file_names_accepted :
  (isValidFileName <$> ["a.txt"; ""; "CON"; "a:b"; "../x"; "a/b"; "com3"; "com0"])
  = [true; false; false; false; true; true; false; true].
Proof. vm_compute. reflexivity. Qed.

Example sanitizeError_known_code :
  Sanitize.sanitizeError
    "Failed to rename: ENOENT: no such file or directory, rename '/srv/a' -> '/srv/b'"
  = "Failed to rename: File or directory not found".
Proof. vm_compute. reflexivity. Qed.

Example sanitizeError_other_code :
  Sanitize.sanitizeError
    "Failed to rename: ENOTEMPTY: directory not empty, rename '/srv/a' -> '/srv/b'"
  = "Failed to rename: ENOTEMPTY: directory not empty, rename '[file path]".
Proof. vm_compute. reflexivity. Qed.

Example sanitizeError_stops_at_colons :
  Sanitize.sanitizeError "open C:\x\y: bad /a/b:c" = "open [file path]: bad [file path]:c".
Proof. vm_compute. reflexivity. Qed.

(** * Facts about the filesystem tree *)

Module FsFacts.
Import Fs.

Lemma find_cons (m : gmap string node) (s : string) (p : list string) :
  find (Dir m) (s :: p) = m !! s ≫= λ c, find c p.
Proof. simpl. by destruct (m !! s). Qed.

Lemma remove_at_one (m : gmap string node) (s : string) :
  remove_at (Dir m) [s] = Dir (delete s m).
Proof. done. Qed.

Lemma remove_at_more (m : gmap string node) (s s' : string) (p : list string) :
  remove_at (Dir m) (s :: s' :: p) =
  match m !! s with
  | Some c => Dir (<[s := remove_at c (s' :: p)]> m)
  | None => Dir m
  end.
Proof. done. Qed.

Lemma insert_at_one (m : gmap string node) (s : string) (x : node) :
  insert_at (Dir m) [s] x = Some (Dir (<[s := x]> m)).
Proof. done. Qed.

Lemma insert_at_more (m : gmap string node) (s s' : string) (p : list string)
    (x : node) :
  insert_at (Dir m) (s :: s' :: p) x =
  c ← m !! s; c' ← insert_at c (s' :: p) x; Some (Dir (<[s := c']> m)).
Proof.
  simpl. destruct (m !! s) as [c|]; [|done]. simpl.
  by destruct c.
Qed.

Local Arguments find : simpl never.
Local Arguments remove_at : simpl never.
Local Arguments insert_at : simpl never.

(** Whatever lies on the way to an existing entry exists. *)
Lemma find_prefix (t : node) (a b : list string) (x : node) :
  find t a = Some x → b `prefix_of` a → is_Some (find t b).
Proof.
  revert t a. induction b as [|s b IH]; intros t a Ha Hpre; [by eexists|].
  destruct a as [|s' a]; [by apply prefix_nil_not in Hpre|].
  apply prefix_cons_inv_1 in Hpre as Hs. subst s'.
  apply prefix_cons_inv_2 in Hpre.
  destruct t as [c|m]; [done|]. rewrite find_cons in Ha |- *.
  destruct (m !! s) as [c|]; [|done]. simpl in *. eauto.
Qed.

Lemma find_remove_at (t : node) (a : list string) :
  a ≠ [] → find (remove_at t a) a = None.
Proof.
  revert t. induction a as [|s a IH]; intros t Hne; [done|].
  destruct t as [c|m]; [done|].
  destruct a as [|s' a].
  - rewrite remove_at_one, find_cons, lookup_delete_eq. done.
  - rewrite remove_at_more. destruct (m !! s) as [c|] eqn:Hs.
    + rewrite find_cons, lookup_insert_eq. simpl. by apply IH.
    + rewrite find_cons, Hs. done.
Qed.

(** Removing an entry never makes another one appear. *)
Lemma find_remove_at_None (t : node) (a b : list string) :
  find t b = None → find (remove_at t a) b = None.
Proof.
  revert t b. induction a as [|s a IH]; intros t b Hb; [done|].
  destruct t as [c|m]; [done|].
  destruct b as [|s' b]; [done|].
  rewrite find_cons in Hb.
  destruct a as [|s2 a].
  - rewrite remove_at_one, find_cons. destruct (decide (s = s')) as [->|Hne].
    + by rewrite lookup_delete_eq.
    + by rewrite lookup_delete_ne.
  - rewrite remove_at_more.
    destruct (m !! s) as [c|] eqn:Hs; [|by rewrite find_cons].
    rewrite find_cons. destruct (decide (s = s')) as [->|Hne].
    + rewrite lookup_insert_eq. simpl. apply IH. by rewrite Hs in Hb.
    + by rewrite lookup_insert_ne.
Qed.

Lemma find_insert_at (t t1 : node) (b : list string) (x : node) :
  insert_at t b x = Some t1 → find t1 b = Some x.
Proof.
  revert t t1. induction b as [|s b IH]; intros t t1 Hins; [done|].
  destruct t as [c|m]; [done|].
  destruct b as [|s' b].
  - rewrite insert_at_one in Hins. simplify_eq.
    rewrite find_cons, lookup_insert_eq. done.
  - rewrite insert_at_more in Hins.
    destruct (m !! s) as [c|]; [|done]. simpl in Hins.
    destruct (insert_at c (s' :: b) x) as [c'|] eqn:Hc; [|done].
    simplify_eq/=. rewrite find_cons, lookup_insert_eq. simpl. eauto.
Qed.

(** Attaching at a free place and detaching again changes nothing. *)
Lemma remove_at_insert_at (t t1 : node) (b : list string) (x : node) :
  insert_at t b x = Some t1 → find t b = None → remove_at t1 b = t.
Proof.
  revert t t1. induction b as [|s b IH]; intros t t1 Hins Hb; [done|].
  destruct t as [c|m]; [done|]. rewrite find_cons in Hb.
  destruct b as [|s' b].
  - rewrite insert_at_one in Hins. simplify_eq.
    rewrite remove_at_one. f_equal.
    destruct (m !! s) eqn:Hs; [done|].
    rewrite delete_insert_eq. by apply delete_id.
  - rewrite insert_at_more in Hins.
    destruct (m !! s) as [c|] eqn:Hs; [|done]. simpl in Hb, Hins.
    destruct (insert_at c (s' :: b) x) as [c'|] eqn:Hc; [|done].
    simplify_eq/=. rewrite remove_at_more, lookup_insert_eq.
    rewrite (IH c c' Hc Hb), insert_insert_eq. f_equal. by apply insert_id.
Qed.

(** Detaching an entry and attaching it back where it was changes nothing. *)
Lemma insert_at_remove_at (t : node) (a : list string) (x : node) :
  find t a = Some x → a ≠ [] → insert_at (remove_at t a) a x = Some t.
Proof.
  revert t. induction a as [|s a IH]; intros t Ha Hne; [done|].
  destruct t as [c|m]; [done|]. rewrite find_cons in Ha.
  destruct (m !! s) as [c|] eqn:Hs; [|done]. simpl in Ha.
  destruct a as [|s' a].
  - change (find c []) with (Some c) in Ha. simplify_eq.
    rewrite remove_at_one, insert_at_one, insert_delete_eq.
    do 2 f_equal. by apply insert_id.
  - rewrite remove_at_more, Hs, insert_at_more, lookup_insert_eq. simpl.
    rewrite (IH c Ha) by done. simpl. rewrite insert_insert_eq.
    do 2 f_equal. by apply insert_id.
Qed.

(** Attaching at [b] does not create anything outside [b]. *)
Lemma find_insert_at_None (t t1 : node) (a b : list string) (x : node) :
  insert_at t b x = Some t1 → ¬ b `prefix_of` a → find t a = None →
  find t1 a = None.
Proof.
  revert t t1 a. induction b as [|s b IH]; intros t t1 a Hins Hpre Ha; [done|].
  destruct t as [c|m]; [done|].
  destruct a as [|s' a]; [done|]. rewrite find_cons in Ha.
  destruct b as [|s2 b].
  - rewrite insert_at_one in Hins. simplify_eq. rewrite find_cons.
    destruct (decide (s = s')) as [->|Hne].
    + exfalso. apply Hpre. by apply prefix_cons, prefix_nil.
    + by rewrite lookup_insert_ne.
  - rewrite insert_at_more in Hins.
    destruct (m !! s) as [c|] eqn:Hs; [|done]. simpl in Hins.
    destruct (insert_at c (s2 :: b) x) as [c'|] eqn:Hc; [|done].
    simplify_eq/=. rewrite find_cons.
    destruct (decide (s = s')) as [->|Hne].
    + rewrite lookup_insert_eq. simpl. rewrite Hs in Ha. simpl in Ha.
      eapply IH; [done| |done]. intros Hp. apply Hpre. by apply prefix_cons.
    + by rewrite lookup_insert_ne.
Qed.

(** Files away from [b] are untouched by attaching at [b]. *)
Lemma find_insert_at_file (t t1 : node) (q b : list string) (x : node) (c : string) :
  insert_at t b x = Some t1 → ¬ b `prefix_of` q → find t q = Some (File c) →
  find t1 q = Some (File c).
Proof.
  revert t t1 q. induction b as [|s b IH]; intros t t1 q Hins Hpre Hq; [done|].
  destruct t as [c0|m]; [done|].
  destruct q as [|s' q]; [done|]. rewrite find_cons in Hq.
  destruct b as [|s2 b].
  - rewrite insert_at_one in Hins. simplify_eq. rewrite find_cons.
    destruct (decide (s = s')) as [->|Hne].
    + exfalso. apply Hpre. by apply prefix_cons, prefix_nil.
    + by rewrite lookup_insert_ne.
  - rewrite insert_at_more in Hins.
    destruct (m !! s) as [c1|] eqn:Hs; [|done]. simpl in Hins.
    destruct (insert_at c1 (s2 :: b) x) as [c'|] eqn:Hc; [|done].
    simplify_eq/=. rewrite find_cons.
    destruct (decide (s = s')) as [->|Hne].
    + rewrite lookup_insert_eq. simpl. rewrite Hs in Hq. simpl in Hq.
      eapply IH; [done| |done]. intros Hp. apply Hpre. by apply prefix_cons.
    + by rewrite lookup_insert_ne.
Qed.

(** Files away from [a] are untouched by detaching [a]. *)
Lemma find_remove_at_file (t : node) (q a : list string) (c : string) :
  ¬ a `prefix_of` q → find t q = Some (File c) →
  find (remove_at t a) q = Some (File c).
Proof.
  revert t q. induction a as [|s a IH]; intros t q Hpre Hq.
  { exfalso. apply Hpre, prefix_nil. }
  destruct t as [c0|m]; [done|].
  destruct q as [|s' q]; [done|]. rewrite find_cons in Hq.
  destruct a as [|s2 a].
  - rewrite remove_at_one, find_cons. destruct (decide (s = s')) as [->|Hne].
    + exfalso. apply Hpre. by apply prefix_cons, prefix_nil.
    + by rewrite lookup_delete_ne.
  - rewrite remove_at_more.
    destruct (m !! s) as [c1|] eqn:Hs; [|by rewrite find_cons].
    rewrite find_cons. destruct (decide (s = s')) as [->|Hne].
    + rewrite lookup_insert_eq. simpl. rewrite Hs in Hq. simpl in Hq.
      apply IH; [|done]. intros Hp. apply Hpre. by apply prefix_cons.
    + by rewrite lookup_insert_ne.
Qed.

(** ** Well-formed trees *)

Lemma wf_dir (m : gmap string node) :
  wf (Dir m) = true ↔
  ∀ k c, m !! k = Some c → Path.is_name k = true ∧ wf c = true.
Proof.
  change (wf (Dir m)) with (map_fold (λ k c acc, Path.is_name k && wf c && acc) true m).
  rewrite map_fold_foldr.
  assert (∀ l : list (string * node),
    foldr (uncurry (λ k c acc, Path.is_name k && wf c && acc)) true l = true ↔
    ∀ k c, (k, c) ∈ l → Path.is_name k = true ∧ wf c = true) as Hl.
  { induction l as [|[k c] l IH]; simpl.
    - split; [|done]. intros _ k c Hin. by apply elem_of_nil in Hin.
    - rewrite !andb_true_iff, IH. split.
      + intros [[Hk Hc] Hrest] k' c' [?|?]%elem_of_cons; [by simplify_eq|eauto].
      + intros H. split; [apply H; by left|]. intros k' c' Hin. apply H. by right. }
  rewrite Hl. by setoid_rewrite elem_of_map_to_list.
Qed.

Lemma wf_find (t n : node) (l : list string) :
  wf t = true → find t l = Some n → wf n = true.
Proof.
  revert t. induction l as [|s l IH]; intros t Hwf Hfind.
  { change (find t []) with (Some t) in Hfind. by simplify_eq. }
  destruct t as [c|m]; [done|]. rewrite find_cons in Hfind.
  destruct (m !! s) as [c|] eqn:Hs; [|done]. simpl in Hfind.
  apply (IH c); [|done]. by eapply (proj1 (wf_dir m)).
Qed.

Lemma count_dirs_dir (m : gmap string node) :
  count_dirs (Dir m) = S (sum_list_with (λ kc, count_dirs kc.2) (map_to_list m)).
Proof.
  change (count_dirs (Dir m))
    with (S (map_fold (λ _ c acc, count_dirs c + acc) 0 m)).
  rewrite map_fold_foldr. f_equal.
  induction (map_to_list m) as [|[k c] l IH]; [done|]. simpl. by rewrite IH.
Qed.

End FsFacts.

(** * Facts about paths *)

Module PathFacts.
Import Path.

Lemma to_list_app (a b : string) :
  Js.to_list (a +:+ b) = Js.to_list a ++ Js.to_list b.
Proof.
  unfold Js.to_list. induction a as [|c a IH]; [done|].
  change (String c a +:+ b) with (String c (a +:+ b)). simpl. by rewrite IH.
Qed.

Lemma to_list_inj (a b : string) : Js.to_list a = Js.to_list b → a = b.
Proof.
  intros H. rewrite <- (String.string_of_list_ascii_of_string a),
    <- (String.string_of_list_ascii_of_string b). unfold Js.to_list in H. by rewrite H.
Qed.

Lemma of_to_list (s : string) : Js.of_list (Js.to_list s) = s.
Proof. apply String.string_of_list_ascii_of_string. Qed.

Lemma to_of_list (l : list ascii) : Js.to_list (Js.of_list l) = l.
Proof. apply String.list_ascii_of_string_of_list_ascii. Qed.

Lemma app_inj_tail (a b t : string) : a +:+ t = b +:+ t → a = b.
Proof.
  intros H. apply to_list_inj. apply (f_equal Js.to_list) in H.
  rewrite !to_list_app in H. by apply app_inv_tail in H.
Qed.

Lemma app_cons (c : ascii) (a b : string) : String c a +:+ b = String c (a +:+ b).
Proof. done. Qed.

Lemma app_empty_l (b : string) : EmptyString +:+ b = b.
Proof. done. Qed.

Lemma app_assoc_str (a b c : string) : (a +:+ b) +:+ c = a +:+ b +:+ c.
Proof. induction a as [|x a IH]; [done|]. by rewrite !app_cons, IH. Qed.

(** ** Splitting at separators *)

Lemma has_slash_app (a b : string) :
  has_slash (a +:+ b) = has_slash a || has_slash b.
Proof.
  induction a as [|c a IH]; [done|]. rewrite app_cons. simpl.
  by rewrite IH, orb_assoc.
Qed.

Lemma has_slash_to_list (s : string) :
  has_slash s = false ↔ Forall (λ c, c ≠ slash) (Js.to_list s).
Proof.
  induction s as [|c s IH]; simpl; [by split; [constructor|]|].
  rewrite orb_false_iff, IH. change (Js.to_list (String c s)) with (c :: Js.to_list s).
  rewrite Forall_cons. by rewrite Ascii.eqb_neq.
Qed.

Lemma has_slash_of_list (l : list ascii) :
  has_slash (Js.of_list l) = false ↔ Forall (λ c, c ≠ slash) l.
Proof. by rewrite has_slash_to_list, to_of_list. Qed.

Lemma split_nonempty (s : string) : split s ≠ [].
Proof.
  induction s as [|c s IH]; [done|]. simpl.
  destruct (Ascii.eqb c slash); [done|]. by destruct (split s).
Qed.

Lemma split_app (a b : string) :
  split (a +:+ String slash b) = split a ++ split b.
Proof.
  induction a as [|c a IH].
  - by rewrite app_empty_l.
  - rewrite app_cons. simpl. rewrite IH.
    destruct (Ascii.eqb c slash); [done|].
    pose proof (split_nonempty a). by destruct (split a).
Qed.

Lemma split_no_slash (c : string) : has_slash c = false → split c = [c].
Proof.
  induction c as [|x c IH]; [done|]. simpl. intros [Hx Hc]%orb_false_iff.
  by rewrite Hx, IH.
Qed.

Lemma split_pieces (s : string) : Forall (λ x, has_slash x = false) (split s).
Proof.
  induction s as [|c s IH]; simpl; [by repeat constructor|].
  destruct (Ascii.eqb c slash) eqn:Hc; [by constructor|].
  destruct (split s) as [|h t]; [by repeat constructor; simpl; rewrite Hc|].
  apply Forall_cons in IH as [Hh Ht]. constructor; [|done].
  simpl. by rewrite Hc, Hh.
Qed.

Lemma join_segs_cons (x y : string) (l : list string) :
  join_segs (x :: y :: l) = x +:+ String slash (join_segs (y :: l)).
Proof. done. Qed.

Lemma split_join_segs (l : list string) :
  l ≠ [] → Forall (λ x, has_slash x = false) l → split (join_segs l) = l.
Proof.
  induction l as [|x l IH]; [done|]. intros _ [Hx Hl]%Forall_cons.
  destruct l as [|y l]; [by apply split_no_slash|].
  rewrite join_segs_cons, split_app, split_no_slash by done.
  by rewrite IH.
Qed.

Lemma join_segs_snoc_nonempty (l : list string) (c : string) :
  c ≠ EmptyString → join_segs (l ++ [c]) ≠ EmptyString.
Proof.
  intros Hc. induction l as [|x l IH]; [done|].
  destruct l as [|y l]; simpl.
  - by destruct x.
  - by destruct x.
Qed.

(** ** Normalizing *)

Lemma is_name_spec (c : string) :
  is_name c = true ↔
  c ≠ EmptyString ∧ c ≠ "." ∧ c ≠ ".." ∧ has_slash c = false.
Proof.
  unfold is_name. rewrite !andb_true_iff, !negb_true_iff, !bool_decide_eq_false.
  tauto.
Qed.

Lemma push_name (b : bool) (res : list string) (c : string) :
  is_name c = true → push_segment b res c = c :: res.
Proof.
  intros (H1 & H2 & H3 & _)%is_name_spec. unfold push_segment.
  by rewrite !decide_False.
Qed.

Lemma fold_push_names (b : bool) (l acc : list string) :
  Forall (λ c, is_name c = true) l →
  fold_left (push_segment b) l acc = rev l ++ acc.
Proof.
  revert acc. induction l as [|c l IH]; intros acc Hl; [done|].
  apply Forall_cons in Hl as [Hc Hl]. simpl.
  by rewrite push_name, IH, <- app_assoc.
Qed.

Lemma push_clean (res : list string) (seg : string) :
  has_slash seg = false →
  Forall (λ c, is_name c = true) res →
  Forall (λ c, is_name c = true) (push_segment false res seg).
Proof.
  intros Hseg Hres. unfold push_segment.
  repeat case_decide; try done.
  - destruct res as [|top rest]; [done|]. case_decide; [done|].
    by apply Forall_cons in Hres as [_ ?].
  - constructor; [|done]. by apply is_name_spec.
Qed.

Lemma fold_push_clean (l acc : list string) :
  Forall (λ x, has_slash x = false) l →
  Forall (λ c, is_name c = true) acc →
  Forall (λ c, is_name c = true) (fold_left (push_segment false) l acc).
Proof.
  revert acc. induction l as [|x l IH]; intros acc Hl Hacc; [done|].
  apply Forall_cons in Hl as [Hx Hl]. simpl. apply IH; [done|].
  by apply push_clean.
Qed.

(** What [normalizeString] keeps are names. *)
Lemma normalize_segs_clean (p : string) :
  Forall (λ c, is_name c = true) (normalize_segs false p).
Proof.
  unfold normalize_segs. apply Forall_rev.
  apply fold_push_clean; [apply split_pieces|done].
Qed.

Lemma normalize_segs_snoc (p c : string) :
  is_name c = true →
  normalize_segs false (p +:+ String slash c) = normalize_segs false p ++ [c].
Proof.
  intros Hc. unfold normalize_segs.
  rewrite split_app, fold_left_app.
  rewrite (split_no_slash c) by by apply is_name_spec in Hc as (_ & _ & _ & ?).
  simpl. by rewrite push_name.
Qed.

(** A rendered absolute path is located where it says. *)
Lemma normalize_segs_render (l : list string) :
  Forall (λ c, is_name c = true) l →
  normalize_segs false (String slash (join_segs l)) = l.
Proof.
  intros Hl. unfold normalize_segs.
  change (String slash (join_segs l)) with (EmptyString +:+ String slash (join_segs l)).
  rewrite split_app, fold_left_app. simpl.
  destruct l as [|x l]; [done|].
  rewrite split_join_segs; [|done|].
  - by rewrite fold_push_names, app_nil_r, rev_involutive.
  - eapply Forall_impl; [done|]. by intros c (_ & _ & _ & ?)%is_name_spec.
Qed.

Lemma isAbsolute_inv (d : string) :
  isAbsolute d = true → ∃ d', d = String slash d'.
Proof.
  unfold isAbsolute, Js.startsWith. intros H%String.prefix_correct.
  destruct d as [|c d]; [done|]. exists d.
  simpl in H. destruct d; simpl in H; by simplify_eq.
Qed.

Lemma isAbsolute_cons (d : string) : isAbsolute (String slash d) = true.
Proof. unfold isAbsolute, Js.startsWith. simpl. by destruct d. Qed.

Lemma endsWithSlash_app (a c : string) :
  c ≠ EmptyString → endsWithSlash (a +:+ c) = endsWithSlash c.
Proof.
  intros Hc. induction a as [|x a IH]; [done|]. rewrite app_cons.
  simpl. rewrite IH. destruct (a +:+ c) eqn:E; [|done].
  destruct a; [|done]. by rewrite app_empty_l in E.
Qed.

Lemma endsWithSlash_no_slash (c : string) :
  has_slash c = false → endsWithSlash c = false.
Proof.
  induction c as [|x c IH]; [done|]. simpl. intros [Hx Hc]%orb_false_iff.
  destruct c; [done|]. by apply IH.
Qed.

(** Joining a name onto an absolute directory appends one segment. *)
Lemma join_name (d c : string) :
  isAbsolute d = true → is_name c = true →
  join d c = String slash (join_segs (normalize_segs false d ++ [c])).
Proof.
  intros [d' ->]%isAbsolute_inv Hc.
  pose proof Hc as (Hne & _ & _ & Hns)%is_name_spec.
  unfold join, normalize. cbv zeta.
  rewrite (decide_False (P := String slash d' = EmptyString)) by done.
  rewrite (decide_False (P := c = EmptyString)) by done.
  change (String slash d' +:+ "/" +:+ c) with (String slash (d' +:+ String slash c)).
  rewrite !(decide_False (P := String slash (d' +:+ String slash c) = EmptyString)) by done.
  rewrite isAbsolute_cons. simpl negb.
  change (String slash (d' +:+ String slash c)) with (String slash d' +:+ String slash c).
  unfold normalizeString. rewrite normalize_segs_snoc by done.
  rewrite decide_False by by apply join_segs_snoc_nonempty.
  rewrite (endsWithSlash_app _ (String slash c)) by done.
  assert (endsWithSlash (String slash c) = false) as ->; [|done].
  simpl. destruct c; [done|]. by apply endsWithSlash_no_slash.
Qed.

Section Locate.
Variable cwd : string.

Lemma locate_absolute (p : string) :
  isAbsolute p = true → Fs.locate cwd p = normalize_segs false p.
Proof. unfold Fs.locate. by intros ->. Qed.

Lemma locate_clean (p : string) : Forall (λ c, is_name c = true) (Fs.locate cwd p).
Proof. apply normalize_segs_clean. Qed.

Lemma isAbsolute_join (d c : string) :
  isAbsolute d = true → is_name c = true → isAbsolute (join d c) = true.
Proof. intros Hd Hc. rewrite join_name by done. apply isAbsolute_cons. Qed.

(** The entry [c] of the directory [d] is found one step below [d]. *)
Lemma locate_join (d c : string) :
  isAbsolute d = true → is_name c = true →
  Fs.locate cwd (join d c) = Fs.locate cwd d ++ [c].
Proof.
  intros Hd Hc. rewrite (locate_absolute d), locate_absolute
    by auto using isAbsolute_join.
  rewrite join_name by done. apply normalize_segs_render.
  apply Forall_app. split; [apply normalize_segs_clean|by constructor].
Qed.

Lemma isAbsolute_resolve (p : string) :
  isAbsolute cwd = true → isAbsolute (resolve cwd p) = true.
Proof.
  intros Hcwd. unfold resolve. rewrite Hcwd, orb_true_r. apply isAbsolute_cons.
Qed.

End Locate.

End PathFacts.

(** * Upload: numbering duplicates *)

Module NameFacts.
Import Path PathFacts.

Lemma lastSegment_no_slash (p : string) : has_slash (lastSegment p) = false.
Proof.
  unfold lastSegment.
  destruct (head _) as [x|] eqn:Hx; [|done]. simpl.
  apply head_Some_elem_of, list_elem_of_filter in Hx as [_ Hx].
  apply list_elem_of_In, in_rev, list_elem_of_In in Hx.
  by apply (proj1 (Forall_forall _ _) (split_pieces p)).
Qed.

Lemma extname_no_slash (p : string) : has_slash (extname p) = false.
Proof.
  unfold extname. pose proof (lastSegment_no_slash p) as H.
  apply has_slash_to_list in H.
  destruct (lastDot _) as [[|i]|]; [done| |done].
  case_decide; [done|]. apply has_slash_of_list. by apply Forall_drop.
Qed.

Lemma basename_no_slash (p suffix : string) : has_slash (basename p suffix) = false.
Proof.
  unfold basename. pose proof (lastSegment_no_slash p) as H.
  apply has_slash_to_list in H.
  case_decide; apply has_slash_of_list; [by apply Forall_take|done].
Qed.

Lemma uint_no_slash (d : Decimal.uint) : has_slash (NilEmpty.string_of_uint d) = false.
Proof. induction d; simpl; done. Qed.

Lemma of_nat_no_slash (k : nat) : has_slash (Js.of_nat k) = false.
Proof. apply uint_no_slash. Qed.

Lemma of_nat_inj (j k : nat) : Js.of_nat j = Js.of_nat k → j = k.
Proof.
  unfold Js.of_nat. intros H.
  apply (f_equal NilEmpty.uint_of_string) in H. rewrite !NilEmpty.usu in H.
  simplify_eq. rewrite <- (DecimalNat.Unsigned.of_to j), <- (DecimalNat.Unsigned.of_to k).
  by f_equal.
Qed.

(** A separator-free string with an underscore in it is a name. *)
Lemma underscore_name (a b : string) :
  has_slash a = false → has_slash b = false → is_name (a +:+ "_" +:+ b) = true.
Proof.
  intros Ha Hb. apply is_name_spec.
  assert ("_"%char ∈ Js.to_list (a +:+ "_" +:+ b)) as Hin.
  { rewrite to_list_app. apply elem_of_app. right. by left. }
  split_and!.
  - intros E. rewrite E in Hin. by apply elem_of_nil in Hin.
  - intros E. rewrite E in Hin. by apply list_elem_of_singleton in Hin.
  - intros E. rewrite E in Hin.
    apply elem_of_cons in Hin as [?|Hin]; [done|].
    by apply list_elem_of_singleton in Hin.
  - rewrite !has_slash_app, Ha, Hb. done.
Qed.

Lemma numbered_name (originalName : string) (k : nat) :
  is_name (numbered originalName k) = true.
Proof.
  unfold numbered. apply underscore_name; [apply basename_no_slash|].
  by rewrite has_slash_app, of_nat_no_slash, extname_no_slash.
Qed.

Lemma numbered_inj (originalName : string) (j k : nat) :
  numbered originalName j = numbered originalName k → j = k.
Proof.
  unfold numbered. intros H.
  apply (inj (String.app _)) in H. apply (inj (String.app _)) in H.
  apply app_inj_tail in H. by apply of_nat_inj.
Qed.

End NameFacts.

Section Upload.

Variable cwd : string.
Variable dev : list string → nat.
Variable upload_directory : string.

Abbreviation exists_in := (Fs.existsSync cwd).
Abbreviation where_is := (Fs.locate cwd).

Lemma existsSync_true (t : Fs.node) (p : string) :
  Fs.existsSync cwd t p = true ↔ is_Some (Fs.find t (Fs.locate cwd p)).
Proof. unfold Fs.existsSync. by rewrite bool_decide_eq_true. Qed.

Lemma existsSync_false (t : Fs.node) (p : string) :
  Fs.existsSync cwd t p = false ↔ Fs.find t (Fs.locate cwd p) = None.
Proof.
  unfold Fs.existsSync. rewrite bool_decide_eq_false.
  by rewrite eq_None_not_Some.
Qed.

Lemma find_app (t : Fs.node) (l1 l2 : list string) :
  Fs.find t (l1 ++ l2) = Fs.find t l1 ≫= λ n, Fs.find n l2.
Proof.
  revert t. induction l1 as [|s l1 IH]; intros t; [done|].
  destruct t as [c|m]; [done|]. simpl.
  destruct (m !! s) as [c|]; [apply IH|done].
Qed.

(** Below a file there is nothing. *)
Lemma find_below_file (t : Fs.node) (a b : list string) (c : string) :
  Fs.find t a = Some (Fs.File c) → a `prefix_of` b → is_Some (Fs.find t b) → a = b.
Proof.
  intros Ha [k ->] Hb. rewrite find_app, Ha in Hb. simpl in Hb.
  destruct k; [by rewrite app_nil_r|]. by destruct Hb.
Qed.

(** An entry of an absolute directory exists when its name is in the
    directory. *)
Lemma exists_entry (t : Fs.node) (dir c : string) (m : gmap string Fs.node) :
  Path.isAbsolute dir = true → Path.is_name c = true →
  Fs.find t (where_is dir) = Some (Fs.Dir m) →
  Fs.find t (where_is (Path.join dir c)) = m !! c.
Proof.
  intros Hdir Hc Hm. rewrite PathFacts.locate_join, find_app, Hm by done.
  simpl. by destruct (m !! c).
Qed.

(** Among [size m + 1] consecutive candidates one is not in the directory. *)
Lemma free_candidate (originalName : string) (m : gmap string Fs.node) (counter : nat) :
  ∃ k, counter ≤ k < counter + S (size m) ∧ m !! numbered originalName k = None.
Proof.
  destruct (decide (Forall (λ k, is_Some (m !! numbered originalName k))
                      (seq counter (S (size m))))) as [Hall|Hex].
  - exfalso.
    set (l := numbered originalName <$> seq counter (S (size m))).
    assert (NoDup l) as Hnd.
    { apply NoDup_fmap_2; [|apply NoDup_seq].
      intros j k. apply NameFacts.numbered_inj. }
    assert (list_to_set l ⊆ dom m) as Hsub.
    { intros x [k [-> Hk]]%elem_of_list_to_set%list_elem_of_fmap.
      apply elem_of_dom. by apply (proj1 (Forall_forall _ _) Hall). }
    apply subseteq_size in Hsub.
    rewrite size_list_to_set, size_dom in Hsub by done.
    unfold l in Hsub. rewrite length_fmap, length_seq in Hsub. lia.
  - apply not_Forall_Exists, Exists_exists in Hex as (k & Hk & Hfree); [|apply _].
    apply elem_of_seq in Hk. exists k. split; [lia|].
    by apply eq_None_not_Some.
Qed.

(** What a rename onto a free name does to the tree. *)
Lemma renameSync_fresh (t t' : Fs.node) (src dst : string) :
  exists_in t dst = false →
  Fs.renameSync cwd dev t src dst = Fs.Ok t' →
  ∃ x, Fs.find t (where_is src) = Some x ∧
       ¬ where_is dst `prefix_of` where_is src ∧
       Fs.insert_at (Fs.remove_at t (where_is src)) (where_is dst) x = Some t'.
Proof.
  intros Hb%existsSync_false. unfold Fs.renameSync.
  set (a := where_is src). set (b := where_is dst). fold b in Hb.
  intros Hren.
  destruct (Fs.find t a) as [x|] eqn:Ha; [|done].
  assert (a ≠ b) as Hab by (intros E; rewrite E in Ha; congruence).
  rewrite decide_False in Hren by done.
  destruct (decide (a = [])) as [|Hnil]; [done|].
  destruct (decide (dev a ≠ dev b)) as [|_]; [done|].
  destruct (bool_decide (a `prefix_of` b)); [done|].
  rewrite Hb in Hren.
  destruct (Fs.insert_at (Fs.remove_at t a) b x) as [t1|] eqn:Hins; [|done].
  simplify_eq. exists x. split_and!; [done| |done].
  intros Hp. destruct (FsFacts.find_prefix _ _ _ _ Ha Hp). congruence.
Qed.

(** Moving a temporary copy onto a free name: every file that is not
    the copy itself (or under it) is as it was, whether the move goes
    through or not; when it goes through, the copy is at the new name. *)
Lemma moveIntoPlace_fresh (t : Fs.node) (src filePath : string) :
  exists_in t filePath = false →
  (∀ q c, Fs.find t q = Some (Fs.File c) → ¬ where_is src `prefix_of` q →
          Fs.find (moveIntoPlace cwd dev t src filePath).1 q = Some (Fs.File c)) ∧
  ((moveIntoPlace cwd dev t src filePath).2 = None →
   ∃ x, Fs.find t (where_is src) = Some x ∧
        Fs.find (moveIntoPlace cwd dev t src filePath).1 (where_is filePath) = Some x).
Proof.
  intros Hfree. pose proof Hfree as Hb%existsSync_false.
  assert (∀ q c, Fs.find t q = Some (Fs.File c) → ¬ where_is filePath `prefix_of` q)
    as Hoff.
  { intros q c Hq Hp. destruct (FsFacts.find_prefix _ _ _ _ Hq Hp). congruence. }
  unfold moveIntoPlace.
  destruct (Fs.renameSync cwd dev t src filePath) as [t'|e] eqn:Hren.
  { destruct (renameSync_fresh _ _ _ _ Hfree Hren) as (x & Ha & Hpre & Hins).
    simpl. split.
    - intros q c Hq Hsrc. eapply FsFacts.find_insert_at_file; [done|by eapply Hoff|].
      by apply FsFacts.find_remove_at_file.
    - intros _. exists x. split; [done|]. by eapply FsFacts.find_insert_at. }
  assert (∀ e' : Fs.error,
                (∀ q c, Fs.find t q = Some (Fs.File c) → ¬ where_is src `prefix_of` q →
                        Fs.find (t, Some e').1 q = Some (Fs.File c)) ∧
                ((t, Some e').2 = None → ∃ x, Fs.find t (where_is src) = Some x ∧
                   Fs.find (t, Some e').1 (where_is filePath) = Some x)) as Hsame.
  { intros e'. split; [by intros|done]. }
  destruct (Fs.code e); try apply Hsame.
  all: unfold Fs.readFileSync, Fs.writeFileSync, Fs.unlinkSync.
  all: destruct (Fs.find t (where_is src)) as [[data|]|] eqn:Ha; try apply Hsame.
  all: rewrite Hb.
  all: destruct (Fs.insert_at t (where_is filePath) (Fs.File data)) as [t1|] eqn:Hins;
         try apply Hsame.
  all: assert (¬ where_is filePath `prefix_of` where_is src) as Hpre by by eapply Hoff.
  all: rewrite (FsFacts.find_insert_at_file _ _ _ _ _ _ Hins Hpre Ha).
  all: simpl; split.
  all: try (intros q c Hq Hsrc; apply FsFacts.find_remove_at_file; [done|];
            eapply FsFacts.find_insert_at_file; [done|by eapply Hoff|done]).
  all: intros _; exists (Fs.File data); split; [done|].
  all: apply FsFacts.find_remove_at_file; [|by eapply FsFacts.find_insert_at].
  all: intros Hp.
  all: assert (where_is src = where_is filePath) as E.
  all: try (eapply (find_below_file t1); [by eapply FsFacts.find_insert_at_file|done|];
            erewrite FsFacts.find_insert_at by done; by eexists).
  all: rewrite E in Ha; congruence.
Qed.

Section Pick.

Variable t : Fs.node.
Variable uploadDir originalName : string.

Abbreviation taken_at := (taken cwd t uploadDir originalName).

(** The loop ends as soon as a candidate is free, with the first free
    one, provided one comes within [fuel] rounds. *)
Lemma pickName_first_free (fuel counter : nat) (filename filePath : string) :
  exists_in t filePath = false ∨
    (∃ k, counter ≤ k < counter + fuel ∧ taken_at k = false) →
  ∃ fn fp,
    pickName cwd fuel t uploadDir originalName counter filename filePath = Some (fn, fp) ∧
    exists_in t fp = false ∧
    if exists_in t filePath
    then ∃ k, counter ≤ k ∧ fn = numbered originalName k ∧
              fp = Path.join uploadDir fn ∧ ∀ j, counter ≤ j < k → taken_at j = true
    else fn = filename ∧ fp = filePath.
Proof.
  revert counter filename filePath.
  induction fuel as [|fuel IH]; intros counter filename filePath Hfree.
  - destruct Hfree as [Hfree|(k & ? & _)]; [|lia].
    exists filename, filePath. simpl. by rewrite Hfree.
  - destruct (exists_in t filePath) eqn:Hex.
    + destruct Hfree as [?|(k & Hk & Hfree)]; [done|].
      set (c := numbered originalName counter).
      destruct (IH (S counter) c (Path.join uploadDir c)) as (fn & fp & Hpick & Hfp & Hsel).
      { destruct (decide (k = counter)) as [->|Hne].
        - left. exact Hfree.
        - right. exists k. split; [lia|done]. }
      exists fn, fp. simpl. rewrite Hex. split; [done|]. split; [done|].
      destruct (exists_in t (Path.join uploadDir c)) eqn:Hc.
      * destruct Hsel as (k' & Hk' & -> & -> & Hbelow).
        exists k'. split_and!; [lia|done..|].
        intros j Hj. destruct (decide (j = counter)) as [->|]; [done|].
        apply Hbelow. lia.
      * destruct Hsel as [-> ->]. exists counter. split_and!; [lia|done..|].
        intros j Hj. lia.
    + exists filename, filePath. simpl. by rewrite Hex.
Qed.

End Pick.

End Upload.

(** Three uploads of [x.txt] into a directory that starts with none:
    the names stored are [x.txt], [x_1.txt] and [x_2.txt], in one batch
    or in three requests, and the first copy keeps its content. *)
Lemma upload_three_times :
  let start :=
    mkState (Fs.Dir {[ "srv" := Fs.Dir {[ "uploads" := Fs.Dir ∅ ]};
                       "tmp" := Fs.Dir {[ "1" := Fs.File "one"; "2" := Fs.File "two";
                                          "3" := Fs.File "three" ]} ]}) None in
  let up s f := post_upload Scenario.cwd Scenario.dev Scenario.upload_directory 8 s "" f in
  (payload ∘ res <$> up start [mkUpfile "/tmp/1" "x.txt"; mkUpfile "/tmp/2" "x.txt";
                                 mkUpfile "/tmp/3" "x.txt"])
    = Some (Uploaded ["x.txt"; "x_1.txt"; "x_2.txt"]) ∧
  (o1 ← up start [mkUpfile "/tmp/1" "x.txt"];
   o2 ← up (post o1) [mkUpfile "/tmp/2" "x.txt"];
   o3 ← up (post o2) [mkUpfile "/tmp/3" "x.txt"];
   Some (payload (res o1), payload (res o2), payload (res o3),
         (λ n, Fs.find (tree (post o3)) ["srv"; "uploads"; n])
           <$> ["x.txt"; "x_1.txt"; "x_2.txt"]))
    = Some (Uploaded ["x.txt"], Uploaded ["x_1.txt"], Uploaded ["x_2.txt"],
            [Some (Fs.File "one"); Some (Fs.File "two"); Some (Fs.File "three")]).
Proof. vm_compute. split; reflexivity. Qed.

(** * Rename and undo *)

Section RenameUndo.

Variable cwd : string.
Variable dev : list string → nat.
Variable upload_directory : string.

(** A rename onto a free name is undone by the rename back. *)
Lemma renameSync_back (t t1 : Fs.node) (src dst : string) :
  Fs.existsSync cwd t dst = false →
  Fs.renameSync cwd dev t src dst = Fs.Ok t1 →
  Fs.existsSync cwd t src = true ∧
  Fs.existsSync cwd t1 dst = true ∧
  Fs.existsSync cwd t1 src = false ∧
  Fs.renameSync cwd dev t1 dst src = Fs.Ok t.
Proof.
  rewrite (existsSync_false cwd). unfold Fs.renameSync.
  set (a := Fs.locate cwd src). set (b := Fs.locate cwd dst).
  intros Hb Hren.
  destruct (Fs.find t a) as [x|] eqn:Ha; [|done].
  assert (a ≠ b) as Hab by (intros E; rewrite E in Ha; congruence).
  rewrite decide_False in Hren by done.
  destruct (decide (a = [])) as [|Hnil]; [done|].
  destruct (decide (dev a ≠ dev b)) as [|Hdev%dec_stable]; [done|].
  destruct (bool_decide (a `prefix_of` b)); [done|].
  rewrite Hb in Hren.
  destruct (Fs.insert_at (Fs.remove_at t a) b x) as [t'|] eqn:Hins; [|done].
  simplify_eq.
  assert (Fs.find (Fs.remove_at t a) b = None) as Hb'
    by by apply FsFacts.find_remove_at_None.
  assert (¬ b `prefix_of` a) as Hpre.
  { intros Hp. destruct (FsFacts.find_prefix _ _ _ _ Ha Hp). congruence. }
  assert (Fs.find t1 a = None) as Ha1.
  { eapply FsFacts.find_insert_at_None; [done..|].
    by apply FsFacts.find_remove_at. }
  assert (Fs.find t1 b = Some x) as Hb1 by by eapply FsFacts.find_insert_at.
  split; [apply (existsSync_true cwd); fold a; by rewrite Ha|].
  split; [apply (existsSync_true cwd); fold b; by rewrite Hb1|].
  split; [apply (existsSync_false cwd); by fold a|].
  rewrite Hb1, decide_False by done.
  assert (b ≠ []) as Hbnil by (intros E; by rewrite E in Hins).
  rewrite (decide_False (P := b = [])) by done.
  rewrite decide_False by (rewrite Hdev; tauto).
  rewrite bool_decide_eq_false_2 by done.
  rewrite Ha1.
  rewrite (FsFacts.remove_at_insert_at _ _ _ _ Hins Hb').
  by rewrite FsFacts.insert_at_remove_at.
Qed.

Abbreviation do_rename := (post_rename cwd dev upload_directory).
Abbreviation do_undo := (post_undo cwd dev).

(** What a successful rename request did. *)
Lemma post_rename_ok (s : state) (oldPath name : string) :
  status (res (do_rename s true oldPath name)) = 200 →
  ∃ old new t1,
    post (do_rename s true oldPath name) = mkState t1 (Some (OpRename old new)) ∧
    Fs.existsSync cwd (tree s) new = false ∧
    Fs.renameSync cwd dev (tree s) old new = Fs.Ok t1.
Proof.
  unfold post_rename. cbn [negb].
  repeat (case_match; try done).
  intros _. eexists _, _, _. split; [done|]. split; [|done].
  by destruct (Fs.existsSync _ _ _).
Qed.

(** Undo right after a successful rename puts the tree back. *)
Lemma undo_after_rename (s : state) (oldPath name : string) :
  let o := do_rename s true oldPath name in
  status (res o) = 200 →
  ∃ old new,
    lastOperation (post o) = Some (OpRename old new) ∧
    Fs.existsSync cwd (tree s) old = true ∧
    Fs.existsSync cwd (tree s) new = false ∧
    Fs.existsSync cwd (tree (post o)) new = true ∧
    Fs.existsSync cwd (tree (post o)) old = false ∧
    do_undo (post o) true =
      mkOutcome (mkResponse 200 Success) (mkState (tree s) None) [EmptyString].
Proof.
  intros o Hok. destruct (post_rename_ok s oldPath name Hok)
    as (old & new & t1 & Hpost & Hfree & Hren).
  destruct (renameSync_back _ _ _ _ Hfree Hren) as (Hwas & Hnew & Hold & Hback).
  exists old, new. subst o. rewrite Hpost. simpl.
  repeat split; [done..|].
  unfold post_undo. simpl. by rewrite Hnew, Hback.
Qed.

(** C6.  After a successful rename, an immediate undo succeeds and puts
    the tree back exactly as it was before the rename: the entry is at
    the old path again and nothing is at the new path.  When the state
    the rename started from was itself reached by a successful rename,
    that earlier rename stays in effect after the undo, and the slot is
    empty, so nothing more can be undone. *)
Theorem rename_undo_round_trip (s : state) (oldPath name : string) :
  let o := do_rename s true oldPath name in
  status (res o) = 200 →
  ∃ old new,
    lastOperation (post o) = Some (OpRename old new) ∧
    Fs.existsSync cwd (tree (post o)) new = true ∧
    Fs.existsSync cwd (tree (post o)) old = false ∧
    let u := do_undo (post o) true in
    status (res u) = 200 ∧
    tree (post u) = tree s ∧
    Fs.existsSync cwd (tree (post u)) old = true ∧
    Fs.existsSync cwd (tree (post u)) new = false ∧
    lastOperation (post u) = None ∧
    do_undo (post u) true = reject 400 "No operation to undo" (post u) ∧
    ∀ s0 oldPath0 name0,
      status (res (do_rename s0 true oldPath0 name0)) = 200 →
      s = post (do_rename s0 true oldPath0 name0) →
      ∃ old0 new0,
        lastOperation s = Some (OpRename old0 new0) ∧
        Fs.existsSync cwd (tree (post u)) new0 = true ∧
        Fs.existsSync cwd (tree (post u)) old0 = false.
Proof.
  intros o Hok.
  destruct (undo_after_rename s oldPath name Hok)
    as (old & new & Hslot & Hwas & Hfree & Hnew & Hold & Hundo).
  exists old, new. fold o in Hslot, Hnew, Hold, Hundo.
  rewrite Hundo. simpl. repeat split; try done.
  intros s0 oldPath0 name0 Hok0 ->.
  destruct (undo_after_rename s0 oldPath0 name0 Hok0)
    as (old0 & new0 & Hslot0 & _ & _ & Hnew0 & Hold0 & _).
  by exists old0, new0.
Qed.

End RenameUndo.

(** Two renames in a row, [a.txt] to [b.txt] to [c.txt], then one undo. *)
Lemma rename_undo_round_trip_witness :
  let s1 := post (post_rename Scenario.cwd Scenario.dev Scenario.upload_directory
                    Scenario.fresh true "a.txt" "b.txt") in
  let o := post_rename Scenario.cwd Scenario.dev Scenario.upload_directory
             s1 true "b.txt" " c.txt " in
  status (res o) = 200 ∧
  ∃ old new,
    lastOperation (post o) = Some (OpRename old new) ∧
    Fs.existsSync Scenario.cwd (tree (post o)) new = true ∧
    Fs.existsSync Scenario.cwd (tree (post o)) old = false ∧
    let u := post_undo Scenario.cwd Scenario.dev (post o) true in
    status (res u) = 200 ∧
    tree (post u) = tree s1 ∧
    Fs.existsSync Scenario.cwd (tree (post u)) old = true ∧
    Fs.existsSync Scenario.cwd (tree (post u)) new = false ∧
    lastOperation (post u) = None ∧
    post_undo Scenario.cwd Scenario.dev (post u) true
      = reject 400 "No operation to undo" (post u) ∧
    ∀ s0 oldPath0 name0,
      status (res (post_rename Scenario.cwd Scenario.dev Scenario.upload_directory
                     s0 true oldPath0 name0)) = 200 →
      s1 = post (post_rename Scenario.cwd Scenario.dev Scenario.upload_directory
                   s0 true oldPath0 name0) →
      ∃ old0 new0,
        lastOperation s1 = Some (OpRename old0 new0) ∧
        Fs.existsSync Scenario.cwd (tree (post u)) new0 = true ∧
        Fs.existsSync Scenario.cwd (tree (post u)) old0 = false.
Proof.
  intros s1 o. split; [vm_compute; reflexivity|].
  apply (rename_undo_round_trip Scenario.cwd Scenario.dev Scenario.upload_directory
           s1 "b.txt" " c.txt ").
  vm_compute. reflexivity.
Defined.

(** * Delete, undo and the slot *)

Section UndoSlot.

Variable cwd : string.
Variable dev : list string → nat.
Variable upload_directory : string.

Abbreviation do_delete := (post_delete cwd upload_directory).
Abbreviation undo_now := (post_undo cwd dev).

(** What a successful delete request left behind. *)
Lemma post_delete_ok (s : state) (itemPath : string) :
  status (res (do_delete s true itemPath)) = 200 →
  ∃ t,
    do_delete s true itemPath =
      mkOutcome (mkResponse 200 Success)
        (mkState t (Some (OpDelete (safeJoin cwd (BASE_DIR cwd upload_directory) itemPath))))
        [Path.dirname itemPath].
Proof.
  unfold post_delete, delete_failed. cbn [negb].
  repeat (case_match; try done); intros _; by eexists.
Qed.

(** C4, as the code has it.  A successful delete stores a delete record
    in the slot, whatever the slot held.  The record has no reversal: an
    immediate undo reports success, leaves the tree as the delete left
    it and empties the slot; only the undo after that one finds no
    operation. *)
Theorem delete_then_undo (s : state) (itemPath : string) :
  let o := do_delete s true itemPath in
  status (res o) = 200 →
  ∃ fullPath,
    lastOperation (post o) = Some (OpDelete fullPath) ∧
    let u := undo_now (post o) true in
    res u = mkResponse 200 Success ∧
    tree (post u) = tree (post o) ∧
    lastOperation (post u) = None ∧
    undo_now (post u) true = reject 400 "No operation to undo" (post u).
Proof.
  intros o Hok. destruct (post_delete_ok s itemPath Hok) as (t & Ho).
  subst o. rewrite Ho. simpl. by eexists.
Qed.

(** C5, as the code has it.  With a record in the slot, an undo whose
    reversal goes through empties the slot, and the next undo finds no
    operation; an undo whose reversal throws answers 500 with the
    error and leaves the record in the slot. *)
Theorem undo_clears_slot_on_success (s : state) (op : operation) :
  lastOperation s = Some op →
  let o := undo_now s true in
  match (revert_operation cwd dev (tree s) op).2 with
  | None =>
      res o = mkResponse 200 Success ∧
      lastOperation (post o) = None ∧
      undo_now (post o) true = reject 400 "No operation to undo" (post o)
  | Some e =>
      res o = mkResponse 500 (Error ("Failed to undo: " +:+ Fs.message e)) ∧
      lastOperation (post o) = Some op
  end.
Proof.
  intros Hop o. subst o.
  destruct (revert_operation cwd dev (tree s) op) as [t [e|]] eqn:Hrev;
    unfold post_undo; simpl; rewrite Hop, Hrev; done.
Qed.

End UndoSlot.

(** Deleting [a.txt] from the fresh installation. *)
Lemma delete_then_undo_witness :
  let o := post_delete Scenario.cwd Scenario.upload_directory Scenario.fresh true "a.txt" in
  status (res o) = 200 ∧
  ∃ fullPath,
    lastOperation (post o) = Some (OpDelete fullPath) ∧
    let u := post_undo Scenario.cwd Scenario.dev (post o) true in
    res u = mkResponse 200 Success ∧
    tree (post u) = tree (post o) ∧
    lastOperation (post u) = None ∧
    post_undo Scenario.cwd Scenario.dev (post u) true
      = reject 400 "No operation to undo" (post u).
Proof.
  intros o. split; [vm_compute; reflexivity|].
  apply (delete_then_undo Scenario.cwd Scenario.dev Scenario.upload_directory
           Scenario.fresh "a.txt").
  vm_compute. reflexivity.
Defined.

(** Deleting [a.txt] fills the empty slot, and the undo that follows
    reports success instead of finding no operation. *)
Lemma delete_fills_slot :
  let o := post_delete Scenario.cwd Scenario.upload_directory Scenario.fresh true "a.txt" in
  lastOperation Scenario.fresh = None ∧
  res o = mkResponse 200 Success ∧
  lastOperation (post o) = Some (OpDelete "/srv/uploads/a.txt") ∧
  res (post_undo Scenario.cwd Scenario.dev (post o) true) = mkResponse 200 Success ∧
  res (post_undo Scenario.cwd Scenario.dev (post o) true)
    ≠ mkResponse 400 (Error "No operation to undo").
Proof. vm_compute. repeat split; try reflexivity. discriminate. Qed.

(** Undoing the rename held by the stuck installation. *)
Lemma undo_clears_slot_on_success_witness :
  lastOperation Scenario.stuck
    = Some (OpRename "/srv/uploads/d" "/srv/uploads/a.txt") ∧
  let o := post_undo Scenario.cwd Scenario.dev Scenario.stuck true in
  match (revert_operation Scenario.cwd Scenario.dev (tree Scenario.stuck)
           (OpRename "/srv/uploads/d" "/srv/uploads/a.txt")).2 with
  | None =>
      res o = mkResponse 200 Success ∧
      lastOperation (post o) = None ∧
      post_undo Scenario.cwd Scenario.dev (post o) true
        = reject 400 "No operation to undo" (post o)
  | Some e =>
      res o = mkResponse 500 (Error ("Failed to undo: " +:+ Fs.message e)) ∧
      lastOperation (post o) = Some (OpRename "/srv/uploads/d" "/srv/uploads/a.txt")
  end.
Proof.
  split; [reflexivity|].
  apply (undo_clears_slot_on_success Scenario.cwd Scenario.dev Scenario.stuck).
  reflexivity.
Defined.

(** The reversal of the stuck rename throws; the slot keeps its record
    and a second undo runs into the same error instead of finding no
    operation. *)
Lemma failed_undo_keeps_slot :
  let o := post_undo Scenario.cwd Scenario.dev Scenario.stuck true in
  let o' := post_undo Scenario.cwd Scenario.dev (post o) true in
  status (res o) = 500 ∧
  lastOperation (post o) = Some (OpRename "/srv/uploads/d" "/srv/uploads/a.txt") ∧
  status (res o') = 500 ∧
  res o' ≠ mkResponse 400 (Error "No operation to undo").
Proof. vm_compute. repeat split; try reflexivity. discriminate. Qed.

(** * The sandbox check on concrete requests *)

(** C1.  The root is [/srv/uploads].  The client path climbs out of it
    with [..] into the sibling directory [/srv/uploads-old]; its canonical
    form is not under the root, yet the check accepts it, because the
    root is compared as a string prefix and not segment by segment. *)
Theorem sibling_directory_passes_sandbox :
  let root := BASE_DIR Scenario.cwd Scenario.upload_directory in
  let fullPath := safeJoin Scenario.cwd root "../uploads-old/secret.txt" in
  root = "/srv/uploads" ∧
  fullPath = "/srv/uploads-old/secret.txt" ∧
  Fs.locate Scenario.cwd fullPath = ["srv"; "uploads-old"; "secret.txt"] ∧
  ¬ Fs.locate Scenario.cwd root `prefix_of` Fs.locate Scenario.cwd fullPath ∧
  isSafePath Scenario.cwd fullPath root = true.
Proof.
  vm_compute. repeat split; try reflexivity.
  intros [k Hk]. discriminate Hk.
Qed.

(** C2.  The new name of a rename and the name of a new folder pass
    [isValidFileName] with [..] segments in them, and the paths built
    from them go to the filesystem unchecked: the rename moves [a.txt]
    out of the root, the folder is created outside it, and neither
    destination satisfies the sandbox predicate. *)
Theorem new_name_leaves_sandbox :
  let root := BASE_DIR Scenario.cwd Scenario.upload_directory in
  let r := post_rename Scenario.cwd Scenario.dev Scenario.upload_directory
             Scenario.fresh true "a.txt" "../moved.txt" in
  let c := post_create_folder Scenario.cwd Scenario.upload_directory
             Scenario.fresh true "" "../../etc" in
  (res r = mkResponse 200 Success ∧
   lastOperation (post r) = Some (OpRename "/srv/uploads/a.txt" "/srv/moved.txt") ∧
   Fs.find (tree (post r)) ["srv"; "moved.txt"] = Some (Fs.File "alpha") ∧
   isSafePath Scenario.cwd "/srv/moved.txt" root = false) ∧
  (res c = mkResponse 200 Success ∧
   lastOperation (post c) = Some (OpCreateFolder "/etc") ∧
   Fs.find (tree (post c)) ["etc"] = Some (Fs.Dir ∅) ∧
   Fs.find (tree Scenario.fresh) ["etc"] = None ∧
   isSafePath Scenario.cwd "/etc" root = false).
Proof. vm_compute. repeat split; reflexivity. Qed.

(** C9.  The undo route and the upload route put [e.message] into the
    response as it is: the caller reads the error code and the absolute
    paths of both ends of the failed rename. *)
Theorem raw_error_reaches_caller :
  let u := post_undo Scenario.cwd Scenario.dev Scenario.stuck true in
  let up := post_upload Scenario.cwd Scenario.dev Scenario.upload_directory 8
              Scenario.fresh "" [mkUpfile "/tmp/9-y.txt" "y.txt"] in
  res u = mkResponse 500 (Error
    "Failed to undo: EISDIR: illegal operation on a directory, rename '/srv/uploads/a.txt' -> '/srv/uploads/d'") ∧
  res <$> up = Some (mkResponse 500 (Error
    "Failed to save y.txt: ENOENT: no such file or directory, rename '/tmp/9-y.txt' -> '/srv/uploads/y.txt'")) ∧
  Sanitize.sanitizeError
    "Failed to undo: EISDIR: illegal operation on a directory, rename '/srv/uploads/a.txt' -> '/srv/uploads/d'"
  = "Failed to undo: EISDIR: illegal operation on a directory, rename '[file path]".
Proof. vm_compute. repeat split; reflexivity. Qed.

(** * Debounced and immediate broadcasts *)

Section Broadcast.
Import Loop.

Lemma run_app (w : world) (l1 l2 : list input) :
  run w (l1 ++ l2) = run (run w l1) l2.
Proof. apply fold_left_app. Qed.

(** While every gap stays under 500 ms the timer is re-armed before it
    fires: nothing is delivered, and the timer waits for the last
    callback. *)
Lemma run_burst (rest : list (nat * option string)) (w : world) (f0 : option string) :
  fsWatchDebounce w = Some ((now w + 500)%nat, f0) →
  Forall (λ gf, (gf.1 < 500)%nat) rest →
  delivered (run w (burst rest)) = delivered w ∧
  now (run w (burst rest)) = (now w + burst_span rest)%nat ∧
  fsWatchDebounce (run w (burst rest))
    = Some ((now w + burst_span rest + 500)%nat, burst_last f0 rest).
Proof.
  revert w f0. induction rest as [|[g f] rest IH]; intros w f0 Hw Hgaps.
  { unfold burst_span. simpl. rewrite Nat.add_0_r. done. }
  apply Forall_cons in Hgaps as [Hg Hgaps]. simpl in Hg.
  change (burst ((g, f) :: rest)) with ([Elapse g; WatchCallback f] ++ burst rest).
  rewrite run_app.
  set (w1 := run w [Elapse g; WatchCallback f]).
  assert (w1 = mkWorld (now w + g) (Some ((now w + g + 500)%nat, f)) (delivered w)) as Hw1.
  { unfold w1. simpl. rewrite Hw.
    destruct (Nat.leb_spec (now w + 500) (now w + g)); [lia|done]. }
  destruct (IH w1 f) as (Hd & Hn & Ht); [by rewrite Hw1|done|].
  assert (burst_span ((g, f) :: rest) = (g + burst_span rest)%nat) as -> by done.
  assert (burst_last f0 ((g, f) :: rest) = burst_last f rest) as ->.
  { unfold burst_last. destruct rest as [|gf rest']; [done|].
    rewrite last_cons_cons.
    destruct (last (gf :: rest')) as [x|] eqn:E; [done|].
    by apply last_None in E. }
  rewrite Hd, Hn, Ht, Hw1. simpl.
  split_and!; [done|lia|]. do 2 f_equal. lia.
Qed.

(** Every emit of a route or of the sweep is delivered at once. *)
Lemma run_emits (w : world) (reqs : list (list string)) :
  delivered (run w (Emits <$> reqs)) = delivered w ++ ((λ p, (now w, p)) <$> concat reqs) ∧
  now (run w (Emits <$> reqs)) = now w.
Proof.
  revert w. induction reqs as [|ps reqs IH]; intros w.
  { simpl. by rewrite app_nil_r. }
  destruct (IH (step w (Emits ps))) as [Hd Hn].
  change (run w (Emits <$> ps :: reqs))
    with (run (step w (Emits ps)) (Emits <$> reqs)).
  rewrite Hd, Hn. simpl. by rewrite fmap_app, app_assoc.
Qed.

(** C8, as the code has it.  A burst of watcher callbacks in which each
    comes less than 500 ms after the one before yields exactly one
    broadcast, 500 ms after the last callback, for the path of the last
    callback.  The emits of the routes (and of the sweep) do not go
    through the timer: each is delivered the moment it is made, one
    delivery per emit. *)
Theorem watcher_burst_one_broadcast (w : world) (f0 : option string)
    (rest : list (nat * option string)) (d : nat) (reqs : list (list string)) :
  Forall (λ gf, (gf.1 < 500)%nat) rest →
  (500 ≤ d)%nat →
  delivered (run w (WatchCallback f0 :: burst rest ++ [Elapse d]))
    = delivered w ++ [((now w + burst_span rest + 500)%nat, watch_path (burst_last f0 rest))]
  ∧ fsWatchDebounce (run w (WatchCallback f0 :: burst rest ++ [Elapse d])) = None
  ∧ delivered (run w (Emits <$> reqs))
    = delivered w ++ ((λ p, (now w, p)) <$> concat reqs).
Proof.
  intros Hgaps Hd. split_and!; [| |apply run_emits].
  all: change (WatchCallback f0 :: burst rest ++ [Elapse d])
         with ([WatchCallback f0] ++ burst rest ++ [Elapse d]);
       rewrite !run_app;
       destruct (run_burst rest (run w [WatchCallback f0]) f0) as (Hdl & Hn & Ht);
         [done..|];
       simpl in *; rewrite Ht, Hdl, Hn;
       destruct (Nat.leb_spec (now w + burst_span rest + 500) (now w + burst_span rest + d));
         [done|lia].
Qed.

End Broadcast.

(** Fifty watcher callbacks, 10 ms apart, then a quiet second. *)
Lemma watcher_burst_one_broadcast_witness :
  let rest := replicate 49 (10%nat, Some "docs/a.txt") in
  Forall (λ gf, (gf.1 < 500)%nat) rest ∧
  (500 ≤ 1000)%nat ∧
  length (Loop.WatchCallback (Some "docs/a.txt") :: Loop.burst rest) = 99%nat ∧
  Loop.delivered
    (Loop.run Loop.start
       (Loop.WatchCallback (Some "docs/a.txt") :: Loop.burst rest ++ [Loop.Elapse 1000]))
    = [(990%nat, "docs")].
Proof.
  intros rest.
  pose proof (watcher_burst_one_broadcast Loop.start (Some "docs/a.txt") rest 1000 []) as H.
  assert (Forall (λ gf, (gf.1 < 500)%nat) rest) as Hgaps.
  { apply Forall_replicate. simpl. lia. }
  split; [exact Hgaps|]. split; [lia|]. split; [reflexivity|].
  destruct (H Hgaps ltac:(lia)) as (Hd & _ & _).
  rewrite Hd. vm_compute. reflexivity.
Defined.

(** Fifty uploads in a row, 1 ms apart: fifty broadcasts, none waits
    for a timer. *)
Lemma route_emits_not_debounced :
  let up := post_upload Scenario.cwd Scenario.dev Scenario.upload_directory 8
              Scenario.fresh "" [] in
  let requests := replicate 50 (default [] (emitted <$> up)) in
  let inputs := (requests ≫= λ ps, [Loop.Emits ps; Loop.Elapse 1]) ++ [Loop.Elapse 1000] in
  (res <$> up) = Some (mkResponse 200 (Uploaded [])) ∧
  length (Loop.delivered (Loop.run Loop.start inputs)) = 50%nat ∧
  Loop.delivered (Loop.run Loop.start inputs) = (λ i, (i, EmptyString)) <$> seq 0 50.
Proof. vm_compute. repeat split; reflexivity. Qed.

(** * Hidden entries *)

Section Hidden.

Variable cwd : string.
Variable dev : list string → nat.
Variable upload_directory : string.
Variable enable_api_restrictions : bool.
Variable mime_lookup : string → option string.
Variable mtimeMs : string → Z.
Variable localeCompare : string → string → Z.

Lemma insert_sorted_perm {A : Type} (cmp : A → A → Z) (x : A) (l : list A) :
  insert_sorted cmp x l ≡ₚ x :: l.
Proof.
  induction l as [|y l IH]; [done|]. simpl.
  destruct (cmp x y <=? 0)%Z; [done|]. rewrite IH. apply Permutation_swap.
Qed.

(** Sorting rearranges and nothing else. *)
Lemma sort_perm {A : Type} (cmp : A → A → Z) (l : list A) : sort cmp l ≡ₚ l.
Proof.
  induction l as [|x l IH]; [done|]. simpl.
  by rewrite insert_sorted_perm, IH.
Qed.

Lemma hidden_not_listed (searchQuery entry : string) :
  isHidden entry false = true → listed searchQuery entry = false.
Proof. unfold listed. intros ->. apply andb_false_r. Qed.

(** Over the names of a directory the loop does not throw, and it keeps
    exactly the names that pass the search and the hidden-file policy. *)
Lemma collect_names (t : Fs.node) (fullPath currentPath searchQuery : string)
    (m : gmap string Fs.node) (files : list string) :
  Path.isAbsolute fullPath = true →
  Fs.find t (Fs.locate cwd fullPath) = Some (Fs.Dir m) →
  Forall (λ e, Path.is_name e = true ∧ is_Some (m !! e)) files →
  ∃ items,
    collect cwd mtimeMs t fullPath currentPath searchQuery files = Fs.Ok items ∧
    item_name <$> items = filter (λ e, listed searchQuery e = true) files.
Proof.
  intros Habs Hdir. induction files as [|e files IH]; intros Hfiles.
  { by exists []. }
  apply Forall_cons in Hfiles as [[He [n Hn]] Hfiles].
  destruct (IH Hfiles) as (items & Hitems & Hnames).
  cbn [collect]. unfold listed at 1.  rewrite filter_cons. unfold listed at 1.
  destruct (negb (bool_decide (searchQuery = EmptyString))
            && negb (Js.includes (Js.toLowerCase e) (Js.toLowerCase searchQuery))).
  { rewrite decide_False by done. by exists items. }
  unfold Fs.stat. rewrite (exists_entry cwd t fullPath e m Habs He Hdir), Hn.
  destruct (isHidden e false).
  { rewrite decide_False by done. by exists items. }
  rewrite Hitems, decide_True by done.
  eexists. split; [done|]. rewrite fmap_cons. cbn [item_name]. by f_equal.
Qed.

(** The items of a well-formed directory. *)
Lemma list_items_dir (t : Fs.node) (fullPath currentPath searchQuery : string)
    (m : gmap string Fs.node) :
  Path.isAbsolute fullPath = true →
  Fs.wf t = true →
  Fs.find t (Fs.locate cwd fullPath) = Some (Fs.Dir m) →
  ∃ items,
    list_items cwd mtimeMs t fullPath currentPath searchQuery = Fs.Ok items ∧
    item_name <$> items = filter (λ e, listed searchQuery e = true) (map_to_list m).*1.
Proof.
  intros Habs Hwf Hdir. unfold list_items, Fs.stat, Fs.readdirSync. rewrite Hdir.
  assert (Fs.wf (Fs.Dir m) = true) as Hm by by eapply FsFacts.wf_find.
  rewrite <- list_fmap_compose.
  rewrite (list_fmap_ext (fst ∘ prod_map id Fs.is_dir) fst (map_to_list m))
    by by intros ? [].
  apply (collect_names t fullPath currentPath searchQuery m); [done..|].
  apply Forall_forall. intros e [[k n] [-> Hin]]%list_elem_of_fmap.
  apply elem_of_map_to_list in Hin. simpl. split; [|by eexists].
  by eapply (proj1 (FsFacts.wf_dir m)).
Qed.

End Hidden.

(** C10, at the entry the code gets wrong.  The fresh installation has
    the regular file [.secret] in its root.  Both listings leave it out
    and show [d], [a.txt] and [x.txt]; preview returns its content, delete
    removes it and rename moves it; the download route, which serves
    [a.txt], answers 404 for [.secret] under either generation of
    [send]. *)
Theorem hidden_file_download_refused (legacy : bool) :
  let names o := match payload (res o) with Files l => item_name <$> l | _ => [] end in
  names (get_index Scenario.cwd Scenario.upload_directory Scenario.mtimeMs
           Scenario.localeCompare Scenario.fresh "" "" "" "")
    = ["d"; "a.txt"; "x.txt"] ∧
  names (get_api_files Scenario.cwd Scenario.upload_directory Scenario.mtimeMs
           Scenario.fresh "" 0)
    = ["d"; "a.txt"; "x.txt"] ∧
  res (get_download Scenario.cwd Scenario.upload_directory true legacy Scenario.fresh
         None "host" ".secret")
    = mkResponse 404 ErrorPage ∧
  res (get_download Scenario.cwd Scenario.upload_directory true legacy Scenario.fresh
         None "host" "a.txt")
    = mkResponse 200 (Download "/srv/uploads/a.txt") ∧
  res (get_preview Scenario.cwd Scenario.upload_directory true Scenario.mime_lookup
         Scenario.fresh None "host" ".secret")
    = mkResponse 200 (Content "hidden") ∧
  Fs.find (tree (post (post_delete Scenario.cwd Scenario.upload_directory
                         Scenario.fresh true ".secret")))
    ["srv"; "uploads"; ".secret"] = None ∧
  Fs.find (tree (post (post_rename Scenario.cwd Scenario.dev Scenario.upload_directory
                         Scenario.fresh true ".secret" ".seen")))
    ["srv"; "uploads"; ".seen"] = Some (Fs.File "hidden").
Proof. destruct legacy; vm_compute; repeat split; reflexivity. Qed.

(** * The polling sweep *)

Section Poll.

Variable cwd : string.
Variable upload_directory : string.
Variable mtimeMs : string → Z.
Variable t : Fs.node.

Abbreviation walk_from := (walk cwd upload_directory mtimeMs).
Abbreviation current := (agrees mtimeMs).
Abbreviation weight := (sum_list_with (dir_weight cwd t)).

(** Against a map of current times the walk emits nothing. *)
Lemma walk_silent (fuel : nat) (lastMtimes : gmap string Z) (dirs : list string)
    (newMtimes : gmap string Z) (events : list string) (r : sweep) :
  current lastMtimes →
  walk_from fuel t lastMtimes dirs newMtimes events = Some r →
  sweep_events r = events.
Proof.
  intros Hlast. revert dirs newMtimes events.
  induction fuel as [|fuel IH]; intros dirs newMtimes events Hwalk.
  { destruct dirs; by simplify_eq/=. }
  destruct dirs as [|dir dirs]; [by simplify_eq/=|].
  cbn [walk] in Hwalk.
  destruct (Fs.readdirSync cwd t dir) as [entries|e]; [|by simplify_eq/=].
  apply IH in Hwalk. rewrite Hwalk.
  destruct (lastMtimes !! dir) as [old|] eqn:Hold; [|done].
  apply Hlast in Hold. by rewrite decide_False by tauto.
Qed.

(** The map a completed walk builds holds current times. *)
Lemma walk_current (fuel : nat) (lastMtimes : gmap string Z) (dirs : list string)
    (newMtimes newMtimes' : gmap string Z) (events events' : list string) :
  current newMtimes →
  walk_from fuel t lastMtimes dirs newMtimes events = Some (Swept newMtimes' events') →
  current newMtimes'.
Proof.
  revert dirs newMtimes events.
  induction fuel as [|fuel IH]; intros dirs newMtimes events Hnew Hwalk.
  { destruct dirs; by simplify_eq/=. }
  destruct dirs as [|dir dirs]; [by simplify_eq/=|].
  cbn [walk] in Hwalk.
  destruct (Fs.readdirSync cwd t dir) as [entries|e]; [|by simplify_eq/=].
  eapply IH; [|done].
  intros d old [[-> <-]|[_ Hd]]%lookup_insert_Some; [done|by apply Hnew].
Qed.

(** Where the walk goes and what it records does not depend on the
    previous map or on the events so far. *)
Lemma walk_route (fuel : nat) (last1 last2 : gmap string Z) (dirs : list string)
    (newMtimes : gmap string Z) (ev1 ev2 : list string) (newMtimes' : gmap string Z)
    (ev1' : list string) :
  walk_from fuel t last1 dirs newMtimes ev1 = Some (Swept newMtimes' ev1') →
  ∃ ev2', walk_from fuel t last2 dirs newMtimes ev2 = Some (Swept newMtimes' ev2').
Proof.
  revert dirs newMtimes ev1 ev2.
  induction fuel as [|fuel IH]; intros dirs newMtimes ev1 ev2 Hwalk.
  { destruct dirs; simplify_eq/=. by eexists. }
  destruct dirs as [|dir dirs]; [simplify_eq/=; by eexists|].
  cbn [walk] in Hwalk |- *.
  destruct (Fs.readdirSync cwd t dir) as [entries|e]; [|by simplify_eq/=].
  by eapply IH.
Qed.

(** The subdirectories pushed for a walkable directory are walkable, and
    weigh less than the directory itself. *)
Lemma subdirs_walkable (dir : string) (m : gmap string Fs.node)
    (l : list (string * Fs.node)) :
  Path.isAbsolute dir = true →
  Fs.find t (Fs.locate cwd dir) = Some (Fs.Dir m) →
  Fs.wf (Fs.Dir m) = true →
  (∀ k c, (k, c) ∈ l → m !! k = Some c) →
  let subdirs := (λ e : string * bool, Path.join dir e.1)
                   <$> filter (λ e, e.2 = true) (prod_map id Fs.is_dir <$> l) in
  Forall (walkable cwd t) subdirs ∧
  weight subdirs ≤ sum_list_with (λ kc, Fs.count_dirs kc.2) l.
Proof.
  intros Habs Hdir Hwf. induction l as [|[k c] l IH]; intros Hl; [done|].
  destruct IH as [IHw IHn]. { intros k' c' Hin. apply Hl. by right. }
  assert (m !! k = Some c) as Hk by (apply Hl; by left).
  destruct (proj1 (FsFacts.wf_dir m) Hwf k c Hk) as [Hname Hc].
  cbn [fmap list_fmap prod_map fst snd id]. rewrite filter_cons.
  cbn [snd]. destruct c as [data|m']; cbn [Fs.is_dir].
  - rewrite decide_False by done. split; [done|]. simpl in *. lia.
  - rewrite decide_True by done. rewrite fmap_cons. cbn [fst].
    assert (Fs.find t (Fs.locate cwd (Path.join dir k)) = Some (Fs.Dir m')) as Hsub.
    { rewrite (exists_entry cwd t dir k m); done. }
    split.
    + constructor; [|done]. split; [by apply PathFacts.isAbsolute_join|].
      by exists m'.
    + cbn [sum_list_with snd]. unfold dir_weight at 1. rewrite Hsub.
      apply Nat.add_le_mono_l. exact IHn.
Qed.

(** With fuel for every directory still to visit, the walk of walkable
    directories completes. *)
Lemma walk_completes (fuel : nat) (lastMtimes : gmap string Z) (dirs : list string)
    (newMtimes : gmap string Z) (events : list string) :
  Forall (walkable cwd t) dirs →
  weight dirs ≤ fuel →
  ∃ newMtimes' events',
    walk_from fuel t lastMtimes dirs newMtimes events = Some (Swept newMtimes' events').
Proof.
  revert dirs newMtimes events.
  induction fuel as [|fuel IH]; intros dirs newMtimes events Hdirs Hfuel.
  - destruct dirs as [|dir dirs]; [by eexists _, _|].
    apply Forall_cons in Hdirs as [(_ & m & Hm & _) _].
    simpl in Hfuel. unfold dir_weight in Hfuel. rewrite Hm in Hfuel.
    rewrite FsFacts.count_dirs_dir in Hfuel. lia.
  - destruct dirs as [|dir dirs]; [by eexists _, _|].
    apply Forall_cons in Hdirs as [(Habs & m & Hm & Hwf) Hdirs].
    cbn [walk]. unfold Fs.readdirSync. rewrite Hm.
    destruct (subdirs_walkable dir m (map_to_list m) Habs Hm Hwf) as [Hsub Hless].
    { intros k c. apply elem_of_map_to_list. }
    apply IH.
    + apply Forall_app. split; [|done]. by apply Forall_rev.
    + rewrite sum_list_with_app.
      rewrite <- (sum_list_with_Permutation_proper _ _ _ (Permutation_rev _)).
      simpl in Hfuel. unfold dir_weight at 1 in Hfuel. rewrite Hm in Hfuel.
      rewrite FsFacts.count_dirs_dir in Hfuel. lia.
Qed.

(** A walk that runs to its end: the directories it visited, in order. *)
Lemma walk_visits (fuel : nat) (lastMtimes : gmap string Z) (dirs : list string)
    (newMtimes newMtimes' : gmap string Z) (events events' : list string) :
  walk cwd upload_directory mtimeMs fuel t lastMtimes dirs newMtimes events
    = Some (Swept newMtimes' events') →
  ∃ visited,
    events' = events ++ omap (reported cwd upload_directory mtimeMs lastMtimes) visited ∧
    (∀ d, newMtimes' !! d
          = if decide (d ∈ visited) then Some (mtimeMs d) else newMtimes !! d) ∧
    dirs ⊆ visited ∧
    (∀ d, d ∈ visited →
       ∃ entries, Fs.readdirSync cwd t d = Fs.Ok entries ∧
         ∀ e, e ∈ entries → e.2 = true → Path.join d e.1 ∈ visited) ∧
    (∀ d, d ∈ visited →
       d ∈ dirs ∨
       ∃ p entries e, p ∈ visited ∧ Fs.readdirSync cwd t p = Fs.Ok entries ∧
         e ∈ entries ∧ e.2 = true ∧ d = Path.join p e.1).
Proof.
  revert dirs newMtimes events.
  induction fuel as [|fuel IH]; intros dirs newMtimes events Hwalk.
  { destruct dirs; simplify_eq/=. exists []. rewrite app_nil_r.
    split_and!; [done..| |]; by intros d ?%elem_of_nil. }
  destruct dirs as [|dir dirs].
  { simplify_eq/=. exists []. rewrite app_nil_r.
    split_and!; [done..| |]; by intros d ?%elem_of_nil. }
  cbn [walk] in Hwalk.
  destruct (Fs.readdirSync cwd t dir) as [entries|e] eqn:Hread; [|by simplify_eq/=].
  apply IH in Hwalk as (visited & Hev & Hnew & Hsub & Hclosed & Hreach).
  set (subdirs := (λ e : string * bool, Path.join dir e.1)
                    <$> filter (λ e, e.2 = true) entries) in *.
  assert (∀ e, e ∈ entries → e.2 = true → Path.join dir e.1 ∈ rev subdirs ++ dirs)
    as Hpushed.
  { intros e He Hdir. apply elem_of_app. left.
    apply list_elem_of_In, (proj1 (in_rev subdirs _)), list_elem_of_In.
    apply (list_elem_of_fmap_2 (λ e : string * bool, Path.join dir e.1)).
    by apply list_elem_of_filter. }
  exists (dir :: visited). split_and!.
  - rewrite Hev. cbn [omap list_omap]. unfold reported at 2.
    destruct (lastMtimes !! dir) as [old|]; [|done].
    destruct (decide (old ≠ mtimeMs dir)); [|done].
    by rewrite <- app_assoc.
  - intros d. rewrite Hnew.
    destruct (decide (d ∈ visited)) as [Hin|Hout].
    + rewrite decide_True; [done|by right].
    + destruct (decide (d = dir)) as [->|Hne].
      * rewrite lookup_insert_eq, decide_True; [done|by left].
      * rewrite lookup_insert_ne by done.
        rewrite decide_False; [done|]. by intros [?|?]%elem_of_cons.
  - intros d [->|Hd]%elem_of_cons; [by left|].
    right. apply Hsub, elem_of_app. by right.
  - intros d [->|Hd]%elem_of_cons.
    + exists entries. split; [done|]. intros e He Hdir. right.
      by apply Hsub, Hpushed.
    + destruct (Hclosed d Hd) as (entries' & Hread' & Hsubs).
      exists entries'. split; [done|]. intros e He Hdir. right. by apply Hsubs.
  - intros d [->|Hd]%elem_of_cons; [left; by left|].
    destruct (Hreach d Hd) as [[Hpush|Hrest]%elem_of_app|(p & entries' & e & Hp & ?)].
    + right. exists dir, entries.
      apply list_elem_of_In, (proj2 (in_rev subdirs d)), list_elem_of_In in Hpush.
      apply list_elem_of_fmap in Hpush as (e & -> & [He Hin]%list_elem_of_filter).
      exists e. split; [by left|done].
    + left. by right.
    + right. exists p, entries', e. split; [by right|done].
Qed.

(** C7.  On a well-formed tree a sweep with fuel for the directories
    under the root completes.  The sweep started from the empty map, as at
    startup, emits nothing and returns the baseline: the map that holds,
    for the root and for every directory reached from it through
    subdirectories, the current modification time of that directory, and
    nothing else.  Started from any map, the sweep returns a map from
    which a second sweep of the same tree emits nothing and returns the
    same map again; when the root directory exists that map is the
    baseline.  Without a root directory nothing is visited and the sweep
    keeps the map it was given. *)
Theorem second_sweep_is_silent (lastMtimes : gmap string Z) :
  let base := BASE_DIR cwd upload_directory in
  Path.isAbsolute cwd = true →
  Fs.wf t = true →
  ∃ n, ∀ fuel, n ≤ fuel →
    ∃ (visited : list string) baseline recorded events,
      (base ∈ visited ↔ ∃ m, Fs.find t (Fs.locate cwd base) = Some (Fs.Dir m)) ∧
      (∀ d, d ∈ visited →
         ∃ m, Fs.find t (Fs.locate cwd d) = Some (Fs.Dir m) ∧
           ∀ k m', m !! k = Some (Fs.Dir m') → Path.join d k ∈ visited) ∧
      (∀ d, baseline !! d = if decide (d ∈ visited) then Some (mtimeMs d) else None) ∧
      pollForChanges cwd upload_directory mtimeMs fuel t ∅ = Some (baseline, []) ∧
      pollForChanges cwd upload_directory mtimeMs fuel t lastMtimes
        = Some (recorded, events) ∧
      (base ∈ visited → recorded = baseline) ∧
      pollForChanges cwd upload_directory mtimeMs fuel t recorded = Some (recorded, []).
Proof.
  intros base Hcwd Hwf.
  assert (Path.isAbsolute base = true) as Habs
    by by apply PathFacts.isAbsolute_resolve.
  exists (S (dir_weight cwd t base)). intros fuel Hfuel.
  assert (current (∅ : gmap string Z)) as Hempty by (by intros d old).
  unfold pollForChanges. fold base.
  assert ((∃ m, Fs.find t (Fs.locate cwd base) = Some (Fs.Dir m))
          ∨ ¬ (∃ m, Fs.find t (Fs.locate cwd base) = Some (Fs.Dir m)))
    as [[m Hfind]|Hno].
  { destruct (Fs.find t (Fs.locate cwd base)) as [[c|m]|];
      [right; by intros [? ?]|left; by exists m|right; by intros [? ?]]. }
  - assert (walkable cwd t base) as Hbase.
    { split; [done|]. exists m. split; [done|]. by eapply FsFacts.wf_find. }
    destruct (walk_completes fuel lastMtimes [base] ∅ []) as (rec & ev & Hwalk).
    { by constructor. }
    { simpl. lia. }
    assert (current rec) as Hrec by by eapply walk_current.
    destruct (walk_route _ _ ∅ _ _ _ [] _ _ Hwalk) as (ev0 & Hwalk0).
    destruct (walk_route _ _ rec _ _ _ [] _ _ Hwalk) as (ev1 & Hwalk1).
    pose proof (walk_silent _ _ _ _ _ _ Hempty Hwalk0) as E0.
    pose proof (walk_silent _ _ _ _ _ _ Hrec Hwalk1) as E1.
    simpl in E0, E1. subst ev0 ev1.
    destruct (walk_visits _ _ _ _ _ _ _ Hwalk0)
      as (visited & _ & Hnew & Hsub & Hclosed & _).
    exists visited, rec, rec, ev. rewrite Hwalk0, Hwalk, Hwalk1.
    split; [|split; [|split; [|split; [done|split; [done|split; [|done]]]]]].
    + split; [by exists m|]. intros _. apply Hsub. by left.
    + intros d Hd. destruct (Hclosed d Hd) as (entries & Hread & Hsubs).
      unfold Fs.readdirSync in Hread.
      destruct (Fs.find t (Fs.locate cwd d)) as [[c|m1]|]; [done| |done].
      injection Hread as <-. exists m1. split; [done|]. intros k m' Hk.
      apply (Hsubs (k, true)); [|done].
      apply (list_elem_of_fmap_2' (prod_map id Fs.is_dir) _ (k, Fs.Dir m')); [|done].
      by apply elem_of_map_to_list.
    + intros d. rewrite Hnew. by rewrite lookup_empty.
    + done.
  - assert (∀ last, walk_from fuel t last [base] ∅ [] = Some (Aborted [])) as Hab.
    { intros last. destruct fuel as [|fuel]; [lia|]. cbn [walk].
      unfold Fs.readdirSync.
      destruct (Fs.find t (Fs.locate cwd base)) as [[c|m]|]; [done| |done].
      exfalso. apply Hno. by exists m. }
    exists [], ∅, lastMtimes, []. rewrite !Hab.
    split; [|split; [|split; [|split; [done|split; [done|split; [|done]]]]]].
    + split; [by intros ?%elem_of_nil|done].
    + by intros d ?%elem_of_nil.
    + intros d. rewrite lookup_empty. by rewrite decide_False by apply not_elem_of_nil.
    + by intros ?%elem_of_nil.
Qed.

End Poll.

(** The fresh installation, swept from a map with one stale time.  Its
    baseline holds the root and the directory [d] with their times. *)
Lemma second_sweep_is_silent_witness :
  let base := BASE_DIR Scenario.cwd Scenario.upload_directory in
  let poll := pollForChanges Scenario.cwd Scenario.upload_directory Scenario.mtimeMs in
  Path.isAbsolute Scenario.cwd = true ∧
  Fs.wf Scenario.disk = true ∧
  (∃ m, Fs.find Scenario.disk (Fs.locate Scenario.cwd base) = Some (Fs.Dir m)) ∧
  poll 4 Scenario.disk ∅
    = Some ({[ "/srv/uploads" := 12%Z; "/srv/uploads/d" := 14%Z ]}, []) ∧
  poll 4 Scenario.disk Scenario.lastMtimes
    = Some ({[ "/srv/uploads" := 12%Z; "/srv/uploads/d" := 14%Z ]}, [""]) ∧
  ∃ n, ∀ fuel, n ≤ fuel →
    ∃ (visited : list string) baseline recorded events,
      (base ∈ visited
       ↔ ∃ m, Fs.find Scenario.disk (Fs.locate Scenario.cwd base) = Some (Fs.Dir m)) ∧
      (∀ d, d ∈ visited →
         ∃ m, Fs.find Scenario.disk (Fs.locate Scenario.cwd d) = Some (Fs.Dir m) ∧
           ∀ k m', m !! k = Some (Fs.Dir m') → Path.join d k ∈ visited) ∧
      (∀ d, baseline !! d
            = if decide (d ∈ visited) then Some (Scenario.mtimeMs d) else None) ∧
      poll fuel Scenario.disk ∅ = Some (baseline, []) ∧
      poll fuel Scenario.disk Scenario.lastMtimes = Some (recorded, events) ∧
      (base ∈ visited → recorded = baseline) ∧
      poll fuel Scenario.disk recorded = Some (recorded, []).
Proof.
  intros base poll.
  split; [reflexivity|]. split; [vm_compute; reflexivity|].
  split; [eexists; vm_compute; reflexivity|].
  split; [vm_compute; reflexivity|]. split; [vm_compute; reflexivity|].
  apply (second_sweep_is_silent Scenario.cwd Scenario.upload_directory Scenario.mtimeMs
           Scenario.disk Scenario.lastMtimes);
    [reflexivity|vm_compute; reflexivity].
Defined.

(** The same sweeps, run: the startup sweep is silent; the sweep from
    the stale map reports the root once, and the sweep after it nothing. *)
Lemma sweeps_of_the_fresh_installation :
  let poll := pollForChanges Scenario.cwd Scenario.upload_directory Scenario.mtimeMs
                4 Scenario.disk in
  snd <$> poll ∅ = Some [] ∧
  snd <$> poll Scenario.lastMtimes = Some [""] ∧
  (r ← poll Scenario.lastMtimes; snd <$> poll r.1) = Some [] ∧
  (poll ∅ ≫= λ r, Some (r.1 !! "/srv/uploads", r.1 !! "/srv/uploads/d", size r.1))
    = Some (Some 12%Z, Some 14%Z, 2).
Proof. vm_compute. repeat split; reflexivity. Qed.

(** * What the sandbox check accepts *)

Module SandboxFacts.
Import Path PathFacts.

Lemma prefix_app (a b : string) : String.prefix a (a +:+ b) = true.
Proof.
  induction a as [|c a IH]; [by destruct b|].
  rewrite app_cons. simpl. by destruct (ascii_dec c c).
Qed.

Lemma prefix_refl (a : string) : String.prefix a a = true.
Proof. induction a as [|c a IH]; [done|]. simpl. by destruct (ascii_dec c c). Qed.

Lemma join_segs_app (l k : list string) :
  l ≠ [] → k ≠ [] →
  join_segs (l ++ k) = join_segs l +:+ String slash (join_segs k).
Proof.
  intros Hl Hk. induction l as [|x l IH]; [done|].
  destruct l as [|y l].
  - destruct k; [done|]. done.
  - change ((x :: y :: l) ++ k) with (x :: y :: (l ++ k)).
    rewrite !join_segs_cons. change (y :: l ++ k) with ((y :: l) ++ k).
    rewrite IH by done. by rewrite app_assoc_str.
Qed.

(** A trailing separator does not change where a path leads. *)
Lemma normalize_segs_trailing (b : bool) (p : string) :
  normalize_segs b (p +:+ "/") = normalize_segs b p.
Proof.
  unfold normalize_segs.
  change (p +:+ "/") with (p +:+ String slash EmptyString).
  by rewrite split_app, fold_left_app.
Qed.

(** [path.resolve] of an absolute path renders the place it leads to. *)
Lemma resolve_absolute (cwd p : string) :
  isAbsolute p = true →
  resolve cwd p = String slash (join_segs (normalize_segs false p)).
Proof.
  intros Hp. unfold resolve, normalizeString. rewrite Hp. cbn [orb negb].
  destruct (isAbsolute_inv p Hp) as [p' ->].
  rewrite decide_False by done. by rewrite normalize_segs_trailing.
Qed.

Lemma join_segs_nil_inv (l : list string) :
  Forall (λ c, is_name c = true) l → join_segs l = EmptyString → l = [].
Proof.
  intros Hl Hj. destruct l as [|x l]; [done|]. exfalso.
  apply Forall_cons in Hl as [(Hx & _)%is_name_spec _].
  destruct l as [|y l]; [done|]. rewrite join_segs_cons in Hj. by destruct x.
Qed.

(** Normalizing an absolute path does not change where it leads. *)
Lemma normalize_absolute (p : string) :
  isAbsolute p = true →
  isAbsolute (normalize p) = true ∧
  normalize_segs false (normalize p) = normalize_segs false p.
Proof.
  intros Hp. unfold normalize, normalizeString. rewrite Hp. cbn [negb].
  destruct (isAbsolute_inv p Hp) as [p' ->].
  rewrite decide_False by done.
  set (l := normalize_segs false (String slash p')).
  assert (Forall (λ c, is_name c = true) l) as Hl by apply normalize_segs_clean.
  case_decide as Hj.
  - apply join_segs_nil_inv in Hj; [|done]. by rewrite Hj.
  - destruct (endsWithSlash _).
    + change ("/" +:+ join_segs l +:+ "/") with (String slash (join_segs l) +:+ "/").
      split; [apply isAbsolute_cons|].
      by rewrite normalize_segs_trailing, normalize_segs_render.
    + split; [apply isAbsolute_cons|]. by apply normalize_segs_render.
Qed.

(** [safeJoin] leads where the operating system goes from [root] along
    the client path. *)
Lemma locate_safeJoin (cwd root p : string) :
  isAbsolute root = true →
  isAbsolute (safeJoin cwd root p) = true ∧
  Fs.locate cwd (safeJoin cwd root p) = normalize_segs false (root +:+ String slash p).
Proof.
  intros Hroot. destruct (isAbsolute_inv root Hroot) as [r ->].
  assert (∃ joined, Path.join (String slash r) p = normalize joined ∧
            isAbsolute joined = true ∧
            normalize_segs false joined
              = normalize_segs false (String slash r +:+ String slash p))
    as (joined & Hjoin & Habs & Hsegs).
  { unfold Path.join. rewrite (decide_False (P := String slash r = EmptyString)) by done.
    destruct (decide (p = EmptyString)) as [->|Hp].
    - rewrite (decide_False (P := String slash r = EmptyString)) by done.
      exists (String slash r). split; [reflexivity|]. split; [done|].
      by rewrite <- (normalize_segs_trailing false (String slash r)).
    - change (String slash r +:+ "/" +:+ p) with (String slash (r +:+ String slash p)).
      rewrite (decide_False (P := String slash (r +:+ String slash p) = EmptyString))
        by discriminate.
      exists (String slash (r +:+ String slash p)). split; [reflexivity|].
      split; [apply isAbsolute_cons|reflexivity]. }
  destruct (normalize_absolute joined Habs) as [Hnabs Hnsegs].
  unfold safeJoin. rewrite Hjoin, (resolve_absolute cwd _ Hnabs).
  split; [apply isAbsolute_cons|].
  rewrite locate_absolute by apply isAbsolute_cons.
  rewrite normalize_segs_render by apply normalize_segs_clean.
  by rewrite Hnsegs, Hsegs.
Qed.

(** Without a [..] piece the result only grows. *)
Lemma fold_push_grows (l acc : list string) :
  ".." ∉ l → ∃ k, fold_left (push_segment false) l acc = k ++ acc.
Proof.
  revert acc. induction l as [|x l IH]; intros acc Hl; [by exists []|].
  apply not_elem_of_cons in Hl as [Hx Hl]. simpl.
  assert (push_segment false acc x = acc ∨ push_segment false acc x = x :: acc) as [->| ->].
  { unfold push_segment. repeat case_decide; auto. by subst. }
  - by apply IH.
  - destruct (IH (x :: acc) Hl) as [k ->]. exists (k ++ [x]). by rewrite <- app_assoc.
Qed.

(** The rendering of a list of segments starts with the rendering of
    each of its prefixes. *)
Lemma prefix_rendered (l k : list string) :
  String.prefix (String slash (join_segs l)) (String slash (join_segs (l ++ k))) = true.
Proof.
  destruct k as [|x k]; [rewrite app_nil_r; apply prefix_refl|].
  destruct l as [|y l]; [apply (prefix_app "/" (join_segs (x :: k)))|].
  rewrite join_segs_app by done.
  apply (prefix_app (String slash (join_segs (y :: l)))).
Qed.

End SandboxFacts.

Section SandboxAccepts.

Variable cwd : string.

(** X1.  The check has no false rejections: an absolute path that leads
    to the root or to a place below it, segment by segment, passes
    [isSafePath]. *)
Theorem sandbox_accepts_all_inside (filePath baseDir : string) :
  Path.isAbsolute filePath = true →
  Path.isAbsolute baseDir = true →
  Fs.locate cwd baseDir `prefix_of` Fs.locate cwd filePath →
  isSafePath cwd filePath baseDir = true.
Proof.
  intros Hf Hb [k Hk]. unfold isSafePath, Js.startsWith.
  rewrite !SandboxFacts.resolve_absolute by done.
  rewrite !PathFacts.locate_absolute in Hk by done. rewrite Hk.
  apply SandboxFacts.prefix_rendered.
Qed.

(** X2.  A client path with no [..] piece cannot leave the root: what
    [safeJoin] returns leads to the root or below it, and passes the
    check. *)
Theorem no_dotdot_stays_inside (root p : string) :
  Path.isAbsolute root = true →
  ".." ∉ Path.split p →
  Fs.locate cwd root `prefix_of` Fs.locate cwd (safeJoin cwd root p) ∧
  isSafePath cwd (safeJoin cwd root p) root = true.
Proof.
  intros Hroot Hp.
  destruct (SandboxFacts.locate_safeJoin cwd root p Hroot) as [Habs Hloc].
  assert (Fs.locate cwd root `prefix_of` Fs.locate cwd (safeJoin cwd root p)) as Hpre.
  { rewrite Hloc, PathFacts.locate_absolute by done. unfold Path.normalize_segs.
    rewrite PathFacts.split_app, fold_left_app.
    destruct (SandboxFacts.fold_push_grows (Path.split p)
                (fold_left (Path.push_segment false) (Path.split root) []) Hp) as [k ->].
    rewrite rev_app_distr. by eexists. }
  split; [done|].
  unfold isSafePath, Js.startsWith.
  rewrite !SandboxFacts.resolve_absolute by done.
  destruct Hpre as [k Hk]. rewrite !PathFacts.locate_absolute in Hk by done. rewrite Hk.
  apply SandboxFacts.prefix_rendered.
Qed.

End SandboxAccepts.

Lemma sandbox_accepts_all_inside_witness :
  Path.isAbsolute "/srv/uploads/d/e.txt" = true ∧
  Path.isAbsolute "/srv/uploads" = true ∧
  Fs.locate "/" "/srv/uploads" `prefix_of` Fs.locate "/" "/srv/uploads/d/e.txt" ∧
  isSafePath "/" "/srv/uploads/d/e.txt" "/srv/uploads" = true.
Proof.
  assert (Fs.locate "/" "/srv/uploads" `prefix_of` Fs.locate "/" "/srv/uploads/d/e.txt")
    as Hpre by (exists ["d"; "e.txt"]; vm_compute; reflexivity).
  split; [reflexivity|]. split; [reflexivity|]. split; [exact Hpre|].
  apply (sandbox_accepts_all_inside "/" "/srv/uploads/d/e.txt" "/srv/uploads");
    [reflexivity|reflexivity|exact Hpre].
Defined.

Lemma no_dotdot_stays_inside_witness :
  Path.isAbsolute "/srv/uploads" = true ∧
(".." ∉ Path.split "./d//e.txt") ∧
  Fs.locate "/" "/srv/uploads"
    `prefix_of` Fs.locate "/" (safeJoin "/" "/srv/uploads" "./d//e.txt") ∧
  isSafePath "/" (safeJoin "/" "/srv/uploads" "./d//e.txt") "/srv/uploads" = true.
Proof.
  assert (".." ∉ Path.split "./d//e.txt") as Hp.
  { vm_compute. intros H. repeat (apply elem_of_cons in H as [H|H]; [discriminate H|]).
    by apply elem_of_nil in H. }
  split; [reflexivity|]. split; [exact Hp|].
  apply (no_dotdot_stays_inside "/" "/srv/uploads" "./d//e.txt"); [reflexivity|exact Hp].
Defined.

(** * The order of listings *)

Section SortFacts.

Context {A : Type} (cmp : A → A → Z).

(** A comparator that puts every element of one kind before every
    element of the other keeps the two kinds apart, whatever else it does. *)
Lemma insert_sorted_kinds (first : A → bool) (x : A) (ds fs : list A) :
  (∀ a b, first a = true → first b = false → (cmp a b ≤ 0)%Z ∧ (0 < cmp b a)%Z) →
  Forall (λ a, first a = true) ds → Forall (λ a, first a = false) fs →
  ∃ ds' fs', insert_sorted cmp x (ds ++ fs) = ds' ++ fs' ∧
    Forall (λ a, first a = true) ds' ∧ Forall (λ a, first a = false) fs'.
Proof.
  intros Hcmp Hds Hfs. induction Hds as [|d ds Hd Hds IH].
  - destruct (first x) eqn:Hx.
    + exists [x], fs. split; [|by split; [constructor|]].
      destruct Hfs as [|y fs Hy Hfs]; [done|]. cbn [app insert_sorted].
      destruct (Hcmp x y Hx Hy) as [Hle _].
      by rewrite (proj2 (Z.leb_le _ _) Hle).
    + exists [], (insert_sorted cmp x fs). split; [done|]. split; [done|].
      apply Forall_forall. intros y Hy.
      assert (y ∈ x :: fs) as [->|Hin]%elem_of_cons; [|done|].
      { revert Hy. clear. induction fs as [|z fs IH]; [done|]. simpl.
        destruct (cmp x z <=? 0)%Z; [done|].
        intros [->|Hy]%elem_of_cons; [by right; left|].
        apply IH in Hy. apply elem_of_cons in Hy as [->|Hy]; [by left|by do 2 right]. }
      by apply (proj1 (Forall_forall _ _) Hfs).
  - cbn [app insert_sorted]. destruct (cmp x d <=? 0)%Z eqn:Hxd.
    + apply Z.leb_le in Hxd. destruct (first x) eqn:Hx.
      * exists (x :: d :: ds), fs. split; [done|]. split; [|done].
        by repeat constructor.
      * destruct (Hcmp d x Hd Hx) as [_ Hlt]. lia.
    + destruct IH as (ds' & fs' & -> & Hds' & Hfs').
      exists (d :: ds'), fs'. split; [done|]. split; [by constructor|done].
Qed.

Lemma sort_kinds (first : A → bool) (l : list A) :
  (∀ a b, first a = true → first b = false → (cmp a b ≤ 0)%Z ∧ (0 < cmp b a)%Z) →
  ∃ ds fs, sort cmp l = ds ++ fs ∧
    Forall (λ a, first a = true) ds ∧ Forall (λ a, first a = false) fs.
Proof.
  intros Hcmp. induction l as [|x l IH]; [by exists [], []|].
  destruct IH as (ds & fs & Hl & Hds & Hfs). cbn [sort foldr].
  change (foldr (insert_sorted cmp) [] l) with (sort cmp l). rewrite Hl.
  by apply insert_sorted_kinds.
Qed.

Lemma elem_of_insert_sorted (x y : A) (l : list A) :
  y ∈ insert_sorted cmp x l → y = x ∨ y ∈ l.
Proof.
  induction l as [|z l IH]; simpl.
  - intros ->%list_elem_of_singleton. by left.
  - destruct (cmp x z <=? 0)%Z.
    + intros [->|Hy]%elem_of_cons; [by left|by right].
    + intros [->|Hy]%elem_of_cons; [right; by left|].
      destruct (IH Hy) as [->|?]; [by left|right; by right].
Qed.

(** With a comparator that is a total preorder the result is in order. *)
Lemma sort_sorted (l : list A) :
  (∀ a b, (0 < cmp a b)%Z → (cmp b a ≤ 0)%Z) →
  (∀ a b c, (cmp a b ≤ 0)%Z → (cmp b c ≤ 0)%Z → (cmp a c ≤ 0)%Z) →
  StronglySorted (λ a b, (cmp a b ≤ 0)%Z) (sort cmp l).
Proof.
  intros Htotal Htrans. induction l as [|x l IH]; [constructor|].
  cbn [sort foldr]. change (foldr (insert_sorted cmp) [] l) with (sort cmp l).
  induction IH as [|y k Hk IHk Hy]; [repeat constructor|].
  cbn [insert_sorted]. destruct (cmp x y <=? 0)%Z eqn:Hxy.
  - apply Z.leb_le in Hxy. constructor; [by constructor|].
    constructor; [done|]. eapply Forall_impl; [exact Hy|]. intros z Hz. by eapply Htrans.
  - apply Z.leb_gt in Hxy. constructor; [done|].
    apply Forall_forall. intros z [->|Hz]%elem_of_insert_sorted.
    + by apply Htotal.
    + by apply (proj1 (Forall_forall _ _) Hy).
Qed.

Lemma StronglySorted_lookup (R : A → A → Prop) (l : list A) (i j : nat) (a b : A) :
  StronglySorted R l → i < j → l !! i = Some a → l !! j = Some b → R a b.
Proof.
  intros Hl. revert i j. induction Hl as [|x l Hl IH Hx]; intros i j Hij Hi Hj; [done|].
  destruct j as [|j]; [lia|]. destruct i as [|i].
  - simplify_eq/=. apply (proj1 (Forall_forall _ _) Hx). by eapply list_elem_of_lookup_2.
  - apply (IH i j); [lia|done..].
Qed.

End SortFacts.

Section ListingOrder.

Variable cwd : string.
Variable upload_directory : string.
Variable mtimeMs : string → Z.
Variable localeCompare : string → string → Z.

Lemma compare_items_kinds (sortBy : string) (reverse : bool) (a b : item) :
  item_is_dir a = true → item_is_dir b = false →
  (compare_items localeCompare sortBy reverse a b ≤ 0)%Z ∧
  (0 < compare_items localeCompare sortBy reverse b a)%Z.
Proof. unfold compare_items. by intros -> ->. Qed.

(** X3.  Whatever the sort key and the direction, the index page lists
    every directory before every file. *)
Theorem index_lists_directories_first (s : state)
    (currentPath searchQuery sortBy order : string) (l : list item) :
  payload (res (get_index cwd upload_directory mtimeMs localeCompare s
                  currentPath searchQuery sortBy order)) = Files l →
  ∃ ds fs, l = ds ++ fs ∧
    Forall (λ i, item_is_dir i = true) ds ∧ Forall (λ i, item_is_dir i = false) fs.
Proof.
  unfold get_index, reply. intros H.
  repeat case_match; try discriminate H.
  all: cbn [res payload] in H; injection H as <-.
  all: apply sort_kinds; intros x y; apply compare_items_kinds.
Qed.

(** X4.  Sorted by size, the index page has, among the directories and
    among the files, no larger entry before a smaller one; with
    [order=desc], no smaller one before a larger one. *)
Theorem index_sorted_by_size (s : state) (currentPath searchQuery order : string)
    (l : list item) (i j : nat) (a b : item) :
  payload (res (get_index cwd upload_directory mtimeMs localeCompare s
                  currentPath searchQuery "size" order)) = Files l →
  i < j → l !! i = Some a → l !! j = Some b →
  item_is_dir a = item_is_dir b →
  if bool_decide (order = "desc") then item_size b ≤ item_size a
  else item_size a ≤ item_size b.
Proof.
  unfold get_index, reply. intros H Hij Hi Hj Hkind.
  repeat case_match; try discriminate H; try done.
  all: cbn [res payload] in H; injection H as <-.
  all: match type of Hi with
       | sort ?cmp ?items !! _ = _ =>
           assert (StronglySorted (λ a b, (cmp a b ≤ 0)%Z) (sort cmp items)) as Hsorted;
           [apply sort_sorted; unfold compare_items;
            [intros x y|intros x y z];
            destruct (item_is_dir x), (item_is_dir y); try destruct (item_is_dir z);
            cbn [negb Bool.eqb]; repeat case_decide; try done; lia|]
       end.
  all: pose proof (StronglySorted_lookup _ _ _ _ _ _ Hsorted Hij Hi Hj) as Hab.
  all: unfold compare_items in Hab; rewrite Hkind in Hab.
  all: rewrite Bool.eqb_reflx in Hab; cbn [negb] in Hab.
  all: repeat case_decide; try done; lia.
Qed.

Lemma compare_recent_kinds (a b : item) :
  item_is_dir a = true → item_is_dir b = false →
  (compare_recent a b ≤ 0)%Z ∧ (0 < compare_recent b a)%Z.
Proof. unfold compare_recent. by intros -> ->. Qed.

(** X5.  The JSON listing puts every directory before every file; with
    a positive [limit] it has at most that many entries, and they are the
    first entries of the listing served without a limit. *)
Theorem api_files_limit (s : state) (currentPath : string) (limit : Z) (l : list item) :
  payload (res (get_api_files cwd upload_directory mtimeMs s currentPath limit))
    = Files l →
  ((0 < limit)%Z → length l ≤ Z.to_nat limit) ∧
  (∃ full,
     payload (res (get_api_files cwd upload_directory mtimeMs s currentPath 0))
       = Files full ∧
     l `prefix_of` full) ∧
  ∃ ds fs, l = ds ++ fs ∧
    Forall (λ i, item_is_dir i = true) ds ∧ Forall (λ i, item_is_dir i = false) fs.
Proof.
  unfold get_api_files, reply, reject. intros H.
  destruct (negb (isValidPath currentPath)); [discriminate H|].
  destruct (negb (isSafePath _ _ _)); [discriminate H|].
  destruct (negb (Fs.existsSync _ _ _)); [discriminate H|].
  destruct (list_items _ _ _ _ _ _) as [items|e]; [|discriminate H].
  cbn [res payload] in H |- *. injection H as <-.
  destruct (sort_kinds compare_recent item_is_dir items compare_recent_kinds)
    as (ds & fs & Hsort & Hds & Hfs).
  change (0 <? 0)%Z with false. cbn match.
  destruct (Z.ltb_spec 0 limit) as [Hpos|Hneg].
  - split; [intros _; rewrite length_take; lia|].
    split; [eexists; split; [done|apply prefix_take]|].
    rewrite Hsort, take_app.
    eexists _, _. split; [done|]. split; by apply Forall_take.
  - split; [lia|]. split; [by eexists|]. by exists ds, fs.
Qed.

End ListingOrder.

(** The root of the fresh installation, listed by name. *)
Lemma index_lists_directories_first_witness :
  ∃ l,
    payload (res (get_index Scenario.cwd Scenario.upload_directory Scenario.mtimeMs
                    Scenario.localeCompare Scenario.fresh "" "" "" "")) = Files l ∧
    ∃ ds fs, l = ds ++ fs ∧
      Forall (λ i, item_is_dir i = true) ds ∧ Forall (λ i, item_is_dir i = false) fs.
Proof.
  eexists. split; [vm_compute; reflexivity|].
  apply (index_lists_directories_first Scenario.cwd Scenario.upload_directory
           Scenario.mtimeMs Scenario.localeCompare Scenario.fresh "" "" "" "").
  vm_compute. reflexivity.
Defined.

(** Three files of 8, 4 and 2 bytes, sorted by size: smallest first by
    default, largest first with [order=desc].  The theorem is applied to
    the first and the last entry of either page. *)
Lemma index_sorted_by_size_witness :
  let page order :=
    payload (res (get_index Scenario.cwd Scenario.upload_directory Scenario.mtimeMs
                    Scenario.localeCompare Scenario.sized "" "" "size" order)) in
  let small := mkItem "small.txt" false 2 (Scenario.mtimeMs "/srv/uploads/small.txt" / 1000) "small.txt" in
  let mid := mkItem "mid.log" false 4 (Scenario.mtimeMs "/srv/uploads/mid.log" / 1000) "mid.log" in
  let big := mkItem "big.bin" false 8 (Scenario.mtimeMs "/srv/uploads/big.bin" / 1000) "big.bin" in
  (page "" = Files [small; mid; big] ∧
   0 < 2 ∧ [small; mid; big] !! 0 = Some small ∧ [small; mid; big] !! 2 = Some big ∧
   item_is_dir small = item_is_dir big ∧
   item_size small < item_size big ∧
   if bool_decide ("" = "desc") then item_size big ≤ item_size small
   else item_size small ≤ item_size big) ∧
  (page "desc" = Files [big; mid; small] ∧
   0 < 2 ∧ [big; mid; small] !! 0 = Some big ∧ [big; mid; small] !! 2 = Some small ∧
   item_is_dir big = item_is_dir small ∧
   item_size small < item_size big ∧
   if bool_decide ("desc" = "desc") then item_size small ≤ item_size big
   else item_size big ≤ item_size small).
Proof.
  intros page small mid big. split.
  - split; [vm_compute; reflexivity|]. split; [lia|].
    split; [reflexivity|]. split; [reflexivity|]. split; [reflexivity|].
    split; [vm_compute; lia|].
    apply (index_sorted_by_size Scenario.cwd Scenario.upload_directory
             Scenario.mtimeMs Scenario.localeCompare Scenario.sized "" "" ""
             [small; mid; big] 0 2 small big);
      [vm_compute; reflexivity|lia|reflexivity|reflexivity|reflexivity].
  - split; [vm_compute; reflexivity|]. split; [lia|].
    split; [reflexivity|]. split; [reflexivity|]. split; [reflexivity|].
    split; [vm_compute; lia|].
    apply (index_sorted_by_size Scenario.cwd Scenario.upload_directory
             Scenario.mtimeMs Scenario.localeCompare Scenario.sized "" "" "desc"
             [big; mid; small] 0 2 big small);
      [vm_compute; reflexivity|lia|reflexivity|reflexivity|reflexivity].
Defined.

(** The first two entries of the JSON listing of the same directory. *)
Lemma api_files_limit_witness :
  ∃ l,
    payload (res (get_api_files Scenario.cwd Scenario.upload_directory Scenario.mtimeMs
                    Scenario.fresh "" 2)) = Files l ∧
    ((0 < 2)%Z → length l ≤ Z.to_nat 2) ∧
    (∃ full,
       payload (res (get_api_files Scenario.cwd Scenario.upload_directory
                       Scenario.mtimeMs Scenario.fresh "" 0)) = Files full ∧
       l `prefix_of` full) ∧
    ∃ ds fs, l = ds ++ fs ∧
      Forall (λ i, item_is_dir i = true) ds ∧ Forall (λ i, item_is_dir i = false) fs.
Proof.
  eexists. split; [vm_compute; reflexivity|].
  apply (api_files_limit Scenario.cwd Scenario.upload_directory
           Scenario.mtimeMs Scenario.fresh "" 2).
  vm_compute. reflexivity.
Defined.

(** * Creating a folder *)

Module MkdirFacts.
Import Fs FsFacts.

Local Arguments find : simpl never.
Local Arguments insert_at : simpl never.

Lemma mkdirp_cons (m : gmap string node) (s : string) (p : list string) :
  mkdirp (Dir m) (s :: p) =
  match mkdirp (default (Dir ∅) (m !! s)) p with
  | inl c => inl (Dir (<[s := c]> m))
  | inr e => inr e
  end.
Proof. done. Qed.

Local Arguments mkdirp : simpl never.

(** Creating one missing entry of an existing directory attaches an
    empty directory there. *)
Lemma mkdirp_fresh (t : node) (l : list string) (n : string) (m : gmap string node) :
  find t l = Some (Dir m) → m !! n = None →
  ∃ t', mkdirp t (l ++ [n]) = inl t' ∧ insert_at t (l ++ [n]) (Dir ∅) = Some t'.
Proof.
  revert t. induction l as [|s l IH]; intros t Hl Hn.
  - change (find t []) with (Some t) in Hl. simplify_eq.
    cbn [app]. rewrite mkdirp_cons, Hn. by eexists.
  - destruct t as [c|m0]; [done|]. rewrite find_cons in Hl.
    destruct (m0 !! s) as [c|] eqn:Hs; [|done]. cbn [mbind option_bind] in Hl.
    destruct (IH c Hl Hn) as (c' & Hmk & Hins).
    change ((s :: l) ++ [n]) with (s :: (l ++ [n])).
    rewrite mkdirp_cons, Hs. cbn [default from_option id]. rewrite Hmk.
    eexists. split; [done|].
    destruct (l ++ [n]) as [|s' p] eqn:Hp; [by destruct l|].
    by rewrite insert_at_more, Hs; cbn [mbind option_bind]; rewrite Hins.
Qed.

(** Below a file nothing can be created. *)
Lemma mkdirp_below_file (t : node) (l k : list string) (c : string) :
  find t l = Some (File c) → k ≠ [] → mkdirp t (l ++ k) = inr ENOTDIR.
Proof.
  revert t. induction l as [|s l IH]; intros t Hl Hk.
  - change (find t []) with (Some t) in Hl. simplify_eq.
    by destruct k.
  - destruct t as [c0|m0]; [done|]. rewrite find_cons in Hl.
    destruct (m0 !! s) as [c1|] eqn:Hs; [|done]. cbn [mbind option_bind] in Hl.
    change ((s :: l) ++ k) with (s :: (l ++ k)).
    rewrite mkdirp_cons, Hs. cbn [default from_option id]. by rewrite (IH c1 Hl Hk).
Qed.

End MkdirFacts.

Section CreateFolder.

Variable cwd : string.
Variable dev : list string → nat.
Variable upload_directory : string.

(** X6.  A folder created under a plain name (one path segment) in a
    directory that exists: the request records the new path, the new
    folder is empty, and an immediate undo removes it and puts the tree
    back exactly as it was. *)
Theorem create_folder_undo_round_trip (s : state) (currentPath name : string) :
  let root := BASE_DIR cwd upload_directory in
  let parentDir := safeJoin cwd root currentPath in
  let newFolderPath := Path.join parentDir (Js.trim name) in
  let o := post_create_folder cwd upload_directory s true currentPath name in
  Path.isAbsolute cwd = true →
  Path.is_name (Js.trim name) = true →
  Fs.existsSync cwd (tree s) parentDir = true →
  status (res o) = 200 →
  lastOperation (post o) = Some (OpCreateFolder newFolderPath) ∧
  emitted o = [currentPath] ∧
  Fs.existsSync cwd (tree s) newFolderPath = false ∧
  Fs.find (tree (post o)) (Fs.locate cwd newFolderPath) = Some (Fs.Dir ∅) ∧
  post_undo cwd dev (post o) true
    = mkOutcome (mkResponse 200 Success) (mkState (tree s) None) [EmptyString].
Proof.
  intros root parentDir newFolderPath o Hcwd Hname Hparent.
  assert (Path.isAbsolute parentDir = true) as Habs
    by by apply PathFacts.isAbsolute_resolve.
  assert (Fs.locate cwd newFolderPath = Fs.locate cwd parentDir ++ [Js.trim name]) as Hloc
    by by apply PathFacts.locate_join.
  subst o. unfold post_create_folder. cbn [negb].
  fold root. fold parentDir. fold newFolderPath.
  destruct (decide (Js.trim name = EmptyString)); [done|].
  destruct (negb (isValidFileName _) || negb (isValidPath _)); [done|].
  destruct (negb (isSafePath _ _ _)); [done|].
  destruct (Fs.existsSync cwd (tree s) newFolderPath) eqn:Hfree; [done|].
  apply (existsSync_false cwd) in Hfree as Hnone.
  apply (existsSync_true cwd) in Hparent as [x Hx].
  unfold Fs.mkdir. rewrite Hloc in Hnone |- *.
  destruct x as [c|m].
  { by rewrite (MkdirFacts.mkdirp_below_file _ _ _ c Hx). }
  assert (m !! Js.trim name = None) as Hn.
  { rewrite find_app, Hx in Hnone. cbn [mbind option_bind] in Hnone.
    rewrite FsFacts.find_cons in Hnone. by destruct (m !! Js.trim name). }
  destruct (MkdirFacts.mkdirp_fresh _ _ _ m Hx Hn) as (t' & -> & Hins).
  intros _. cbn [post res lastOperation tree emitted].
  split; [done|]. split; [done|]. split; [done|].
  split; [by eapply FsFacts.find_insert_at|].
  unfold post_undo, revert_operation. cbn [negb lastOperation tree].
  assert (Fs.existsSync cwd t' newFolderPath = true) as ->.
  { apply (existsSync_true cwd). rewrite Hloc.
    erewrite FsFacts.find_insert_at by done. by eexists. }
  unfold Fs.rmSync. rewrite Hloc.
  destruct (Fs.locate cwd parentDir ++ [Js.trim name]) as [|s0 p] eqn:Hp.
  { by destruct (Fs.locate cwd parentDir). }
  by rewrite (FsFacts.remove_at_insert_at _ _ _ _ Hins Hnone).
Qed.

End CreateFolder.

(** A folder [new] in the root of the fresh installation. *)
Lemma create_folder_undo_round_trip_witness :
  let cwd := Scenario.cwd in
  let s := Scenario.fresh in
  let root := BASE_DIR cwd Scenario.upload_directory in
  let parentDir := safeJoin cwd root "" in
  let newFolderPath := Path.join parentDir (Js.trim " new ") in
  let o := post_create_folder cwd Scenario.upload_directory s true "" " new " in
  Path.isAbsolute cwd = true ∧
  Path.is_name (Js.trim " new ") = true ∧
  Fs.existsSync cwd (tree s) parentDir = true ∧
  status (res o) = 200 ∧
  lastOperation (post o) = Some (OpCreateFolder newFolderPath) ∧
  emitted o = [""] ∧
  Fs.existsSync cwd (tree s) newFolderPath = false ∧
  Fs.find (tree (post o)) (Fs.locate cwd newFolderPath) = Some (Fs.Dir ∅) ∧
  post_undo cwd Scenario.dev (post o) true
    = mkOutcome (mkResponse 200 Success) (mkState (tree s) None) [EmptyString].
Proof.
  intros cwd s root parentDir newFolderPath o.
  do 4 (split; [first [reflexivity | vm_compute; reflexivity]|]).
  apply (create_folder_undo_round_trip Scenario.cwd Scenario.dev Scenario.upload_directory
           Scenario.fresh "" " new ");
    first [reflexivity | vm_compute; reflexivity].
Defined.

(** * What delete and rename leave in place *)

Section DeleteRename.

Variable cwd : string.
Variable dev : list string → nat.
Variable upload_directory : string.

(** A rename that goes through never moves the root of the filesystem. *)
Lemma renameSync_not_root (t t' : Fs.node) (src dst : string) :
  Fs.existsSync cwd t dst = false →
  Fs.renameSync cwd dev t src dst = Fs.Ok t' →
  Fs.locate cwd src ≠ [].
Proof.
  intros Hb%(existsSync_false cwd). unfold Fs.renameSync.
  destruct (Fs.find t (Fs.locate cwd src)) as [x|] eqn:Ha; [|done].
  destruct (decide (Fs.locate cwd src = Fs.locate cwd dst)) as [E|_].
  { rewrite E in Ha. congruence. }
  by destruct (decide (Fs.locate cwd src = [])).
Qed.

(** X7.  On a filesystem whose root is a directory, a successful delete
    removes the entry that was at the resolved path, keeps every file
    that is not at or below that path, makes nothing appear, and
    notifies the observers of the directory part of the client path. *)
Theorem delete_removes_entry (s : state) (itemPath : string) :
  let fullPath := safeJoin cwd (BASE_DIR cwd upload_directory) itemPath in
  let o := post_delete cwd upload_directory s true itemPath in
  Fs.is_dir (tree s) = true →
  status (res o) = 200 →
  Fs.existsSync cwd (tree s) fullPath = true ∧
  Fs.existsSync cwd (tree (post o)) fullPath = false ∧
  (∀ q c, Fs.find (tree s) q = Some (Fs.File c) →
          ¬ Fs.locate cwd fullPath `prefix_of` q →
          Fs.find (tree (post o)) q = Some (Fs.File c)) ∧
  (∀ q, Fs.find (tree s) q = None → Fs.find (tree (post o)) q = None) ∧
  emitted o = [Path.dirname itemPath].
Proof.
  intros fullPath o Hroot. subst o. unfold post_delete. cbn [negb].
  destruct (negb (isValidPath itemPath)); [done|].
  fold fullPath. destruct (negb (isSafePath _ _ _)); [done|].
  unfold Fs.stat.
  destruct (Fs.find (tree s) (Fs.locate cwd fullPath)) as [stats|] eqn:Hfind.
  2:{ unfold delete_failed. by destruct (Fs.code _). }
  assert (Fs.locate cwd fullPath ≠ [] →
    let o := mkOutcome (mkResponse 200 Success)
               (set_tree (mkState (tree s) (Some (OpDelete fullPath)))
                  (Fs.remove_at (tree s) (Fs.locate cwd fullPath)))
               [Path.dirname itemPath] in
    Fs.existsSync cwd (tree s) fullPath = true ∧
    Fs.existsSync cwd (tree (post o)) fullPath = false ∧
    (∀ q c, Fs.find (tree s) q = Some (Fs.File c) →
            ¬ Fs.locate cwd fullPath `prefix_of` q →
            Fs.find (tree (post o)) q = Some (Fs.File c)) ∧
    (∀ q, Fs.find (tree s) q = None → Fs.find (tree (post o)) q = None) ∧
    emitted o = [Path.dirname itemPath]) as Hdone.
  { intros Hne. cbn [post set_tree tree emitted].
    split; [apply (existsSync_true cwd); by rewrite Hfind|].
    split; [apply (existsSync_false cwd); by apply FsFacts.find_remove_at|].
    split; [intros q c Hq Hoff; by apply FsFacts.find_remove_at_file|].
    split; [intros q Hq; by apply FsFacts.find_remove_at_None|done]. }
  destruct stats as [c|m]; cbn [Fs.is_dir].
  - unfold Fs.unlinkSync. rewrite Hfind. intros _. apply Hdone.
    intros E. rewrite E in Hfind. change (Fs.find (tree s) []) with (Some (tree s)) in Hfind.
    injection Hfind as Hfile. by rewrite Hfile in Hroot.
  - unfold Fs.rmSync.
    destruct (Fs.locate cwd fullPath) as [|x l] eqn:Hloc.
    + unfold delete_failed. by destruct (Fs.code _).
    + intros _. by apply Hdone.
Qed.

(** X8.  A successful rename moves the entry, with all it contains,
    from the resolved old path to the new name beside it; nothing is
    left at the old path, and every file that was not at or below the old
    path is where it was. *)
Theorem rename_moves_entry (s : state) (oldPath name : string) :
  let old := safeJoin cwd (BASE_DIR cwd upload_directory) oldPath in
  let new := Path.join (Path.dirname old) (Js.trim name) in
  let o := post_rename cwd dev upload_directory s true oldPath name in
  status (res o) = 200 →
  lastOperation (post o) = Some (OpRename old new) ∧
  (∃ x, Fs.find (tree s) (Fs.locate cwd old) = Some x ∧
        Fs.find (tree (post o)) (Fs.locate cwd new) = Some x) ∧
  (∀ k, Fs.find (tree (post o)) (Fs.locate cwd new ++ k)
        = Fs.find (tree s) (Fs.locate cwd old ++ k)) ∧
  Fs.find (tree (post o)) (Fs.locate cwd old) = None ∧
  (∀ q c, Fs.find (tree s) q = Some (Fs.File c) →
          ¬ Fs.locate cwd old `prefix_of` q →
          Fs.find (tree (post o)) q = Some (Fs.File c)).
Proof.
  intros old new o. subst o. unfold post_rename. cbn [negb].
  destruct (decide (Js.trim name = EmptyString)); [done|].
  destruct (negb (isValidFileName _) || negb (isValidPath _)); [done|].
  fold old. destruct (negb (isSafePath _ _ _)); [done|].
  destruct (negb (Fs.existsSync cwd (tree s) old)); [done|].
  fold new. destruct (Fs.existsSync cwd (tree s) new) eqn:Hfree; [done|].
  destruct (Fs.renameSync cwd dev (tree s) old new) as [t1|e] eqn:Hren; [|done].
  intros _. cbn [post lastOperation tree].
  destruct (renameSync_fresh cwd dev _ _ _ _ Hfree Hren) as (x & Hx & Hpre & Hins).
  assert (Fs.locate cwd old ≠ []) as Hne by by eapply renameSync_not_root.
  apply (existsSync_false cwd) in Hfree.
  assert (Fs.find t1 (Fs.locate cwd new) = Some x) as Hnew
    by by eapply FsFacts.find_insert_at.
  split; [done|]. split; [by exists x|].
  split; [intros k; by rewrite !find_app, Hnew, Hx|].
  split.
  { eapply FsFacts.find_insert_at_None; [done|done|].
    by apply FsFacts.find_remove_at. }
  intros q c Hq Hoff. eapply FsFacts.find_insert_at_file; [done| |].
  - intros Hp. destruct (FsFacts.find_prefix _ _ _ _ Hq Hp). congruence.
  - by apply FsFacts.find_remove_at_file.
Qed.

End DeleteRename.

(** Deleting the directory [d] of the fresh installation. *)
Lemma delete_removes_entry_witness :
  let cwd := Scenario.cwd in
  let s := Scenario.fresh in
  let fullPath := safeJoin cwd (BASE_DIR cwd Scenario.upload_directory) "d" in
  let o := post_delete cwd Scenario.upload_directory s true "d" in
  Fs.is_dir (tree s) = true ∧
  status (res o) = 200 ∧
  Fs.existsSync cwd (tree s) fullPath = true ∧
  Fs.existsSync cwd (tree (post o)) fullPath = false ∧
  (∀ q c, Fs.find (tree s) q = Some (Fs.File c) →
          ¬ Fs.locate cwd fullPath `prefix_of` q →
          Fs.find (tree (post o)) q = Some (Fs.File c)) ∧
  (∀ q, Fs.find (tree s) q = None → Fs.find (tree (post o)) q = None) ∧
  emitted o = [Path.dirname "d"].
Proof.
  intros cwd s fullPath o.
  split; [reflexivity|]. split; [vm_compute; reflexivity|].
  apply (delete_removes_entry Scenario.cwd Scenario.upload_directory Scenario.fresh "d");
    [reflexivity|vm_compute; reflexivity].
Defined.

(** Renaming the directory [d] of the fresh installation to [docs]. *)
Lemma rename_moves_entry_witness :
  let cwd := Scenario.cwd in
  let s := Scenario.fresh in
  let old := safeJoin cwd (BASE_DIR cwd Scenario.upload_directory) "d" in
  let new := Path.join (Path.dirname old) (Js.trim "docs") in
  let o := post_rename cwd Scenario.dev Scenario.upload_directory s true "d" "docs" in
  status (res o) = 200 ∧
  lastOperation (post o) = Some (OpRename old new) ∧
  (∃ x, Fs.find (tree s) (Fs.locate cwd old) = Some x ∧
        Fs.find (tree (post o)) (Fs.locate cwd new) = Some x) ∧
  (∀ k, Fs.find (tree (post o)) (Fs.locate cwd new ++ k)
        = Fs.find (tree s) (Fs.locate cwd old ++ k)) ∧
  Fs.find (tree (post o)) (Fs.locate cwd old) = None ∧
  (∀ q c, Fs.find (tree s) q = Some (Fs.File c) →
          ¬ Fs.locate cwd old `prefix_of` q →
          Fs.find (tree (post o)) q = Some (Fs.File c)).
Proof.
  intros cwd s old new o. split; [vm_compute; reflexivity|].
  apply (rename_moves_entry Scenario.cwd Scenario.dev Scenario.upload_directory
           Scenario.fresh "d" "docs").
  vm_compute. reflexivity.
Defined.

(** * Batches of uploads, their undo, and rejected uploads *)

Module UnlinkFacts.
Import Fs FsFacts.

Local Arguments find : simpl never.
Local Arguments remove_at : simpl never.

(** Removing the file at [a] keeps every other file. *)
Lemma find_unlink_other (t : node) (a q : list string) (c c' : string) :
  find t a = Some (File c') → find t q = Some (File c) → q ≠ a →
  find (remove_at t a) q = Some (File c).
Proof.
  intros Ha Hq Hne. apply find_remove_at_file; [|done].
  intros Hp. apply Hne. symmetry. eapply find_below_file; [done..|by eexists].
Qed.

(** A file found after a removal was there before it. *)
Lemma find_remove_at_file_inv (t : node) (a q : list string) (c : string) :
  find (remove_at t a) q = Some (File c) → find t q = Some (File c).
Proof.
  revert t q. induction a as [|s a IH]; intros t q; [done|].
  destruct t as [c0|m]; [done|].
  destruct q as [|s' q]; [by destruct a; [|rewrite remove_at_more; destruct (m !! s)]|].
  destruct a as [|s2 a].
  - rewrite remove_at_one, !find_cons. destruct (decide (s = s')) as [->|Hne].
    + by rewrite lookup_delete_eq.
    + by rewrite lookup_delete_ne.
  - rewrite remove_at_more.
    destruct (m !! s) as [c1|] eqn:Hs; [|done].
    rewrite !find_cons. destruct (decide (s = s')) as [->|Hne].
    + rewrite lookup_insert_eq, Hs. cbn [mbind option_bind]. apply IH.
    + by rewrite lookup_insert_ne.
Qed.

End UnlinkFacts.

Section UploadBatch.

Variable cwd : string.
Variable dev : list string → nat.
Variable upload_directory : string.

(** The name the duplicate loop settles on is the one it started with
    or a numbered candidate. *)
Lemma pickName_shape (fuel : nat) (t : Fs.node) (uploadDir originalName : string)
    (counter : nat) (filename filePath fn fp : string) :
  pickName cwd fuel t uploadDir originalName counter filename filePath = Some (fn, fp) →
  (fn = filename ∧ fp = filePath) ∨
  ∃ k, counter ≤ k ∧ fn = numbered originalName k ∧ fp = Path.join uploadDir fn.
Proof.
  revert counter filename filePath.
  induction fuel as [|fuel IH]; intros counter filename filePath; cbn [pickName].
  - destruct (Fs.existsSync cwd t filePath); [done|]. intros [= <- <-]. by left.
  - destruct (Fs.existsSync cwd t filePath); [|intros [= <- <-]; by left].
    intros [[-> ->]|(k & Hk & -> & ->)]%IH; right.
    + exists counter. by split.
    + exists k. split; [lia|done].
Qed.

Lemma storeFiles_names (fuel : nat) (t t' : Fs.node) (uploadDir : string)
    (todo : list upfile) (acc names : list string) :
  storeFiles cwd dev fuel t uploadDir todo acc = Some (inl (t', names)) →
  ∃ new, names = acc ++ new ∧
    Forall2 (λ f n, n = originalname f ∨ ∃ k, 1 ≤ k ∧ n = numbered (originalname f) k)
      todo new.
Proof.
  revert t acc. induction todo as [|file rest IH]; intros t acc; cbn [storeFiles].
  - intros [= <- <-]. exists []. by rewrite app_nil_r.
  - unfold storeFile.
    destruct (pickName _ _ _ _ _ _ _ _) as [[fn fp]|] eqn:Hpick; [|done].
    destruct (moveIntoPlace _ _ _ _ _) as [t1 [e|]]; [done|].
    intros (new & -> & Hnew)%IH. exists (fn :: new).
    split; [by rewrite <- app_assoc|]. constructor; [|done].
    apply pickName_shape in Hpick as [[-> _]|(k & Hk & -> & _)]; [by left|].
    right. by exists k.
Qed.

(** A batch that is accepted reports one stored name per uploaded file,
    in the order of the batch; each is the name the client gave or that
    name numbered.  The undo record lists the stored paths in the same
    order, and the observers of the target directory are notified once. *)
Lemma post_upload_report (fuel : nat) (s : state) (currentPath : string)
    (files : list upfile) (o : outcome) :
  let uploadDir := safeJoin cwd (BASE_DIR cwd upload_directory) currentPath in
  post_upload cwd dev upload_directory fuel s currentPath files = Some o →
  status (res o) = 200 →
  ∃ names,
    payload (res o) = Uploaded names ∧
    Forall2 (λ f n, n = originalname f ∨ ∃ k, 1 ≤ k ∧ n = numbered (originalname f) k)
      files names ∧
    lastOperation (post o) = Some (OpUpload (Path.join uploadDir <$> names)) ∧
    emitted o = [currentPath].
Proof.
  intros uploadDir. unfold post_upload. fold uploadDir.
  destruct (negb (isSafePath _ _ _)); [by intros [= <-]|].
  destruct (negb (Fs.existsSync _ _ _)); [by intros [= <-]|].
  destruct (storeFiles _ _ _ _ _ _ _) as [[[t names]|[[t file] e]]|] eqn:Hstore;
    [|by intros [= <-]|done].
  intros [= <-] _. exists names.
  apply storeFiles_names in Hstore as (new & -> & Hnew). by cbn.
Qed.

(** What the loop of the undo route leaves when it runs to its end. *)
Lemma undoUpload_ok (t t' : Fs.node) (files : list string) :
  Fs.is_dir t = true →
  undoUpload cwd t files = (t', None) →
  (∀ p, p ∈ files → Fs.find t' (Fs.locate cwd p) = None) ∧
  (∀ q c, Fs.find t q = Some (Fs.File c) → q ∉ (Fs.locate cwd <$> files) →
          Fs.find t' q = Some (Fs.File c)) ∧
  (∀ q, Fs.find t q = None → Fs.find t' q = None).
Proof.
  revert t. induction files as [|p rest IH]; intros t Hroot; cbn [undoUpload].
  { intros [= <-]. split; [by intros p ?%elem_of_nil|]. by split. }
  destruct (Fs.existsSync cwd t p) eqn:Hex.
  - unfold Fs.unlinkSync.
    destruct (Fs.find t (Fs.locate cwd p)) as [[c|m]|] eqn:Hp; [|done..].
    assert (Fs.locate cwd p ≠ []) as Hne.
    { intros E. rewrite E in Hp. injection Hp as Hp. by rewrite Hp in Hroot. }
    intros (Hgone & Hkept & Hnone)%IH.
    2:{ destruct t as [|m]; [done|]. by destruct (Fs.locate cwd p) as [|? [|? ?]];
          [|rewrite FsFacts.remove_at_one|rewrite FsFacts.remove_at_more; destruct (m !! _)]. }
    split_and!.
    + intros p' [->|Hin]%elem_of_cons; [|by apply Hgone].
      by apply Hnone, FsFacts.find_remove_at.
    + intros q c' Hq Hout. rewrite fmap_cons in Hout.
      apply not_elem_of_cons in Hout as [Hqp Hout].
      apply Hkept; [|done]. by eapply UnlinkFacts.find_unlink_other.
    + intros q Hq. by apply Hnone, FsFacts.find_remove_at_None.
  - apply (existsSync_false cwd) in Hex.
    intros (Hgone & Hkept & Hnone)%IH; [|done].
    split_and!; [|intros q c Hq Hout; apply Hkept; [done|]|done].
    + intros p' [->|Hin]%elem_of_cons; [by apply Hnone|by apply Hgone].
    + rewrite fmap_cons in Hout. by apply not_elem_of_cons in Hout as [_ Hout].
Qed.

(** X10.  On a filesystem whose root is a directory, a successful undo
    of an upload record leaves nothing at any of the recorded paths,
    keeps every file that is at none of them, makes nothing appear, and
    empties the slot. *)
Theorem undo_upload_removes_files (s : state) (files : list string) :
  let u := post_undo cwd dev s true in
  Fs.is_dir (tree s) = true →
  lastOperation s = Some (OpUpload files) →
  status (res u) = 200 →
  (∀ p, p ∈ files → Fs.existsSync cwd (tree (post u)) p = false) ∧
  (∀ q c, Fs.find (tree s) q = Some (Fs.File c) → q ∉ (Fs.locate cwd <$> files) →
          Fs.find (tree (post u)) q = Some (Fs.File c)) ∧
  (∀ q, Fs.find (tree s) q = None → Fs.find (tree (post u)) q = None) ∧
  lastOperation (post u) = None.
Proof.
  intros u Hroot Hslot. subst u. unfold post_undo. cbn [negb]. rewrite Hslot.
  cbn [revert_operation].
  destruct (undoUpload cwd (tree s) files) as [t' [e|]] eqn:Hundo; [done|].
  intros _. cbn [post tree lastOperation].
  destruct (undoUpload_ok _ _ _ Hroot Hundo) as (Hgone & Hkept & Hnone).
  split_and!; [|done..]. intros p Hp. by apply (existsSync_false cwd), Hgone.
Qed.

(** Once the temporary copies are cleaned up none of them is a file any
    more, and no file has appeared. *)
Lemma cleanupTempFiles_no_new_file (files : list upfile) (t : Fs.node)
    (q : list string) (c : string) :
  Fs.find (cleanupTempFiles cwd files t) q = Some (Fs.File c) →
  Fs.find t q = Some (Fs.File c).
Proof.
  revert t. induction files as [|f rest IH]; intros t; [done|].
  cbn [cleanupTempFiles fold_left]. intros Hq%IH. revert Hq.
  unfold Fs.unlinkSync.
  destruct (Fs.find t (Fs.locate cwd (tmp_path f))) as [[c'|m]|]; [|done..].
  apply UnlinkFacts.find_remove_at_file_inv.
Qed.

Lemma cleanupTempFiles_clears (files : list upfile) (t : Fs.node) :
  Forall (λ f, Fs.locate cwd (tmp_path f) ≠ []) files →
  (∀ f c, f ∈ files →
     Fs.find (cleanupTempFiles cwd files t) (Fs.locate cwd (tmp_path f))
       ≠ Some (Fs.File c)) ∧
  (∀ q c, Fs.find t q = Some (Fs.File c) →
     q ∉ (Fs.locate cwd ∘ tmp_path <$> files) →
     Fs.find (cleanupTempFiles cwd files t) q = Some (Fs.File c)) ∧
  (∀ q, Fs.find t q = None → Fs.find (cleanupTempFiles cwd files t) q = None).
Proof.
  revert t. induction files as [|f rest IH]; intros t Hfiles.
  { split; [by intros f c ?%elem_of_nil|]. by split. }
  apply Forall_cons in Hfiles as [Hf Hrest].
  cbn [cleanupTempFiles fold_left].
  set (t1 := match Fs.unlinkSync cwd t (tmp_path f) with
             | Fs.Ok t' => t' | Fs.Throw _ => t end).
  change (fold_left _ rest t1) with (cleanupTempFiles cwd rest t1).
  destruct (IH t1 Hrest) as (Hgone & Hkept & Hnone).
  assert (∀ c, Fs.find t1 (Fs.locate cwd (tmp_path f)) ≠ Some (Fs.File c)) as Hf1.
  { intros c. unfold t1, Fs.unlinkSync.
    destruct (Fs.find t (Fs.locate cwd (tmp_path f))) as [[c'|m]|] eqn:Hp;
      [|by rewrite Hp..].
    by rewrite FsFacts.find_remove_at. }
  assert (∀ q c, Fs.find t q = Some (Fs.File c) → q ≠ Fs.locate cwd (tmp_path f) →
                 Fs.find t1 q = Some (Fs.File c)) as Hk1.
  { intros q c Hq Hne. unfold t1, Fs.unlinkSync.
    destruct (Fs.find t (Fs.locate cwd (tmp_path f))) as [[c'|m]|] eqn:Hp; [|done..].
    by eapply UnlinkFacts.find_unlink_other. }
  assert (∀ q, Fs.find t q = None → Fs.find t1 q = None) as Hn1.
  { intros q Hq. unfold t1, Fs.unlinkSync.
    destruct (Fs.find t (Fs.locate cwd (tmp_path f))) as [[c'|m]|]; [|done..].
    by apply FsFacts.find_remove_at_None. }
  split_and!.
  - intros f' c [->|Hin]%elem_of_cons; [|by apply Hgone].
    intros Hq%cleanupTempFiles_no_new_file. by eapply Hf1.
  - intros q c Hq Hout. rewrite fmap_cons in Hout.
    apply not_elem_of_cons in Hout as [Hne Hout]. apply Hkept; [|done]. by apply Hk1.
  - intros q Hq. by apply Hnone, Hn1.
Qed.

(** X11.  A batch rejected with 400 (a target outside the root, or a
    target that does not exist) is cleaned up: no temporary copy remains
    as a file, every other file is where it was, nothing has appeared,
    the undo record is untouched and no observer is notified.  The
    temporary copies are taken not to be the root of the filesystem. *)
Theorem rejected_upload_cleans_up (fuel : nat) (s : state) (currentPath : string)
    (files : list upfile) (o : outcome) :
  Forall (λ f, Fs.locate cwd (tmp_path f) ≠ []) files →
  post_upload cwd dev upload_directory fuel s currentPath files = Some o →
  status (res o) = 400 →
  (∀ f c, f ∈ files →
     Fs.find (tree (post o)) (Fs.locate cwd (tmp_path f)) ≠ Some (Fs.File c)) ∧
  (∀ q c, Fs.find (tree s) q = Some (Fs.File c) →
     q ∉ (Fs.locate cwd ∘ tmp_path <$> files) →
     Fs.find (tree (post o)) q = Some (Fs.File c)) ∧
  (∀ q, Fs.find (tree s) q = None → Fs.find (tree (post o)) q = None) ∧
  lastOperation (post o) = lastOperation s ∧
  emitted o = [].
Proof.
  intros Hfiles. unfold post_upload.
  destruct (cleanupTempFiles_clears files (tree s) Hfiles) as (Hgone & Hkept & Hnone).
  destruct (negb (isSafePath _ _ _)); [by intros [= <-] _|].
  destruct (negb (Fs.existsSync _ _ _)); [by intros [= <-] _|].
  destruct (storeFiles _ _ _ _ _ _ _) as [[[t names]|[[t file] e]]|];
    [by intros [= <-]..|done].
Qed.

End UploadBatch.

(** The state after that batch, and the undo of it. *)
Lemma undo_upload_removes_files_witness :
  let files := [mkUpfile "/tmp/1-x.txt" "x.txt"; mkUpfile "/tmp/2-x.txt" "x.txt"] in
  let s := match post_upload Scenario.cwd Scenario.dev Scenario.upload_directory 5
                   Scenario.fresh "" files with
           | Some o => post o
           | None => Scenario.fresh
           end in
  let stored := ["/srv/uploads/x_1.txt"; "/srv/uploads/x_2.txt"] in
  let u := post_undo Scenario.cwd Scenario.dev s true in
  Fs.is_dir (tree s) = true ∧
  lastOperation s = Some (OpUpload stored) ∧
  status (res u) = 200 ∧
  (∀ p, p ∈ stored → Fs.existsSync Scenario.cwd (tree (post u)) p = false) ∧
  (∀ q c, Fs.find (tree s) q = Some (Fs.File c) →
          q ∉ (Fs.locate Scenario.cwd <$> stored) →
          Fs.find (tree (post u)) q = Some (Fs.File c)) ∧
  (∀ q, Fs.find (tree s) q = None → Fs.find (tree (post u)) q = None) ∧
  lastOperation (post u) = None.
Proof.
  intros files s stored u.
  do 3 (split; [vm_compute; reflexivity|]).
  apply (undo_upload_removes_files Scenario.cwd Scenario.dev s stored);
    vm_compute; reflexivity.
Defined.

(** The same batch sent to a directory that does not exist. *)
Lemma rejected_upload_cleans_up_witness :
  let files := [mkUpfile "/tmp/1-x.txt" "x.txt"; mkUpfile "/tmp/2-x.txt" "x.txt"] in
  let s := Scenario.fresh in
  Forall (λ f, Fs.locate Scenario.cwd (tmp_path f) ≠ []) files ∧
  ∃ o,
    post_upload Scenario.cwd Scenario.dev Scenario.upload_directory 5 s "nowhere" files
      = Some o ∧
    status (res o) = 400 ∧
    (∀ f c, f ∈ files →
       Fs.find (tree (post o)) (Fs.locate Scenario.cwd (tmp_path f))
         ≠ Some (Fs.File c)) ∧
    (∀ q c, Fs.find (tree s) q = Some (Fs.File c) →
       q ∉ (Fs.locate Scenario.cwd ∘ tmp_path <$> files) →
       Fs.find (tree (post o)) q = Some (Fs.File c)) ∧
    (∀ q, Fs.find (tree s) q = None → Fs.find (tree (post o)) q = None) ∧
    lastOperation (post o) = lastOperation s ∧
    emitted o = [].
Proof.
  intros files s.
  assert (Forall (λ f, Fs.locate Scenario.cwd (tmp_path f) ≠ []) files) as Hfiles.
  { repeat (apply Forall_cons; split; [by vm_compute|]). constructor. }
  split; [exact Hfiles|]. eexists.
  split; [vm_compute; reflexivity|]. split; [vm_compute; reflexivity|].
  apply (rejected_upload_cleans_up Scenario.cwd Scenario.dev Scenario.upload_directory
           5 s "nowhere" files); [exact Hfiles|vm_compute; reflexivity..].
Defined.

(** * What [sanitizeError] leaves of a slash *)

Module SanitizeFacts.
Import Sanitize.

Lemma slashes_guarded_cons (c : ascii) (s : string) :
  slashes_guarded (String c s) = true ↔
  (c = "/"%char → s = EmptyString ∨ ∃ s', s = String colon s') ∧ slashes_guarded s = true.
Proof.
  cbn [slashes_guarded]. rewrite andb_true_iff.
  destruct (Ascii.eqb_spec c "/"%char) as [->|Hc].
  - destruct s as [|d s].
    + split; intros [_ Hs]; (split; [|exact Hs]); [intros _; by left|done].
    + destruct (Ascii.eqb_spec d colon) as [->|Hd].
      * split; intros [_ Hs]; (split; [|exact Hs]); [intros _; right; by eexists|done].
      * split; [by intros [? _]|]. intros [Hs _].
        destruct (Hs eq_refl) as [?|[s' ?]]; [done|congruence].
  - split; intros [_ Hs]; (split; [|exact Hs]); done.
Qed.

Lemma slashes_guarded_app (p r : string) :
  Path.has_slash p = false → p ≠ EmptyString →
  slashes_guarded (p +:+ r) = slashes_guarded r.
Proof.
  induction p as [|c p IH]; [done|]. intros Hp _.
  cbn [Path.has_slash] in Hp. apply orb_false_iff in Hp as [Hc Hp].
  change (String c p +:+ r) with (String c (p +:+ r)). cbn [slashes_guarded].
  unfold Path.slash in Hc. rewrite Hc. cbn [andb].
  destruct p as [|d p]; [done|]. by apply IH.
Qed.

(** The second replacement of [sanitizeError] leaves no path behind,
    wherever the scan stands. *)
Lemma replace_paths_guarded (s : string) (skip : nat) (eating : bool) :
  slashes_guarded (replace_paths abs_path_here 1 skip eating s) = true.
Proof.
  revert skip eating. induction s as [|c s IH]; intros skip eating; [done|].
  cbn [replace_paths]. destruct skip as [|k]; [|apply IH].
  destruct (eating && negb (Ascii.eqb c colon)); [apply IH|].
  destruct (abs_path_here (String c s)) eqn:Hhere.
  - rewrite slashes_guarded_app by done. apply IH.
  - apply slashes_guarded_cons. split; [|apply IH]. intros ->.
    destruct s as [|d s]; [by left|]. right.
    cbn [abs_path_here] in Hhere.
    destruct (Ascii.eqb_spec d colon) as [->|Hd]; [|done].
    assert (abs_path_here (String colon s) = false) as Hcolon by by destruct s.
    cbn [replace_paths andb]. rewrite Hcolon. by eexists.
Qed.

Lemma after_line_guarded (s : string) :
  slashes_guarded s = true → slashes_guarded (after_line s) = true.
Proof.
  induction s as [|c s IH]; [done|]. intros Hs. cbn [after_line].
  destruct (line_end c); [done|]. apply IH. by apply slashes_guarded_cons in Hs as [_ ?].
Qed.

(** Replacing an error code by its phrase brings no path back. *)
Lemma replace_code_guarded (c0 : ascii) (code phrase s : string) :
  c0 ≠ colon → Path.has_slash phrase = false → phrase ≠ EmptyString →
  slashes_guarded s = true →
  slashes_guarded (replace_code (String c0 code) phrase s) = true.
Proof.
  intros Hc0 Hphrase Hne. induction s as [|c s IH]; intros Hs; [done|].
  cbn [replace_code].
  destruct (String.prefix (String c0 code) (String c s)).
  { rewrite slashes_guarded_app by done. by apply after_line_guarded. }
  apply slashes_guarded_cons in Hs as [Hc Hs]. apply slashes_guarded_cons.
  split; [|by apply IH]. intros ->.
  destruct (Hc eq_refl) as [->|[s' ->]]; [by left|]. right.
  cbn [replace_code String.prefix]. destruct (ascii_dec c0 colon); [done|].
  by eexists.
Qed.

End SanitizeFacts.

(** What the guard says of the characters of [s]. *)
Lemma slashes_guarded_spec (s pre post : string) (c : ascii) :
  Sanitize.slashes_guarded s = true →
  s = pre +:+ String "/" (String c post) →
  c = Sanitize.colon.
Proof.
  revert s. induction pre as [|a pre IH]; intros s Hs ->.
  - apply SanitizeFacts.slashes_guarded_cons in Hs as [Hc _].
    destruct (Hc eq_refl) as [?|[s' ?]]; [done|]. by simplify_eq.
  - apply SanitizeFacts.slashes_guarded_cons in Hs as [_ Hs]. by eapply IH.
Qed.

(** X12.  In the message [sanitizeError] returns, a slash is followed by
    a colon or by nothing: no slash of the result has another character
    right after it.  That is all the path replacement guarantees.  A slash
    at the very end of the message stays as it is, and so does a slash
    with a colon behind it, with the text up to the next slash. *)
Theorem sanitizeError_guards_slashes :
  (∀ error pre post c,
     Sanitize.sanitizeError error = pre +:+ String "/" (String c post) → c = ":"%char) ∧
  Sanitize.sanitizeError "cannot remove /" = "cannot remove /" ∧
  Sanitize.sanitizeError "open '/:secret/key'" = "open '/:secret[file path]" ∧
  Sanitize.sanitizeError "ENOENT: no such file or directory, open '/srv/uploads/a.txt'"
    = "File or directory not found".
Proof.
  split; [|by vm_compute].
  intros error pre post c. apply slashes_guarded_spec.
  unfold Sanitize.sanitizeError.
  do 3 (apply SanitizeFacts.replace_code_guarded; [done..|]).
  apply SanitizeFacts.replace_paths_guarded.
Qed.

(** * The size of a directory *)

Lemma getFileSize_dir (m : gmap string Fs.node) :
  getFileSize (Fs.Dir m) = sum_list_with (λ kc, getFileSize kc.2) (map_to_list m).
Proof.
  change (getFileSize (Fs.Dir m))
    with (map_fold (λ _ c acc, getFileSize c + acc) 0 m).
  rewrite map_fold_foldr.
  induction (map_to_list m) as [|[k c] l IH]; [done|]. simpl. by rewrite IH.
Qed.

(** X13.  The size [getFileSize] gives for an entry is at least the size
    it gives for anything found below that entry. *)
Theorem getFileSize_monotone (n c : Fs.node) (p : list string) :
  Fs.find n p = Some c → getFileSize c ≤ getFileSize n.
Proof.
  revert n. induction p as [|s p IH]; intros n Hfind.
  { change (Fs.find n []) with (Some n) in Hfind. by simplify_eq. }
  destruct n as [d|m]; [done|]. rewrite FsFacts.find_cons in Hfind.
  destruct (m !! s) as [c1|] eqn:Hs; [|done]. cbn [mbind option_bind] in Hfind.
  etrans; [by apply IH|]. rewrite getFileSize_dir.
  apply elem_of_map_to_list in Hs.
  by apply (sum_list_with_in _ (λ kc : string * Fs.node, getFileSize kc.2)) in Hs.
Qed.

(** The uploads of the fresh installation inside its disk. *)
Lemma getFileSize_monotone_witness :
  Fs.find Scenario.disk ["srv"; "uploads"] = Some Scenario.uploads ∧
  getFileSize Scenario.uploads ≤ getFileSize Scenario.disk.
Proof.
  split; [vm_compute; reflexivity|].
  apply (getFileSize_monotone Scenario.disk Scenario.uploads ["srv"; "uploads"]).
  vm_compute. reflexivity.
Defined.

(** * The two origin checks *)

(** X14.  With [cors_origins] at its default, [same-origin], the
    middleware in front of every route turns away exactly the requests
    that [apiProtection] turns away when the restrictions are enabled; a
    request it hands on passes [apiProtection] whatever the setting. *)
Theorem same_origin_subsumes_apiProtection (enable : bool) (origin : option string)
    (host method : string) :
  (corsMiddleware (CorsString "same-origin") origin host method = CorsReject
   ↔ apiProtection true origin host = false) ∧
  (corsMiddleware (CorsString "same-origin") origin host method ≠ CorsReject
   ↔ apiProtection enable origin host = true ∧ apiProtection true origin host = true).
Proof.
  unfold corsMiddleware, apiProtection.
  rewrite (decide_True (P := "same-origin" = "same-origin")) by reflexivity.
  destruct origin as [o|].
  - assert ((if decide (o = EmptyString) is left _ then true
             else bool_decide (o = "http://" +:+ host)
                  || bool_decide (o = "https://" +:+ host))
            = bool_decide (o = EmptyString)
              || bool_decide (o = "http://" +:+ host)
              || bool_decide (o = "https://" +:+ host)) as ->.
    { destruct (decide (o = EmptyString)) as [E|E].
      - by rewrite (bool_decide_eq_true_2 _ E).
      - by rewrite (bool_decide_eq_false_2 _ E). }
    generalize (bool_decide (o = EmptyString)), (bool_decide (o = "http://" +:+ host)),
      (bool_decide (o = "https://" +:+ host)), (decide (method = "OPTIONS")).
    clear. intros e1 e2 e3 [?|?]; destruct enable, e1, e2, e3; cbn [negb andb orb].
    all: split; split; first [discriminate | reflexivity | tauto | by intros [? ?]
                             | intros _; split; reflexivity | intros _; discriminate].
  - generalize (decide (method = "OPTIONS")).
    clear. intros [?|?]; destruct enable; cbn [negb].
    all: split; split; first [discriminate | reflexivity | tauto | by intros [? ?]
                             | intros _; split; reflexivity | intros _; discriminate].
Qed.

(** * What a sweep visits and reports *)

Section Sweep.

Variable cwd : string.
Variable upload_directory : string.
Variable mtimeMs : string → Z.
Variable t : Fs.node.

Abbreviation told := (reported cwd upload_directory mtimeMs).

(** X15.  On a well-formed tree whose root directory exists, a sweep
    with enough fuel visits the root and, with every directory it visits,
    each of its subdirectories, and nothing else; it records the current
    time of every directory it visits, and it emits, in visiting order,
    the path of each visited directory whose recorded time differs from
    its current time. *)
Theorem sweep_reports_changed_directories (lastMtimes : gmap string Z) :
  let base := BASE_DIR cwd upload_directory in
  Path.isAbsolute cwd = true →
  Fs.wf t = true →
  (∃ m, Fs.find t (Fs.locate cwd base) = Some (Fs.Dir m)) →
  ∃ n, ∀ fuel, n ≤ fuel →
    ∃ visited recorded,
      pollForChanges cwd upload_directory mtimeMs fuel t lastMtimes
        = Some (recorded, omap (told lastMtimes) visited) ∧
      base ∈ visited ∧
      (∀ d, d ∈ visited →
         ∃ m, Fs.find t (Fs.locate cwd d) = Some (Fs.Dir m) ∧
           ∀ k m', m !! k = Some (Fs.Dir m') → Path.join d k ∈ visited) ∧
      (∀ d, d ∈ visited →
         d = base ∨
         ∃ p m k m', p ∈ visited ∧ Fs.find t (Fs.locate cwd p) = Some (Fs.Dir m) ∧
           m !! k = Some (Fs.Dir m') ∧ d = Path.join p k) ∧
      (∀ d, recorded !! d = if decide (d ∈ visited) then Some (mtimeMs d) else None).
Proof.
  intros base Hcwd Hwf [m Hm].
  assert (Path.isAbsolute base = true) as Habs
    by by apply PathFacts.isAbsolute_resolve.
  exists (S (dir_weight cwd t base)). intros fuel Hfuel.
  destruct (walk_completes cwd upload_directory mtimeMs t fuel lastMtimes [base] ∅ [])
    as (recorded & events & Hwalk).
  { constructor; [|done]. split; [done|]. exists m. split; [done|].
    by eapply FsFacts.wf_find. }
  { simpl. lia. }
  destruct (walk_visits _ _ _ _ _ _ _ _ _ _ _ Hwalk)
    as (visited & -> & Hrec & Hsub & Hclosed & Hreach).
  assert (∀ d entries, Fs.readdirSync cwd t d = Fs.Ok entries →
            ∃ m, Fs.find t (Fs.locate cwd d) = Some (Fs.Dir m) ∧
                 entries = prod_map id Fs.is_dir <$> map_to_list m) as Hdir.
  { intros d entries. unfold Fs.readdirSync.
    destruct (Fs.find t (Fs.locate cwd d)) as [[c|m']|]; [done| |done].
    intros [= <-]. by exists m'. }
  exists visited, recorded. unfold pollForChanges. fold base. rewrite Hwalk.
  split_and!; [done| | | |].
  - apply Hsub. by left.
  - intros d Hd. destruct (Hclosed d Hd) as (entries & Hread & Hsubs).
    destruct (Hdir d entries Hread) as (m1 & Hm1 & ->).
    exists m1. split; [done|]. intros k m' Hk.
    apply (Hsubs (k, true)); [|done].
    apply (list_elem_of_fmap_2' (prod_map id Fs.is_dir) _ (k, Fs.Dir m')); [|done].
    by apply elem_of_map_to_list.
  - intros d Hd. destruct (Hreach d Hd) as [Hb|(p & entries & e & Hp & Hread & He & Hk & ->)].
    { left. by apply list_elem_of_singleton in Hb. }
    right. destruct (Hdir p entries Hread) as (m1 & Hm1 & ->).
    apply list_elem_of_fmap in He as ([k n] & -> & Hin).
    apply elem_of_map_to_list in Hin. cbn in Hk. destruct n as [c|m']; [done|].
    by exists p, m1, k, m'.
  - intros d. rewrite Hrec. by rewrite lookup_empty.
Qed.

End Sweep.

(** The fresh installation, swept from a map with one stale time. *)
Lemma sweep_reports_changed_directories_witness :
  let base := BASE_DIR Scenario.cwd Scenario.upload_directory in
  Path.isAbsolute Scenario.cwd = true ∧
  Fs.wf Scenario.disk = true ∧
  (∃ m, Fs.find Scenario.disk (Fs.locate Scenario.cwd base) = Some (Fs.Dir m)) ∧
  ∃ n, ∀ fuel, n ≤ fuel →
    ∃ visited recorded,
      pollForChanges Scenario.cwd Scenario.upload_directory Scenario.mtimeMs fuel
        Scenario.disk Scenario.lastMtimes
        = Some (recorded,
                omap (reported Scenario.cwd Scenario.upload_directory Scenario.mtimeMs
                        Scenario.lastMtimes) visited) ∧
      base ∈ visited ∧
      (∀ d, d ∈ visited →
         ∃ m, Fs.find Scenario.disk (Fs.locate Scenario.cwd d) = Some (Fs.Dir m) ∧
           ∀ k m', m !! k = Some (Fs.Dir m') → Path.join d k ∈ visited) ∧
      (∀ d, d ∈ visited →
         d = base ∨
         ∃ p m k m', p ∈ visited ∧
           Fs.find Scenario.disk (Fs.locate Scenario.cwd p) = Some (Fs.Dir m) ∧
           m !! k = Some (Fs.Dir m') ∧ d = Path.join p k) ∧
      (∀ d, recorded !! d
            = if decide (d ∈ visited) then Some (Scenario.mtimeMs d) else None).
Proof.
  intros base.
  assert (∃ m, Fs.find Scenario.disk (Fs.locate Scenario.cwd base) = Some (Fs.Dir m))
    as Hbase by (eexists; vm_compute; reflexivity).
  split; [reflexivity|]. split; [vm_compute; reflexivity|]. split; [exact Hbase|].
  apply (sweep_reports_changed_directories Scenario.cwd Scenario.upload_directory
           Scenario.mtimeMs Scenario.disk Scenario.lastMtimes);
    [reflexivity|vm_compute; reflexivity|exact Hbase].
Defined.

(** * Stale temporary uploads *)

Module RemoveFacts.
Import Fs FsFacts.

Local Arguments find : simpl never.
Local Arguments remove_at : simpl never.

(** Detaching [a] changes nothing at a place that is neither below [a]
    nor on the way to it. *)
Lemma find_remove_at_apart (t : node) (a q : list string) :
  ¬ a `prefix_of` q → ¬ q `prefix_of` a →
  find (remove_at t a) q = find t q.
Proof.
  revert t q. induction a as [|s a IH]; intros t q Haq Hqa.
  { exfalso. apply Haq, prefix_nil. }
  destruct q as [|s' q]; [exfalso; apply Hqa, prefix_nil|].
  destruct t as [c0|m]; [done|].
  destruct a as [|s2 a].
  - rewrite remove_at_one, !find_cons. destruct (decide (s = s')) as [->|Hne].
    + exfalso. apply Haq. by apply prefix_cons, prefix_nil.
    + by rewrite lookup_delete_ne.
  - rewrite remove_at_more.
    destruct (m !! s) as [c1|] eqn:Hs; [|done].
    rewrite !find_cons. destruct (decide (s = s')) as [->|Hne].
    + rewrite lookup_insert_eq, Hs. cbn [mbind option_bind].
      apply IH; intros Hp; [apply Haq|apply Hqa]; by apply prefix_cons.
    + by rewrite lookup_insert_ne.
Qed.

(** Detaching the entry [k'] of a directory leaves its entry [k] alone. *)
Lemma find_remove_at_sibling (t : node) (l : list string) (k k' : string) :
  k ≠ k' → find (remove_at t (l ++ [k'])) (l ++ [k]) = find t (l ++ [k]).
Proof.
  intros Hne. apply find_remove_at_apart.
  - intros [r Hr]. rewrite <- app_assoc in Hr. apply app_inv_head in Hr.
    simplify_eq/=.
  - intros [r Hr]. rewrite <- app_assoc in Hr. apply app_inv_head in Hr.
    simplify_eq/=.
Qed.

End RemoveFacts.

Section CleanTemp.

Variable cwd : string.
Variable temp_upload_directory : string.
Variable mtimeMs : string → Z.
Variable now : Z.

Abbreviation temp := (TEMP_DIR cwd temp_upload_directory).
Abbreviation stale :=
  (λ k : string, (maxAge <? now - mtimeMs (Path.join temp k))%Z).
Abbreviation clean_one := (cleanTempFile cwd temp_upload_directory mtimeMs now).

(** One round of the loop: the file goes when it is a stale regular
    file, and nothing else changes. *)
Lemma cleanTempFile_step (t : Fs.node) (k : string) :
  Path.isAbsolute temp = true → Path.is_name k = true →
  clean_one t k =
  match Fs.find t (Fs.locate cwd temp ++ [k]) with
  | Some (Fs.File _) =>
      if stale k then Fs.remove_at t (Fs.locate cwd temp ++ [k]) else t
  | _ => t
  end.
Proof.
  intros Habs Hk. unfold cleanTempFile, Fs.stat, Fs.unlinkSync.
  rewrite PathFacts.locate_join by done.
  destruct (Fs.find t (Fs.locate cwd temp ++ [k])) as [[c|m]|]; [|done..].
  by destruct (_ <? _)%Z.
Qed.

Lemma bool_decide_elem_of_cons_ne (k f : string) (files : list string) :
  k ≠ f → bool_decide (k ∈ f :: files) = bool_decide (k ∈ files).
Proof.
  intros Hne. apply bool_decide_ext. rewrite elem_of_cons.
  split; [by intros [?|?]|by right].
Qed.

Lemma cleanTempFiles_spec (files : list string) (t : Fs.node) :
  Path.isAbsolute temp = true →
  Forall (λ k, Path.is_name k = true) files →
  let t' := fold_left clean_one files t in
  (∀ k, Fs.find t' (Fs.locate cwd temp ++ [k]) =
        match Fs.find t (Fs.locate cwd temp ++ [k]) with
        | Some (Fs.File c) =>
            if stale k && bool_decide (k ∈ files) then None else Some (Fs.File c)
        | other => other
        end) ∧
  (∀ q c, Fs.find t q = Some (Fs.File c) →
          (∀ k, q ≠ Fs.locate cwd temp ++ [k]) →
          Fs.find t' q = Some (Fs.File c)) ∧
  (∀ q, Fs.find t q = None → Fs.find t' q = None).
Proof.
  intros Habs. revert t. induction files as [|f files IH]; intros t Hfiles.
  { cbn [fold_left]. split_and!; [|done..]. intros k.
    destruct (Fs.find t _) as [[c|m]|]; [|done..]. by rewrite andb_false_r. }
  apply Forall_cons in Hfiles as [Hf Hfiles].
  cbn [fold_left]. destruct (IH (clean_one t f) Hfiles) as (Hin & Hkept & Hnone).
  rewrite cleanTempFile_step in Hin, Hkept, Hnone |- * by done.
  assert (Fs.locate cwd temp ++ [f] ≠ []) as Ha by by destruct (Fs.locate cwd temp).
  destruct (Fs.find t (Fs.locate cwd temp ++ [f])) as [[c|m]|] eqn:Hfa.
  - destruct (stale f) eqn:Hstale.
    + split_and!.
      * intros k. rewrite Hin. destruct (decide (k = f)) as [->|Hne].
        -- rewrite FsFacts.find_remove_at, Hfa, Hstale by done.
           by rewrite bool_decide_eq_true_2 by by left.
        -- rewrite RemoveFacts.find_remove_at_sibling by done.
           by rewrite bool_decide_elem_of_cons_ne.
      * intros q c' Hq Hout. apply Hkept; [|done].
        eapply UnlinkFacts.find_unlink_other; [done..|]. apply Hout.
      * intros q Hq. by apply Hnone, FsFacts.find_remove_at_None.
    + split_and!; [|done..]. intros k. rewrite Hin.
      destruct (decide (k = f)) as [->|Hne].
      * by rewrite Hfa, Hstale.
      * by rewrite bool_decide_elem_of_cons_ne.
  - split_and!; [|done..]. intros k. rewrite Hin.
    destruct (decide (k = f)) as [->|Hne]; [by rewrite Hfa|].
    by rewrite bool_decide_elem_of_cons_ne.
  - split_and!; [|done..]. intros k. rewrite Hin.
    destruct (decide (k = f)) as [->|Hne]; [by rewrite Hfa|].
    by rewrite bool_decide_elem_of_cons_ne.
Qed.

(** X16.  In a well-formed tree whose temporary directory exists,
    [cleanTempUploads] removes from that directory exactly the regular
    files last modified more than an hour before: every other entry of
    the directory stays as it is, every file elsewhere in the tree stays,
    and nothing appears. *)
Theorem cleanTempUploads_removes_stale_files (t : Fs.node) (m : gmap string Fs.node) :
  let t' := cleanTempUploads cwd temp_upload_directory mtimeMs now t in
  Path.isAbsolute cwd = true →
  Fs.wf t = true →
  Fs.find t (Fs.locate cwd temp) = Some (Fs.Dir m) →
  (∀ k n, m !! k = Some n →
     Fs.find t' (Fs.locate cwd temp ++ [k]) =
     if negb (Fs.is_dir n) && (60 * 60 * 1000 <? now - mtimeMs (Path.join temp k))%Z
     then None else Some n) ∧
  (∀ q c, Fs.find t q = Some (Fs.File c) →
          (∀ k, q ≠ Fs.locate cwd temp ++ [k]) →
          Fs.find t' q = Some (Fs.File c)) ∧
  (∀ q, Fs.find t q = None → Fs.find t' q = None).
Proof.
  intros t' Hcwd Hwf Hm. subst t'.
  assert (Path.isAbsolute temp = true) as Habs
    by by apply PathFacts.isAbsolute_resolve.
  unfold cleanTempUploads, Fs.readdirSync. rewrite Hm.
  rewrite <- list_fmap_compose.
  rewrite (list_fmap_ext (fst ∘ prod_map id Fs.is_dir) fst (map_to_list m))
    by by intros ? [].
  assert (Fs.wf (Fs.Dir m) = true) as Hwfm by by eapply FsFacts.wf_find.
  destruct (cleanTempFiles_spec (map_to_list m).*1 t Habs) as (Hin & Hkept & Hnone).
  { apply Forall_forall. intros k [[k' n] [-> Hk]]%list_elem_of_fmap.
    apply elem_of_map_to_list in Hk. by eapply (proj1 (FsFacts.wf_dir m)). }
  split_and!; [|done..]. intros k n Hk. rewrite Hin.
  rewrite find_app, Hm. cbn [mbind option_bind]. rewrite FsFacts.find_cons, Hk.
  cbn [mbind option_bind]. change (Fs.find n []) with (Some n).
  destruct n as [c|m']; [|done]. cbn [Fs.is_dir negb andb].
  rewrite (bool_decide_eq_true_2 (k ∈ (map_to_list m).*1)), andb_true_r; [done|].
  apply list_elem_of_fmap. exists (k, Fs.File c). split; [done|].
  by apply elem_of_map_to_list.
Qed.

End CleanTemp.

(** The two temporary copies of the fresh installation, an hour and a
    bit after they were written. *)
Lemma cleanTempUploads_removes_stale_files_witness :
  let cwd := Scenario.cwd in
  let temp := TEMP_DIR cwd "tmp" in
  let t := Scenario.disk in
  let m : gmap string Fs.node :=
    {[ "1-x.txt" := Fs.File "one"; "2-x.txt" := Fs.File "two" ]} in
  let t' := cleanTempUploads cwd "tmp" Scenario.mtimeMs 3700000 t in
  Path.isAbsolute cwd = true ∧
  Fs.wf t = true ∧
  Fs.find t (Fs.locate cwd temp) = Some (Fs.Dir m) ∧
  (∀ k n, m !! k = Some n →
     Fs.find t' (Fs.locate cwd temp ++ [k]) =
     if negb (Fs.is_dir n)
        && (60 * 60 * 1000 <? 3700000 - Scenario.mtimeMs (Path.join temp k))%Z
     then None else Some n) ∧
  (∀ q c, Fs.find t q = Some (Fs.File c) →
          (∀ k, q ≠ Fs.locate cwd temp ++ [k]) →
          Fs.find t' q = Some (Fs.File c)) ∧
  (∀ q, Fs.find t q = None → Fs.find t' q = None).
Proof.
  intros cwd temp t m t'.
  split; [reflexivity|]. split; [vm_compute; reflexivity|].
  split; [vm_compute; reflexivity|].
  apply (cleanTempUploads_removes_stale_files Scenario.cwd "tmp" Scenario.mtimeMs
           3700000 Scenario.disk m);
    [reflexivity|vm_compute; reflexivity..].
Defined.

(** * A folder created where the parent is missing *)

Module MkdirParents.
Import Fs FsFacts.

Local Arguments find : simpl never.
Local Arguments remove_at : simpl never.
Local Arguments mkdirp : simpl never.

(** After [mkdir -p] every step of the way is a directory, and every
    file is where it was. *)
Lemma mkdirp_spec (t t' : node) (p : list string) :
  mkdirp t p = inl t' →
  (∀ q, q `prefix_of` p → ∃ m, find t' q = Some (Dir m)) ∧
  (∀ q c, find t q = Some (File c) → find t' q = Some (File c)).
Proof.
  revert t t'. induction p as [|s p IH]; intros t t'.
  - destruct t as [c|m]; [done|]. intros [= <-]. split; [|done].
    intros q ->%prefix_nil_inv. by exists m.
  - destruct t as [c|m]; [done|]. rewrite MkdirFacts.mkdirp_cons.
    destruct (mkdirp (default (Dir ∅) (m !! s)) p) as [c1|e] eqn:Hmk; [|done].
    intros [= <-]. destruct (IH _ _ Hmk) as [Hway Hfiles]. split.
    + intros [|s' q] Hq; [by eexists|].
      apply prefix_cons_inv_1 in Hq as Hs. subst s'.
      apply prefix_cons_inv_2 in Hq.
      rewrite find_cons, lookup_insert_eq. cbn [mbind option_bind]. by apply Hway.
    + intros [|s' q] c Hq; [done|]. rewrite find_cons in Hq |- *.
      destruct (decide (s = s')) as [->|Hne]; [|by rewrite lookup_insert_ne].
      rewrite lookup_insert_eq. cbn [mbind option_bind].
      destruct (m !! s') as [c0|]; [|done]. by apply Hfiles.
Qed.

(** Detaching an entry leaves the directory it was in. *)
Lemma find_remove_at_parent (t : node) (l : list string) (n : string)
    (m : gmap string node) :
  find t l = Some (Dir m) →
  find (remove_at t (l ++ [n])) l = Some (Dir (delete n m)).
Proof.
  revert t. induction l as [|s l IH]; intros t Hl.
  - change (find t []) with (Some t) in Hl. by simplify_eq.
  - destruct t as [c|m0]; [done|]. rewrite find_cons in Hl.
    destruct (m0 !! s) as [c|] eqn:Hs; [|done]. cbn [mbind option_bind] in Hl.
    change ((s :: l) ++ [n]) with (s :: (l ++ [n])).
    assert (∃ s' p, l ++ [n] = s' :: p) as (s' & p & Hp)
      by (destruct l; by eexists _, _).
    rewrite Hp, remove_at_more, Hs, find_cons, lookup_insert_eq.
    cbn [mbind option_bind]. rewrite <- Hp. by apply IH.
Qed.

End MkdirParents.

Section CreateFolderParents.

Variable cwd : string.
Variable dev : list string → nat.
Variable upload_directory : string.

(** X17.  The folder route does not ask for the current directory to
    exist: when it answers 200 for a plain one-segment name, the new
    folder and every directory on the way to it exist, created where
    they were missing, and every file is where it was.  An immediate
    undo removes the new folder only: the current directory is there
    afterwards even when it was not before the request. *)
Theorem create_folder_makes_missing_parents (s : state) (currentPath name : string) :
  let root := BASE_DIR cwd upload_directory in
  let parentDir := safeJoin cwd root currentPath in
  let newFolderPath := Path.join parentDir (Js.trim name) in
  let o := post_create_folder cwd upload_directory s true currentPath name in
  let u := post_undo cwd dev (post o) true in
  Path.isAbsolute cwd = true →
  Path.is_name (Js.trim name) = true →
  status (res o) = 200 →
  (∀ q, q `prefix_of` Fs.locate cwd newFolderPath →
        ∃ m, Fs.find (tree (post o)) q = Some (Fs.Dir m)) ∧
  (∀ q c, Fs.find (tree s) q = Some (Fs.File c) →
          Fs.find (tree (post o)) q = Some (Fs.File c)) ∧
  status (res u) = 200 ∧
  Fs.existsSync cwd (tree (post u)) newFolderPath = false ∧
  Fs.existsSync cwd (tree (post u)) parentDir = true.
Proof.
  intros root parentDir newFolderPath o u Hcwd Hname.
  assert (Path.isAbsolute parentDir = true) as Habs
    by by apply PathFacts.isAbsolute_resolve.
  assert (Fs.locate cwd newFolderPath = Fs.locate cwd parentDir ++ [Js.trim name]) as Hloc
    by by apply PathFacts.locate_join.
  subst u o. unfold post_create_folder. cbn [negb].
  fold root. fold parentDir. fold newFolderPath.
  destruct (decide (Js.trim name = EmptyString)); [done|].
  destruct (negb (isValidFileName _) || negb (isValidPath _)); [done|].
  destruct (negb (isSafePath _ _ _)); [done|].
  destruct (Fs.existsSync cwd (tree s) newFolderPath); [done|].
  unfold Fs.mkdir.
  destruct (Fs.mkdirp (tree s) (Fs.locate cwd newFolderPath)) as [t'|e] eqn:Hmk; [|done].
  intros _. cbn [post res tree].
  destruct (MkdirParents.mkdirp_spec _ _ _ Hmk) as [Hway Hfiles].
  split; [done|]. split; [done|].
  destruct (Hway (Fs.locate cwd newFolderPath)) as [m Hnew]; [done|].
  destruct (Hway (Fs.locate cwd parentDir)) as [mp Hparent].
  { rewrite Hloc. by apply prefix_app_r. }
  unfold post_undo, revert_operation. cbn [negb lastOperation tree].
  assert (Fs.existsSync cwd t' newFolderPath = true) as ->.
  { apply (existsSync_true cwd). by rewrite Hnew. }
  unfold Fs.rmSync.
  destruct (Fs.locate cwd newFolderPath) as [|x l] eqn:Hnil.
  { by destruct (Fs.locate cwd parentDir). }
  cbn [res status post tree]. split; [done|]. split.
  - apply (existsSync_false cwd). rewrite Hnil. by apply FsFacts.find_remove_at.
  - apply (existsSync_true cwd). rewrite Hloc.
    by rewrite (MkdirParents.find_remove_at_parent _ _ _ mp).
Qed.

End CreateFolderParents.

(** A folder [new] asked for in [nowhere/deep], which the fresh
    installation does not have. *)
Lemma create_folder_makes_missing_parents_witness :
  let cwd := Scenario.cwd in
  let s := Scenario.fresh in
  let root := BASE_DIR cwd Scenario.upload_directory in
  let parentDir := safeJoin cwd root "nowhere/deep" in
  let newFolderPath := Path.join parentDir (Js.trim "new") in
  let o := post_create_folder cwd Scenario.upload_directory s true "nowhere/deep" "new" in
  let u := post_undo cwd Scenario.dev (post o) true in
  Path.isAbsolute cwd = true ∧
  Path.is_name (Js.trim "new") = true ∧
  status (res o) = 200 ∧
  Fs.existsSync cwd (tree s) parentDir = false ∧
  (∀ q, q `prefix_of` Fs.locate cwd newFolderPath →
        ∃ m, Fs.find (tree (post o)) q = Some (Fs.Dir m)) ∧
  (∀ q c, Fs.find (tree s) q = Some (Fs.File c) →
          Fs.find (tree (post o)) q = Some (Fs.File c)) ∧
  status (res u) = 200 ∧
  Fs.existsSync cwd (tree (post u)) newFolderPath = false ∧
  Fs.existsSync cwd (tree (post u)) parentDir = true.
Proof.
  intros cwd s root parentDir newFolderPath o u.
  do 4 (split; [first [reflexivity | vm_compute; reflexivity]|]).
  apply (create_folder_makes_missing_parents Scenario.cwd Scenario.dev
           Scenario.upload_directory Scenario.fresh "nowhere/deep" "new");
    first [reflexivity | vm_compute; reflexivity].
Defined.

(** * Where a rename to a plain name leads *)

Module DirnameFacts.
Import Path PathFacts.

Lemma dirname_end_clean (ms : bool) (xs : list ascii) :
  Forall (λ c, c ≠ slash) xs → dirname_end ms xs = None.
Proof.
  intros Hxs. revert ms. induction Hxs as [|c xs Hc Hxs IH]; intros ms; [done|].
  cbn [dirname_end]. destruct (Ascii.eqb_spec c slash); [done|]. apply IH.
Qed.

(** The scan stops at the first separator it meets after a character
    that is not one. *)
Lemma dirname_end_stop (ms : bool) (x : ascii) (xs r : list ascii) :
  Forall (λ c, c ≠ slash) (x :: xs) →
  dirname_end ms ((x :: xs) ++ slash :: r) = Some (S (length r)).
Proof.
  intros [Hx Hxs]%Forall_cons. cbn [app dirname_end].
  destruct (Ascii.eqb_spec x slash); [done|]. clear Hx ms.
  induction Hxs as [|c xs Hc Hxs IH]; cbn [app dirname_end].
  - by rewrite Ascii.eqb_refl.
  - by destruct (Ascii.eqb_spec c slash).
Qed.

(** The directory part of a canonical absolute path is the canonical
    path of all its segments but the last. *)
Lemma dirname_rendered (L : list string) :
  Forall (λ c, is_name c = true) L →
  dirname (String slash (join_segs L)) = String slash (join_segs (removelast L)).
Proof.
  intros HL. destruct L as [|x0 L0] using rev_ind; [done|]. clear IHL0.
  apply Forall_app in HL as [HL [Hx _]%Forall_cons].
  apply is_name_spec in Hx as (Hne & _ & _ & Hslash).
  apply has_slash_to_list in Hslash.
  rewrite removelast_last. unfold dirname.
  change (Js.to_list (String slash ?s)) with (slash :: Js.to_list s).
  lazy beta iota zeta. rewrite Ascii.eqb_refl.
  destruct (Js.to_list x0) as [|c cs] eqn:Hx0.
  { exfalso. apply Hne. by rewrite <- (of_to_list x0), Hx0. }
  destruct (decide (L0 = [])) as [->|HL0].
  - cbn [app join_segs]. rewrite dirname_end_clean; [done|].
    rewrite Hx0. by apply Forall_rev.
  - rewrite SandboxFacts.join_segs_app by done. cbn [join_segs].
    rewrite to_list_app.
    change (Js.to_list (String slash x0)) with (slash :: Js.to_list x0).
    rewrite Hx0, rev_app_distr.
    change (rev (slash :: c :: cs)) with (rev (c :: cs) ++ [slash]).
    rewrite <- app_assoc. cbn [app].
    assert (∃ y ys, rev (c :: cs) = y :: ys) as (y & ys & Hrev).
    { destruct (rev (c :: cs)) as [|y ys] eqn:E; [|by eexists _, _].
      apply (f_equal (@length _)) in E. rewrite length_rev in E. done. }
    assert (Forall (λ c, c ≠ slash) (y :: ys)) as Hys.
    { rewrite <- Hrev. by apply Forall_rev. }
    rewrite Hrev, (dirname_end_stop _ _ _ _ Hys), length_rev.
    assert (Js.to_list (join_segs L0) ≠ []) as HJ.
    { intros E. apply (f_equal Js.of_list) in E. rewrite of_to_list in E.
      apply SandboxFacts.join_segs_nil_inv in E; done. }
    destruct (Js.to_list (join_segs L0)) as [|j js] eqn:Hj; [done|].
    cbn [length Nat.eqb andb].
    change (take (S (S (length js))) (slash :: (j :: js) ++ slash :: c :: cs))
      with (slash :: take (S (length js)) ((j :: js) ++ slash :: c :: cs)).
    rewrite (take_app_length' (j :: js)) by done.
    change (Js.of_list (slash :: j :: js)) with (String slash (Js.of_list (j :: js))).
    by rewrite <- Hj, of_to_list.
Qed.

(** What [path.resolve] returns in a process with an absolute working
    directory is canonical. *)
Lemma resolve_rendered (cwd p : string) :
  isAbsolute cwd = true →
  resolve cwd p = String slash (join_segs (Fs.locate cwd (resolve cwd p))).
Proof.
  intros Hcwd.
  assert (∃ x, resolve cwd p = String slash (join_segs (normalize_segs false x)))
    as [x ->].
  { unfold resolve. rewrite Hcwd, orb_true_r. by eexists. }
  rewrite locate_absolute by apply isAbsolute_cons.
  by rewrite normalize_segs_render by apply normalize_segs_clean.
Qed.

End DirnameFacts.

Section RenameBeside.

Variable cwd : string.
Variable upload_directory : string.

(** X18.  The path the rename route builds for a plain one-segment new
    name leads to the place beside the old entry: the segments of the old
    location but the last, then the new name.  So an entry strictly below
    the root stays below the root. *)
Theorem rename_to_plain_name_stays_beside (oldPath name : string) :
  let root := BASE_DIR cwd upload_directory in
  let old := safeJoin cwd root oldPath in
  let new := Path.join (Path.dirname old) (Js.trim name) in
  Path.isAbsolute cwd = true →
  Path.is_name (Js.trim name) = true →
  Fs.locate cwd new = removelast (Fs.locate cwd old) ++ [Js.trim name] ∧
  (Fs.locate cwd root `prefix_of` Fs.locate cwd old →
   Fs.locate cwd old ≠ Fs.locate cwd root →
   Fs.locate cwd root `prefix_of` Fs.locate cwd new).
Proof.
  intros root old new Hcwd Hname.
  assert (Fs.locate cwd new = removelast (Fs.locate cwd old) ++ [Js.trim name]) as Hnew.
  { subst new. unfold old at 1, safeJoin.
    rewrite (DirnameFacts.resolve_rendered cwd _ Hcwd).
    fold (safeJoin cwd root oldPath). fold old.
    rewrite DirnameFacts.dirname_rendered by apply PathFacts.locate_clean.
    rewrite PathFacts.locate_join by (done || apply PathFacts.isAbsolute_cons).
    rewrite PathFacts.locate_absolute by apply PathFacts.isAbsolute_cons.
    rewrite PathFacts.normalize_segs_render; [done|].
    clear. induction (PathFacts.locate_clean cwd old) as [|x l Hx Hl IH]; [done|].
    destruct l; [done|]. cbn [removelast]. by constructor. }
  split; [done|]. intros [k Hk] Hne. rewrite Hnew, Hk.
  destruct k as [|x k]; [by rewrite app_nil_r in Hk|].
  rewrite removelast_app by done. rewrite <- app_assoc. by eexists.
Qed.

End RenameBeside.

(** The file [d/e.txt] of the fresh installation, to be renamed [f.txt]. *)
Lemma rename_to_plain_name_stays_beside_witness :
  let cwd := Scenario.cwd in
  let root := BASE_DIR cwd Scenario.upload_directory in
  let old := safeJoin cwd root "d/e.txt" in
  let new := Path.join (Path.dirname old) (Js.trim " f.txt") in
  Path.isAbsolute cwd = true ∧
  Path.is_name (Js.trim " f.txt") = true ∧
  Fs.locate cwd new = removelast (Fs.locate cwd old) ++ [Js.trim " f.txt"] ∧
  (Fs.locate cwd root `prefix_of` Fs.locate cwd old →
   Fs.locate cwd old ≠ Fs.locate cwd root →
   Fs.locate cwd root `prefix_of` Fs.locate cwd new).
Proof.
  intros cwd root old new. split; [reflexivity|]. split; [vm_compute; reflexivity|].
  apply (rename_to_plain_name_stays_beside Scenario.cwd Scenario.upload_directory
           "d/e.txt" " f.txt"); [reflexivity|vm_compute; reflexivity].
Defined.

(** * The extension of a numbered duplicate *)

Module ExtFacts.
Import Path PathFacts.

Lemma lastDot_app (a b : list ascii) :
  lastDot (a ++ b) =
  match lastDot b with
  | Some j => Some (length a + j)
  | None => lastDot a
  end.
Proof.
  induction a as [|c a IH]; cbn [app lastDot length].
  - by destruct (lastDot b).
  - rewrite IH. by destruct (lastDot b).
Qed.

(** From the last dot on there is one dot, the first character. *)
Lemma lastDot_drop (l : list ascii) (j : nat) :
  lastDot l = Some j → j < length l ∧ lastDot (drop j l) = Some 0.
Proof.
  revert j. induction l as [|c l IH]; intros j; [done|]. cbn [lastDot].
  destruct (lastDot l) as [i|] eqn:Hl.
  - intros [= <-]. destruct (IH i eq_refl) as [Hi Hd]. cbn [length drop].
    split; [lia|done].
  - destruct (Ascii.eqb c "."%char) eqn:Hc; [|done]. intros [= <-].
    cbn [length drop lastDot]. rewrite Hl, Hc. split; [lia|done].
Qed.

Lemma lastDot_uint (d : Decimal.uint) :
  lastDot (Js.to_list (NilEmpty.string_of_uint d)) = None.
Proof.
  induction d; cbn [NilEmpty.string_of_uint]; [done|..].
  all: change (Js.to_list (String ?c ?s)) with (c :: Js.to_list s).
  all: cbn [lastDot]; by rewrite IHd.
Qed.

(** A name is its own last component. *)
Lemma lastSegment_name (c : string) : is_name c = true → lastSegment c = c.
Proof.
  intros (Hne & _ & _ & Hslash)%is_name_spec. unfold lastSegment.
  rewrite split_no_slash by done. cbn [rev app]. rewrite filter_cons, decide_True by done.
  done.
Qed.

End ExtFacts.

(** X19.  A numbered duplicate keeps the extension of the name it was
    made from, unless the last component of that name is [..]. *)
Theorem numbered_keeps_extension (originalName : string) (counter : nat) :
  Path.lastSegment originalName ≠ ".." →
  Path.extname (numbered originalName counter) = Path.extname originalName.
Proof.
  intros Hdots.
  pose proof (ExtFacts.lastSegment_name _ (NameFacts.numbered_name originalName counter))
    as Hseg.
  unfold Path.extname at 1. rewrite Hseg. clear Hseg.
  unfold numbered. rewrite !PathFacts.to_list_app.
  change (Js.to_list "_") with ["_"%char].
  set (digits := Js.to_list (Js.of_nat counter)).
  assert (Path.lastDot digits = None) as Hdigits by apply ExtFacts.lastDot_uint.
  unfold Path.basename, Path.extname.
  set (seg := Path.lastSegment originalName) in *.
  destruct (Path.lastDot (Js.to_list seg)) as [[|i]|] eqn:Hdot.
  3:{ cbn [length Js.to_list String.list_ascii_of_string].
      rewrite decide_False by (by intros [? _]).
      rewrite PathFacts.to_of_list, app_nil_r.
      by rewrite !ExtFacts.lastDot_app, Hdigits, Hdot. }
  1:{ cbn [length Js.to_list String.list_ascii_of_string].
      rewrite decide_False by (by intros [? _]).
      rewrite PathFacts.to_of_list, app_nil_r.
      by rewrite !ExtFacts.lastDot_app, Hdigits, Hdot. }
  destruct (decide (seg = "..")) as [E|_]; [done|].
  destruct (ExtFacts.lastDot_drop _ _ Hdot) as [Hlen Hext].
  set (ext := drop (S i) (Js.to_list seg)) in *.
  rewrite !PathFacts.to_of_list.
  assert (length ext = length (Js.to_list seg) - S i) as Hlext
    by (unfold ext; by rewrite length_drop).
  assert (ext ≠ []) as Hne by (intros E; by rewrite E in Hext).
  rewrite decide_True.
  2:{ split; [done|]. split; [lia|]. rewrite Hlext. unfold ext. f_equal. lia. }
  rewrite PathFacts.to_of_list.
  set (name := take (length (Js.to_list seg) - length ext) (Js.to_list seg)).
  rewrite !ExtFacts.lastDot_app, Hext. cbn [length].
  rewrite Nat.add_0_r.
  destruct (length name + (1 + length digits)) as [|n] eqn:Hn; [lia|].
  rewrite decide_False.
  2:{ intros E. apply (f_equal Js.to_list) in E.
      rewrite !PathFacts.to_list_app, PathFacts.to_of_list in E.
      apply (f_equal (λ l, bool_decide ("_"%char ∈ l))) in E.
      rewrite bool_decide_eq_true_2 in E; [done|].
      apply elem_of_app. right. by left. }
  f_equal. rewrite (app_assoc name), (app_assoc (name ++ _)).
  rewrite <- Hn. rewrite drop_app_length'; [done|].
  rewrite !length_app. cbn [length]. lia.
Qed.

(** The second [archive.tar.gz]. *)
Lemma numbered_keeps_extension_witness :
  Path.lastSegment "archive.tar.gz" ≠ ".." ∧
  Path.extname (numbered "archive.tar.gz" 1) = Path.extname "archive.tar.gz".
Proof.
  assert (Path.lastSegment "archive.tar.gz" ≠ "..") as H by (vm_compute; discriminate).
  split; [exact H|]. apply (numbered_keeps_extension "archive.tar.gz" 1). exact H.
Defined.

(** * Breadcrumbs *)

Module CrumbFacts.
Import Path PathFacts.

Lemma isAbsolute_first (x : ascii) (c : string) :
  Ascii.eqb x slash = false → isAbsolute (String x c) = false.
Proof.
  intros Hx. unfold isAbsolute, Js.startsWith. cbn [String.prefix].
  destruct (ascii_dec "/" x) as [<-|]; [done|done].
Qed.

(** A relative path made of names is already normal. *)
Lemma normalize_relative_clean (l : list string) :
  Forall (λ c, is_name c = true) l → l ≠ [] →
  normalize (join_segs l) = join_segs l.
Proof.
  intros Hl Hne.
  assert (Forall (λ c, has_slash c = false) l) as Hslash.
  { eapply Forall_impl; [exact Hl|]. by intros c (_ & _ & _ & ?)%is_name_spec. }
  assert (join_segs l ≠ EmptyString) as Hj.
  { intros E. by apply SandboxFacts.join_segs_nil_inv in E. }
  assert (isAbsolute (join_segs l) = false) as Habs.
  { destruct l as [|x l]; [done|]. apply Forall_cons in Hl as [Hx _].
    apply is_name_spec in Hx as (Hx & _ & _ & Hs).
    destruct x as [|ch x]; [done|]. apply orb_false_iff in Hs as [Hch _].
    destruct l as [|y l]; [by apply isAbsolute_first|].
    rewrite join_segs_cons, app_cons. by apply isAbsolute_first. }
  assert (endsWithSlash (join_segs l) = false) as Hend.
  { destruct l as [|c l0] using rev_ind; [done|]. clear IHl0.
    apply Forall_app in Hl as [_ [Hc _]%Forall_cons].
    apply is_name_spec in Hc as (Hc & _ & _ & Hs).
    destruct (decide (l0 = [])) as [->|Hl0]; [by apply endsWithSlash_no_slash|].
    rewrite SandboxFacts.join_segs_app by done. cbn [join_segs].
    change (join_segs l0 +:+ String slash c) with (join_segs l0 +:+ ("/" +:+ c)).
    rewrite <- app_assoc_str, endsWithSlash_app by done.
    by apply endsWithSlash_no_slash. }
  assert (normalize_segs true (join_segs l) = l) as Hsegs.
  { unfold normalize_segs. rewrite split_join_segs, fold_push_names by done.
    by rewrite app_nil_r, rev_involutive. }
  unfold normalize, normalizeString. rewrite Habs, Hend. cbn [negb].
  rewrite Hsegs, !decide_False by done. done.
Qed.

(** Joining one more name to a relative path made of names. *)
Lemma join_relative (l : list string) (c : string) :
  Forall (λ c, is_name c = true) l → is_name c = true →
  join (join_segs l) c = join_segs (l ++ [c]).
Proof.
  intros Hl Hc. pose proof Hc as (Hne & _)%is_name_spec.
  assert (join_segs (l ++ [c]) ≠ EmptyString) as Hj by by apply join_segs_snoc_nonempty.
  assert (normalize (join_segs (l ++ [c])) = join_segs (l ++ [c])) as Hnorm.
  { apply normalize_relative_clean; [|by destruct l].
    apply Forall_app. split; [done|by constructor]. }
  unfold join. destruct (decide (l = [])) as [->|Hl0].
  - cbn [join_segs app] in *.
    rewrite (decide_True (P := EmptyString = EmptyString)) by done.
    by rewrite (decide_False (P := c = EmptyString)) by done.
  - assert (join_segs l ≠ EmptyString) as Hjl.
    { intros E. by apply SandboxFacts.join_segs_nil_inv in E. }
    rewrite (decide_False (P := join_segs l = EmptyString)) by done.
    rewrite (decide_False (P := c = EmptyString)) by done.
    rewrite SandboxFacts.join_segs_app in Hj, Hnorm |- * by done.
    cbn [join_segs] in *.
    change (join_segs l +:+ "/" +:+ c) with (join_segs l +:+ String slash c).
    by rewrite (decide_False (P := join_segs l +:+ String slash c = EmptyString)) by done.
Qed.

Lemma slashes_app (a b : string) : slashes (a +:+ b) = slashes a +:+ slashes b.
Proof. induction a as [|x a IH]; [done|]. rewrite app_cons. cbn [slashes]. by rewrite IH. Qed.

Lemma slashes_join_segs (l : list string) :
  Forall (λ c, slashes c = c) l → slashes (join_segs l) = join_segs l.
Proof.
  induction 1 as [|x l Hx Hl IH]; [done|]. destruct l as [|y l]; [done|].
  rewrite join_segs_cons, slashes_app, Hx.
  change (slashes (String slash ?s)) with (String slash (slashes s)).
  by rewrite IH.
Qed.

End CrumbFacts.

(** X20.  When the non-empty parts of the current path are plain names
    without backslashes, the breadcrumbs are these parts in order, each
    with the path of the parts up to and including it. *)
Theorem breadcrumbs_are_cumulative (currentPath : string) :
  let parts := filter (λ p, p ≠ EmptyString) (Path.split currentPath) in
  Forall (λ p, Path.is_name p = true ∧ slashes p = p) parts →
  breadcrumbs currentPath
    = imap (λ k part, (part, Path.join_segs (take (S k) parts))) parts.
Proof.
  intros parts Hparts. unfold breadcrumbs. fold parts.
  assert (∀ todo done acc,
    Forall (λ p, Path.is_name p = true ∧ slashes p = p) done →
    Forall (λ p, Path.is_name p = true ∧ slashes p = p) todo →
    (fold_left
       (λ (st : string * list (string * string)) (part : string),
          let pathSoFar := slashes (Path.join st.1 part) in
          (pathSoFar, st.2 ++ [(part, pathSoFar)]))
       todo (Path.join_segs done, acc)).2
    = acc ++ imap (λ k part, (part, Path.join_segs (done ++ take (S k) todo))) todo)
    as Hloop.
  { induction todo as [|part todo IH]; intros done acc Hdone Htodo.
    { cbn. by rewrite app_nil_r. }
    apply Forall_cons in Htodo as [[Hname Hback] Htodo].
    cbn [fold_left fst snd]. cbv zeta.
    assert (Forall (λ p, Path.is_name p = true ∧ slashes p = p) (done ++ [part]))
      as Hdone' by (apply Forall_app; split; [done|by constructor]).
    rewrite CrumbFacts.join_relative; [|by eapply Forall_impl; [exact Hdone|intros ? []]|done].
    rewrite CrumbFacts.slashes_join_segs
      by (eapply Forall_impl; [exact Hdone'|by intros ? []]).
    rewrite IH by done. rewrite <- app_assoc. f_equal.
    rewrite imap_cons. cbn [take app]. f_equal.
    apply imap_ext. intros k x _. cbn. by rewrite <- app_assoc. }
  destruct (decide (currentPath = EmptyString)) as [->|Hne]; [done|].
  exact (Hloop parts [] [] (Forall_nil_2 _) Hparts).
Qed.

(** The crumbs of [d//sub/]. *)
Lemma breadcrumbs_are_cumulative_witness :
  let parts := filter (λ p, p ≠ EmptyString) (Path.split "d//sub/") in
  Forall (λ p, Path.is_name p = true ∧ slashes p = p) parts ∧
  breadcrumbs "d//sub/"
    = imap (λ k part, (part, Path.join_segs (take (S k) parts))) parts.
Proof.
  intros parts.
  assert (Forall (λ p, Path.is_name p = true ∧ slashes p = p) parts) as Hparts.
  { vm_compute. repeat constructor. }
  split; [exact Hparts|]. apply (breadcrumbs_are_cumulative "d//sub/"). exact Hparts.
Defined.

(** * A batch stored in a directory *)

(** ** Directories under insertion and removal *)

Module DirFacts.
Import Fs FsFacts.

Local Arguments find : simpl never.
Local Arguments remove_at : simpl never.
Local Arguments insert_at : simpl never.

(** Attaching an entry to an existing directory goes through and adds
    the entry to it. *)
Lemma insert_at_entry (t : node) (l : list string) (n : string)
    (m : gmap string node) (x : node) :
  find t l = Some (Dir m) →
  ∃ t', insert_at t (l ++ [n]) x = Some t' ∧ find t' l = Some (Dir (<[n := x]> m)).
Proof.
  revert t. induction l as [|s l IH]; intros t Hl.
  - change (find t []) with (Some t) in Hl. injection Hl as ->.
    exists (Dir (<[n := x]> m)). split; [apply insert_at_one|done].
  - destruct t as [c|m0]; [done|]. rewrite find_cons in Hl.
    destruct (m0 !! s) as [c|] eqn:Hs; [|done]. cbn [mbind option_bind] in Hl.
    destruct (IH c Hl) as (c' & Hins & Hfind).
    exists (Dir (<[s := c']> m0)). split.
    + cbn [app]. destruct (l ++ [n]) as [|s' p] eqn:E; [by destruct l|].
      rewrite insert_at_more, Hs. cbn [mbind option_bind]. by rewrite Hins.
    + by rewrite find_cons, lookup_insert_eq.
Qed.

(** Detaching below [l] detaches inside what is at [l]. *)
Lemma find_remove_at_below (t n : node) (l r : list string) :
  find t l = Some n → r ≠ [] →
  find (remove_at t (l ++ r)) l = Some (remove_at n r).
Proof.
  intros Hl Hr. revert t Hl. induction l as [|s l IH]; intros t Hl.
  - change (find t []) with (Some t) in Hl. by injection Hl as ->.
  - destruct t as [c|m0]; [done|]. rewrite find_cons in Hl.
    destruct (m0 !! s) as [c|] eqn:Hs; [|done]. cbn [mbind option_bind] in Hl.
    cbn [app]. destruct (l ++ r) as [|s' p] eqn:E.
    { by apply app_eq_nil in E as [_ ?]. }
    rewrite remove_at_more, Hs, find_cons, lookup_insert_eq.
    cbn [mbind option_bind]. by apply IH.
Qed.

(** Detaching [a] leaves a directory that is not below [a] a directory
    with no more entries than it had; it leaves it as it was when [a] is
    not below it either. *)
Lemma find_remove_at_dir (t : node) (a l : list string) (m : gmap string node) :
  find t l = Some (Dir m) → ¬ a `prefix_of` l →
  ∃ m', find (remove_at t a) l = Some (Dir m') ∧ size m' ≤ size m ∧
        (¬ l `prefix_of` a → m' = m).
Proof.
  intros Hl Hal. destruct (decide (l `prefix_of` a)) as [[r ->]|Hla].
  - assert (r ≠ []) as Hr.
    { intros ->. apply Hal. by rewrite app_nil_r. }
    rewrite (find_remove_at_below t (Dir m) l r Hl Hr).
    assert (∀ P : Prop, ¬ l `prefix_of` l ++ r → P) as Habs.
    { intros P H. destruct H. by exists r. }
    destruct r as [|s [|s' p]]; [done| |].
    + rewrite remove_at_one. eexists. split; [done|]. split; [|apply Habs].
      rewrite map_size_delete. destruct (m !! s); simpl; lia.
    + rewrite remove_at_more. destruct (m !! s) as [c|] eqn:Hs.
      * eexists. split; [done|]. split; [|apply Habs].
        by rewrite map_size_insert, Hs.
      * exists m. split; [done|]. split; [lia|done].
  - exists m. rewrite RemoveFacts.find_remove_at_apart by done. by split.
Qed.

End DirFacts.

Section UploadLoop.

Variable cwd : string.
Variable dev : list string → nat.
Variable upload_directory : string.

Lemma Forall2_impl_elem {A B : Type} (P Q : A → B → Prop) (l : list A) (k : list B) :
  Forall2 P l k → (∀ x y, x ∈ l → P x y → Q x y) → Forall2 Q l k.
Proof.
  induction 1 as [|x y l k Hxy _ IH]; intros Himpl; constructor.
  - apply Himpl; [by left|done].
  - apply IH. intros x' y' Hin. apply Himpl. by right.
Qed.

(** A list is a prefix of a directory's entry when it is the entry
    itself or leads to the directory. *)
Lemma prefix_snoc (a l : list string) (n : string) :
  a `prefix_of` l ++ [n] → a = l ++ [n] ∨ a `prefix_of` l.
Proof.
  intros [r Hr]. destruct r as [|x r _] using rev_ind.
  - left. by rewrite app_nil_r in Hr.
  - right. rewrite app_assoc in Hr. apply app_inj_tail in Hr as [-> _]. by exists r.
Qed.

(** Moving a temporary copy to a free name [fn] of the directory at [D].
    When the move goes through, the copy has become an entry of the
    directory, which has at most one entry more than before, and exactly
    the old entries and the new one when the copy came from elsewhere.
    A copy that is a regular file outside the directory is always moved. *)
Lemma moveIntoPlace_entry (t : Fs.node) (src filePath fn : string) (D : list string)
    (m : gmap string Fs.node) :
  let a := Fs.locate cwd src in
  let r := moveIntoPlace cwd dev t src filePath in
  Fs.find t D = Some (Fs.Dir m) →
  Fs.locate cwd filePath = D ++ [fn] →
  m !! fn = None →
  (r.2 = None →
   ∃ x m', Fs.find t a = Some x ∧ Fs.find r.1 D = Some (Fs.Dir m') ∧
     size m' ≤ S (size m) ∧ (¬ D `prefix_of` a → m' = <[fn := x]> m)) ∧
  (∀ c, Fs.find t a = Some (Fs.File c) → ¬ D `prefix_of` a → r.2 = None).
Proof.
  intros a r HD Hloc Hfn. subst r.
  set (b := Fs.locate cwd filePath) in *.
  assert (Fs.find t b = None) as Hb.
  { rewrite Hloc, find_app, HD. cbn [mbind option_bind].
    rewrite FsFacts.find_cons, Hfn. done. }
  assert (∀ c, Fs.find t a = Some (Fs.File c) → ¬ a `prefix_of` D) as HaD.
  { intros c Ha Hp. assert (a = D) as E.
    { eapply find_below_file; [done..|]. by rewrite HD. }
    rewrite E, HD in Ha. done. }
  assert (∀ x, Fs.find t a = Some x → ¬ b `prefix_of` a) as Hba.
  { intros x Ha Hp. destruct (FsFacts.find_prefix _ _ _ _ Ha Hp). congruence. }
  assert (∀ data, Fs.find t a = Some (Fs.File data) →
            ∃ t1 m', Fs.insert_at t b (Fs.File data) = Some t1 ∧
              Fs.find t1 a = Some (Fs.File data) ∧
              Fs.find (Fs.remove_at t1 a) D = Some (Fs.Dir m') ∧
              size m' ≤ S (size m) ∧
              (¬ D `prefix_of` a → m' = <[fn := Fs.File data]> m)) as Hcopy.
  { intros data Ha.
    destruct (DirFacts.insert_at_entry t D fn m (Fs.File data) HD) as (t1 & Hins & HD1).
    rewrite <- Hloc in Hins. fold b in Hins.
    assert (Fs.find t1 a = Some (Fs.File data)) as Ha1.
    { eapply FsFacts.find_insert_at_file; [done|by eapply Hba|done]. }
    destruct (DirFacts.find_remove_at_dir t1 a D _ HD1) as (m' & Hm' & Hsize & Hsame).
    { by eapply HaD. }
    exists t1, m'. split_and!; [done..| |done].
    rewrite map_size_insert, Hfn in Hsize. exact Hsize. }
  assert (∀ x, Fs.find t a = Some x → ¬ a `prefix_of` b →
            ∃ t1 m', Fs.insert_at (Fs.remove_at t a) b x = Some t1 ∧
              Fs.find t1 D = Some (Fs.Dir m') ∧
              size m' ≤ S (size m) ∧
              (¬ D `prefix_of` a → m' = <[fn := x]> m)) as Hren.
  { intros x Ha Hab.
    destruct (DirFacts.find_remove_at_dir t a D m HD) as (m1 & Hm1 & Hsize & Hsame).
    { intros Hp. apply Hab. rewrite Hloc. by apply prefix_app_r. }
    destruct (DirFacts.insert_at_entry _ D fn m1 x Hm1) as (t1 & Hins & HD1).
    rewrite <- Hloc in Hins. fold b in Hins.
    exists t1, (<[fn := x]> m1). split_and!; [done..| |].
    - rewrite map_size_insert. destruct (m1 !! fn); simpl; lia.
    - intros Hout. by rewrite Hsame. }
  unfold moveIntoPlace, Fs.renameSync. fold a. fold b.
  destruct (Fs.find t a) as [x|] eqn:Ha.
  2:{ unfold Fs.readFileSync. fold a. rewrite Ha.
      split; [|done]. by destruct (Fs.fail_code t a). }
  assert (a ≠ b) as Hab by congruence.
  rewrite (decide_False (P := a = b)) by done.
  destruct (decide (a = [])) as [Hnil|Hnil].
  { split; [done|]. intros c [= ->] _. rewrite Hnil in Ha.
    change (Fs.find t []) with (Some t) in Ha. injection Ha as ->.
    by destruct D. }
  destruct (decide (dev a ≠ dev b)) as [Hdev|Hdev].
  { cbn [Fs.code]. unfold Fs.readFileSync, Fs.writeFileSync, Fs.unlinkSync.
    fold a. fold b. rewrite Ha. destruct x as [data|mx]; [|by split].
    destruct (Hcopy data eq_refl) as (t1 & m' & Hins & Ha1 & HD1 & Hsize & Hsame).
    rewrite Hb, Hins, Ha1. cbn [fst snd]. split; [|done].
    intros _. by exists (Fs.File data), m'. }
  destruct (bool_decide (a `prefix_of` b)) eqn:Hpre.
  { split; [done|]. intros c [= ->] _. exfalso.
    apply bool_decide_eq_true in Hpre. rewrite Hloc in Hpre.
    destruct (prefix_snoc _ _ _ Hpre) as [E|Hp]; [by rewrite <- Hloc in E|].
    by eapply HaD. }
  apply bool_decide_eq_false in Hpre.
  destruct (Hren x eq_refl Hpre) as (t1 & m' & Hins & HD1 & Hsize & Hsame).
  rewrite Hb, Hins. cbn [fst snd]. split; [|done].
  intros _. by exists x, m'.
Qed.

(** With more rounds than the directory has entries the duplicate loop
    settles on a name that is free in the directory: the lowest unused
    one in the sense of the specification. *)
Lemma pickName_entry (fuel : nat) (t : Fs.node) (uploadDir original : string)
    (m : gmap string Fs.node) :
  Path.isAbsolute uploadDir = true →
  Path.is_name original = true →
  Fs.find t (Fs.locate cwd uploadDir) = Some (Fs.Dir m) →
  size m < fuel →
  ∃ fn,
    pickName cwd fuel t uploadDir original 1 original (Path.join uploadDir original)
      = Some (fn, Path.join uploadDir fn) ∧
    Path.is_name fn = true ∧
    m !! fn = None ∧
    lowest_unused_name (dom m) original fn.
Proof.
  intros Habs Hname Hdir Hfuel.
  assert (∀ c, Path.is_name c = true →
            Fs.existsSync cwd t (Path.join uploadDir c) = bool_decide (c ∈ dom m))
    as Hin.
  { intros c Hc. unfold Fs.existsSync.
    rewrite (exists_entry cwd t uploadDir c m Habs Hc Hdir).
    apply bool_decide_ext. by rewrite elem_of_dom. }
  destruct (free_candidate original m 1) as (k & Hk & Hfree).
  destruct (pickName_first_free cwd t uploadDir original fuel 1 original
              (Path.join uploadDir original)) as (fn & fp & Hpick & Hfp & Hsel).
  { right. exists k. split; [lia|]. unfold taken.
    rewrite Hin by apply NameFacts.numbered_name.
    apply bool_decide_eq_false. by rewrite not_elem_of_dom. }
  rewrite Hin in Hsel by done. unfold lowest_unused_name.
  destruct (decide (original ∈ dom m)) as [Hused|Hunused].
  - rewrite bool_decide_eq_true_2 in Hsel by done.
    destruct Hsel as (k' & Hk' & -> & -> & Hbelow).
    assert (numbered original k' ∉ dom m) as Hout.
    { rewrite Hin in Hfp by apply NameFacts.numbered_name.
      by apply bool_decide_eq_false in Hfp. }
    exists (numbered original k'). split; [done|].
    split; [apply NameFacts.numbered_name|].
    split; [by apply not_elem_of_dom|].
    exists k'. split_and!; [done..|].
    intros j Hj. specialize (Hbelow j Hj). unfold taken in Hbelow.
    rewrite Hin in Hbelow by apply NameFacts.numbered_name.
    by apply bool_decide_eq_true in Hbelow.
  - rewrite bool_decide_eq_false_2 in Hsel by done. destruct Hsel as [-> ->].
    exists original. split_and!; [done..| |done]. by apply not_elem_of_dom.
Qed.

(** A batch of plain names sent to an existing directory, with a round
    of the duplicate loop for every entry of the directory and every file
    of the batch, is worked through to its end or to its first error. *)
Lemma storeFiles_answers (fuel : nat) (uploadDir : string) (todo : list upfile) :
  Path.isAbsolute uploadDir = true →
  ∀ (t : Fs.node) (acc : list string) (m : gmap string Fs.node),
    Fs.find t (Fs.locate cwd uploadDir) = Some (Fs.Dir m) →
    Forall (λ f, Path.is_name (originalname f) = true) todo →
    size m + length todo ≤ fuel →
    is_Some (storeFiles cwd dev fuel t uploadDir todo acc).
Proof.
  intros Habs. induction todo as [|file rest IH]; intros t acc m Hdir Hnames Hfuel.
  { by eexists. }
  apply Forall_cons in Hnames as [Hname Hrest]. cbn [length] in Hfuel.
  destruct (pickName_entry fuel t uploadDir (originalname file) m)
    as (fn & Hpick & Hfn & Hfree & _); [done..|lia|].
  cbn [storeFiles]. unfold storeFile. rewrite Hpick.
  destruct (moveIntoPlace_entry t (tmp_path file) (Path.join uploadDir fn) fn
              (Fs.locate cwd uploadDir) m Hdir) as [Hmoved _];
    [by apply PathFacts.locate_join|done|].
  destruct (moveIntoPlace cwd dev t (tmp_path file) (Path.join uploadDir fn))
    as [t' [e|]]; [by eexists|].
  destruct (Hmoved eq_refl) as (x & m' & _ & Hdir' & Hsize & _).
  eapply IH; [done..|lia].
Qed.

(** The same batch when every temporary copy is a regular file of its
    own outside the directory: the loop runs to its end; the names follow
    the specification; the directory afterwards has its old entries as
    they were and, under each stored name, the content of the temporary
    copy, and nothing else; every file that is not one of the temporary
    copies is as it was. *)
Lemma storeFiles_stores (fuel : nat) (uploadDir : string) (todo : list upfile) :
  Path.isAbsolute uploadDir = true →
  ∀ (t : Fs.node) (acc : list string) (m : gmap string Fs.node),
    let D := Fs.locate cwd uploadDir in
    Fs.find t D = Some (Fs.Dir m) →
    size m + length todo ≤ fuel →
    NoDup (Fs.locate cwd ∘ tmp_path <$> todo) →
    Forall (λ f, Path.is_name (originalname f) = true ∧
                 ¬ D `prefix_of` Fs.locate cwd (tmp_path f) ∧
                 ∃ c, Fs.find t (Fs.locate cwd (tmp_path f)) = Some (Fs.File c)) todo →
    ∃ names t' m',
      storeFiles cwd dev fuel t uploadDir todo acc = Some (inl (t', acc ++ names)) ∧
      spec_stored_names (dom m) (originalname <$> todo) names ∧
      Fs.find t' D = Some (Fs.Dir m') ∧
      m ⊆ m' ∧
      dom m' = list_to_set names ∪ dom m ∧
      Forall2 (λ f n, m' !! n = Fs.find t (Fs.locate cwd (tmp_path f))) todo names ∧
      (∀ q c, Fs.find t q = Some (Fs.File c) →
              (∀ f, f ∈ todo → ¬ Fs.locate cwd (tmp_path f) `prefix_of` q) →
              Fs.find t' q = Some (Fs.File c)).
Proof.
  intros Habs. induction todo as [|file rest IH]; intros t acc m D Hdir Hfuel Hnd Hfiles.
  { exists [], t, m. rewrite app_nil_r. split_and!; [done..| |done|done].
    by rewrite list_to_set_nil, (left_id_L ∅ (∪)). }
  apply Forall_cons in Hfiles as [(Hname & Hout & c & Hc) Hrest].
  rewrite fmap_cons in Hnd. apply NoDup_cons in Hnd as [Hfresh Hnd].
  cbn [length] in Hfuel.
  destruct (pickName_entry fuel t uploadDir (originalname file) m)
    as (fn & Hpick & Hfn & Hfree & Hlow); [done..|lia|].
  cbn [storeFiles]. unfold storeFile. rewrite Hpick.
  assert (Fs.existsSync cwd t (Path.join uploadDir fn) = false) as Hfp.
  { apply existsSync_false. by rewrite (exists_entry cwd t uploadDir fn m). }
  destruct (moveIntoPlace_entry t (tmp_path file) (Path.join uploadDir fn) fn D m Hdir)
    as [Hmoved Hmoves]; [by apply PathFacts.locate_join|done|].
  destruct (moveIntoPlace_fresh cwd dev t (tmp_path file) _ Hfp) as [Hframe _].
  specialize (Hmoves c Hc Hout).
  destruct (moveIntoPlace cwd dev t (tmp_path file) (Path.join uploadDir fn))
    as [t1 [e|]]; [done|]. clear Hmoves. cbn [fst snd] in Hmoved, Hframe.
  destruct (Hmoved eq_refl) as (x & m1 & Hx & Hdir1 & _ & Hm1).
  rewrite Hc in Hx. injection Hx as <-. specialize (Hm1 Hout). subst m1.
  assert (∀ f, f ∈ rest →
            ¬ Fs.locate cwd (tmp_path file) `prefix_of` Fs.locate cwd (tmp_path f))
    as Hapart.
  { intros f Hf Hp. apply Hfresh.
    apply (proj1 (Forall_forall _ _) Hrest) in Hf as Hf'.
    destruct Hf' as (_ & _ & c' & Hc').
    assert (Fs.locate cwd (tmp_path file) = Fs.locate cwd (tmp_path f)) as E.
    { eapply find_below_file; [done..|]. by rewrite Hc'. }
    change ((Fs.locate cwd ∘ tmp_path) file) with (Fs.locate cwd (tmp_path file)).
    rewrite E. by apply (list_elem_of_fmap_2 (Fs.locate cwd ∘ tmp_path)). }
  destruct (IH t1 (acc ++ [fn]) (<[fn := Fs.File c]> m))
    as (names & t' & m' & Hstore & Hspec & Hdir' & Hsub & Hdom & Hstored & Hkept).
  { done. }
  { rewrite map_size_insert, Hfree. simpl. lia. }
  { done. }
  { apply Forall_forall. intros f Hf.
    destruct (proj1 (Forall_forall _ _) Hrest f Hf) as (? & ? & c' & Hc').
    split_and!; [done..|]. exists c'. apply Hframe; [done|by apply Hapart]. }
  exists (fn :: names), t', m'. rewrite <- app_assoc in Hstore.
  split_and!.
  - done.
  - cbn [fmap list_fmap spec_stored_names]. split; [done|].
    by rewrite dom_insert_L in Hspec.
  - done.
  - etrans; [|done]. by apply insert_subseteq.
  - rewrite Hdom, dom_insert_L, list_to_set_cons.
    by rewrite (assoc_L (∪)), (comm_L (∪) (list_to_set names) {[fn]}).
  - constructor.
    + rewrite Hc. eapply lookup_weaken; [|done]. by rewrite lookup_insert_eq.
    + eapply Forall2_impl_elem; [done|]. intros f n Hf ->.
      destruct (proj1 (Forall_forall _ _) Hrest f Hf) as (_ & _ & c' & Hc').
      rewrite Hc'. apply Hframe; [done|by apply Hapart].
  - intros q c' Hq Hoff. apply Hkept.
    + apply Hframe; [done|]. apply Hoff. by left.
    + intros f Hf. apply Hoff. by right.
Qed.



End UploadLoop.



(** * Dot-named entries and the routes *)

Section HiddenRoutes.

Variable cwd : string.
Variable dev : list string → nat.
Variable upload_directory : string.
Variable enable_api_restrictions : bool.
Variable mime_lookup : string → option string.
Variable mtimeMs : string → Z.
Variable localeCompare : string → string → Z.
Variable legacy_dotfiles : bool.

(** The canonical path of a dot-named entry is ignored by [send]. *)
Lemma ignores_dot_named (legacy : bool) (l : list string) (name : string) :
  Forall (λ c, Path.is_name c = true) l →
  Path.is_name name = true →
  Js.startsWith name "." = true →
  Send.ignores legacy (String Path.slash (Path.join_segs (l ++ [name]))) = true.
Proof.
  intros Hl Hname Hdot.
  assert (Forall (λ c, Path.is_name c = true) (l ++ [name])) as Hall
    by (apply Forall_app; split; [done|by constructor]).
  assert (Forall (λ c, Path.has_slash c = false) (l ++ [name])) as Hslash.
  { eapply Forall_impl; [exact Hall|]. by intros c (_ & _ & _ & ?)%PathFacts.is_name_spec. }
  apply PathFacts.is_name_spec in Hname as (Hne & Hone & _ & Hs).
  set (path := String Path.slash (Path.join_segs (l ++ [name]))).
  assert (Path.isAbsolute path = true) as Habs by apply PathFacts.isAbsolute_cons.
  assert (Path.normalize_segs false path = l ++ [name]) as Hsegs
    by by apply PathFacts.normalize_segs_render.
  assert (Path.endsWithSlash path = false) as Hend.
  { unfold path. destruct (decide (l = [])) as [->|Hl0].
    - cbn [app Path.join_segs].
      change (String Path.slash name) with ("/" +:+ name).
      rewrite PathFacts.endsWithSlash_app by done.
      by apply PathFacts.endsWithSlash_no_slash.
    - rewrite SandboxFacts.join_segs_app by done. cbn [Path.join_segs].
      change (String Path.slash (Path.join_segs l +:+ String Path.slash name))
        with (String Path.slash (Path.join_segs l) +:+ "/" +:+ name).
      rewrite <- PathFacts.app_assoc_str, PathFacts.endsWithSlash_app by done.
      by apply PathFacts.endsWithSlash_no_slash. }
  assert (Path.normalize path = path) as Hnorm.
  { unfold Path.normalize, Path.normalizeString.
    rewrite (decide_False (P := path = EmptyString)) by done.
    rewrite Habs, Hend. cbn [negb]. rewrite Hsegs.
    by rewrite (decide_False (P := Path.join_segs (l ++ [name]) = EmptyString))
      by by apply PathFacts.join_segs_snoc_nonempty. }
  unfold Send.ignores. rewrite Hnorm. unfold path.
  change (String Path.slash (Path.join_segs (l ++ [name])))
    with (EmptyString +:+ String Path.slash (Path.join_segs (l ++ [name]))).
  rewrite PathFacts.split_app, PathFacts.split_join_segs by (done || by destruct l).
  cbn [Path.split app]. rewrite app_comm_cons, last_last, Hdot.
  assert (Send.isDotFile name = true) as Hfile.
  { unfold Send.isDotFile. rewrite Hdot, andb_true_r.
    destruct name as [|c0 [|c1 rest]]; [done| |done].
    unfold Js.startsWith in Hdot. apply String.prefix_correct in Hdot.
    cbn [String.length String.substring] in Hdot. congruence. }
  unfold Send.containsDotFile. rewrite existsb_app. cbn [existsb].
  rewrite Hfile. cbn [orb]. rewrite orb_true_r. by destruct legacy.
Qed.


End HiddenRoutes.


